(** * note-operator: the diff engine and the structured-response recoverer

    A shallow embedding of the two algorithmic parts of the repository:

    - [NoteProcessor] (note-processor.ts): [extractNewContent], the line
      diff of a note against its stored snapshot, and [aggregateContent],
      which joins the per-note sections into the prompt document;
    - [AnthropicClient] (anthropic-client.ts): [parseResponse], which
      extracts, repairs and validates the JSON brief in a model response.

    and of the code around them: the time window ([TimestampStore]),
    the writing of the snapshots ([Snapshots]), the selection of the
    notes ([Pipeline]), the daily run ([CronScheduler]), the prompt
    ([Prompt]), the writers ([Writers]), the extraction service
    ([ApiServer]) and the run in GitHub Actions ([GitHubActions]).

    JavaScript strings are sequences of UTF-16 code units; they are
    modelled as [list N].  Indices are JavaScript numbers holding
    integers; they are modelled as [Z], so that the [-1] of [indexOf] and
    differences such as [length - 50] read as in the source.  The
    JavaScript engine's [JSON.parse], its numbers and its locale are not
    code of the repository: they are taken as an interface ([Engine],
    [toLocaleString]) and the theorems hold for every implementation. *)

From Stdlib Require Import ZArith NArith List Ascii String Lia Bool DecimalString Sorted.
From stdpp Require Import gmap list.
Import ListNotations.

Set Warnings "-register-all,-clear-no-such-hyp".

(** ** JavaScript string primitives *)

Module JS.

Abbreviation jstring := (list N).

(** A literal, code unit by code unit. *)
Definition js (s : string) : jstring := map N_of_ascii (list_ascii_of_string s).

Definition DQUOTE : N := 34.
Definition BACKSLASH : N := 92.
Definition LF : N := 10.
Definition CR : N := 13.

(** A literal in which the apostrophe stands for the double quote, to
    write JSON text legibly: [jq "{'task':'x'}"] is [{"task":"x"}]. *)
Definition jq (s : string) : jstring :=
  map (fun c => if N.eqb c 39 then DQUOTE else c) (js s).

Definition isChar (a : ascii) (c : N) : bool := N.eqb c (N_of_ascii a).

(** The regular expression class [\s], which is also what [trim] strips:
    WhiteSpace and LineTerminator of ECMA-262. *)
Definition isWhiteSpace (c : N) : bool :=
  ((9 <=? c) && (c <=? 13) || (c =? 32) || (c =? 160) || (c =? 5760)
   || (8192 <=? c) && (c <=? 8202) || (c =? 8232) || (c =? 8233)
   || (c =? 8239) || (c =? 8287) || (c =? 12288) || (c =? 65279))%N.

(** The class [\d]. *)
Definition isDigit (c : N) : bool := ((48 <=? c) && (c <=? 57))%N.

Fixpoint dropWhile (p : N -> bool) (s : jstring) : jstring :=
  match s with
  | [] => []
  | c :: rest => if p c then dropWhile p rest else s
  end.

Fixpoint takeWhile (p : N -> bool) (s : jstring) : jstring :=
  match s with
  | [] => []
  | c :: rest => if p c then c :: takeWhile p rest else []
  end.

Definition trimStart (s : jstring) : jstring := dropWhile isWhiteSpace s.
Definition trimEnd (s : jstring) : jstring := rev (dropWhile isWhiteSpace (rev s)).

(** [String.prototype.trim] *)
Definition trim (s : jstring) : jstring := trimEnd (trimStart s).

(** [s.length] *)
Definition len (s : jstring) : Z := Z.of_nat (length s).

Fixpoint startsWith (prefix s : jstring) : bool :=
  match prefix, s with
  | [], _ => true
  | _ :: _, [] => false
  | a :: prefix', b :: s' => N.eqb a b && startsWith prefix' s'
  end.

Fixpoint indexOfAt (needle s : jstring) (i : Z) : Z :=
  if startsWith needle s then i
  else match s with
       | [] => (-1)%Z
       | _ :: rest => indexOfAt needle rest (i + 1)%Z
       end.

Definition clamp (s : jstring) (i : Z) : Z := Z.min (Z.max i 0) (len s).

(** [s.indexOf(needle, from)]: the first index at or after [from] where
    [needle] occurs, [-1] when there is none. *)
Definition indexOf (needle s : jstring) (from : Z) : Z :=
  let k := clamp s from in
  indexOfAt needle (drop (Z.to_nat k) s) k.

(** [s.includes(needle)] *)
Definition includes (needle s : jstring) : bool :=
  negb (indexOf needle s 0 =? -1)%Z.

(** [s.substring(a, b)]: both ends clamped into the string and swapped
    when out of order. *)
Definition substring (s : jstring) (a b : Z) : jstring :=
  let a' := clamp s a in
  let b' := clamp s b in
  let lo := Z.min a' b' in
  let hi := Z.max a' b' in
  take (Z.to_nat (hi - lo)) (drop (Z.to_nat lo) s).

(** [s[i]]: [None] is [undefined]. *)
Definition charAt (s : jstring) (i : Z) : option N :=
  if (i <? 0)%Z then None else s !! Z.to_nat i.

(** [parts.join(sep)] *)
Fixpoint join (sep : jstring) (parts : list jstring) : jstring :=
  match parts with
  | [] => []
  | [p] => p
  | p :: rest => p ++ sep ++ join sep rest
  end.

(** [s.split(/\r?\n/)]: a line ends at a line feed, which takes a carriage
    return just before it along; a carriage return elsewhere stays in its
    line.  [cur] is the line being read. *)
Fixpoint splitLinesFrom (cur s : jstring) : list jstring :=
  match s with
  | [] => [cur]
  | c :: rest =>
      if N.eqb c LF then cur :: splitLinesFrom [] rest
      else if N.eqb c CR then
        match rest with
        | d :: rest' =>
            if N.eqb d LF then cur :: splitLinesFrom [] rest'
            else splitLinesFrom (cur ++ [c]) rest
        | [] => splitLinesFrom (cur ++ [c]) rest
        end
      else splitLinesFrom (cur ++ [c]) rest
  end.

Definition splitLines (s : jstring) : list jstring := splitLinesFrom [] s.

(** The decimal numeral of a non-negative integer, as [String(n)] and
    template literals print it. *)
Definition decimal (n : N) : jstring := js (NilZero.string_of_uint (N.to_uint n)).

End JS.


Import JS.

(** ** The snapshot store (storage/note-snapshot-store.ts) *)

Module NoteSnapshotStore.

Record NoteSnapshot := {
  name : jstring;
  body : jstring;
  modificationDate : jstring  (* ISO-8601 text *)
}.

(** What [readFile] and [JSON.parse] make of the snapshot file. *)
Inductive File :=
| Missing                                   (* ENOENT: first run *)
| Unreadable (message : jstring)            (* any other failure *)
| Stored (lastRun : jstring) (notes : gmap jstring NoteSnapshot).

Inductive Thrown :=
| ReadError (message : jstring)  (* 'Failed to read note snapshots: ...' *)
| TypeError.                     (* a property read on [undefined] *)

(** [getSnapshots]: [None] is [null]. *)
Definition getSnapshots (f : File) : Thrown + option (gmap jstring NoteSnapshot) :=
  match f with
  | Missing => inr None
  | Unreadable message => inl (ReadError message)
  | Stored _ notes => inr (Some notes)
  end.

(** The property names every object created by [JSON.parse] inherits from
    [Object.prototype]; each holds a function or an object, never a
    snapshot. *)
Definition objectPrototypeKeys : list jstring :=
  [ js "constructor"; js "__defineGetter__"; js "__defineSetter__";
    js "hasOwnProperty"; js "__lookupGetter__"; js "__lookupSetter__";
    js "isPrototypeOf"; js "propertyIsEnumerable"; js "toString";
    js "valueOf"; js "__proto__"; js "toLocaleString" ].

(** What [snapshots.notes[noteName]] evaluates to when it is truthy: a
    stored snapshot (an own property), or a member of [Object.prototype]
    found up the prototype chain when there is no own property. *)
Inductive Found :=
| Snapshot (s : NoteSnapshot)
| Builtin.

Definition getProperty (notes : gmap jstring NoteSnapshot) (noteName : jstring)
  : option Found :=
  match notes !! noteName with
  | Some s => Some (Snapshot s)
  | None =>
      if bool_decide (noteName ∈ objectPrototypeKeys) then Some Builtin else None
  end.

(** [getNoteSnapshot]: [None] is [null]. *)
Definition getNoteSnapshot (f : File) (noteName : jstring) : Thrown + option Found :=
  match getSnapshots f with
  | inl e => inl e
  | inr None => inr None
  | inr (Some notes) =>
      match getProperty notes noteName with
      | None => inr None          (* if (!snapshot) return null *)
      | Some snapshot => inr (Some snapshot)
      end
  end.

End NoteSnapshotStore.

(** ** The diff engine (processor/note-processor.ts)

    [extractNewContent] and [aggregateContent]; what they print with
    [console.log] is left out. *)

Module NoteProcessor.

Import NoteSnapshotStore.

Record Note := {
  name : jstring;
  body : jstring;
  modificationDate : Z  (* the Date's time value *)
}.

(** The loop that fills [previousLinesSet]. *)
Definition previousLinesSet (previousLines : list jstring) : gset jstring :=
  fold_left
    (fun set line =>
       let normalized := trim line in
       if (0 <? len normalized)%Z then set ∪ {[ normalized ]} else set)
    previousLines ∅.

(** The loop that fills [newLines]. *)
Definition newLines (set : gset jstring) (currentLines : list jstring) : list jstring :=
  fold_left
    (fun acc line =>
       let normalized := trim line in
       if (0 <? len normalized)%Z && negb (bool_decide (normalized ∈ set))
       then acc ++ [line] else acc)
    currentLines [].

(** The diff of a body against a stored body: the array [newLines] of
    [extractNewContent]. *)
Definition diffLines (previousBody currentBody : jstring) : list jstring :=
  let previousLines := splitLines previousBody in
  let currentLines := splitLines currentBody in
  newLines (previousLinesSet previousLines) currentLines.

(** [extractNewContent(currentNote)], reading the snapshot file [f]. *)
Definition extractNewContent (f : File) (currentNote : Note) : Thrown + jstring :=
  match getNoteSnapshot f (name currentNote) with
  | inl e => inl e
  | inr None => inr (body currentNote)
  | inr (Some Builtin) =>
      (* previousSnapshot.body is undefined and previousBody.length throws *)
      inl TypeError
  | inr (Some (Snapshot previousSnapshot)) =>
      inr (join [LF] (diffLines (NoteSnapshotStore.body previousSnapshot)
                                (body currentNote)))
  end.

Definition noNotesModified : jstring :=
  js "No notes were modified in the last 24 hours.".
Definition noNewContent : jstring :=
  js "No new content was added to notes in the last 24 hours.".

Section Aggregate.

(** [Date.prototype.toLocaleString] depends on the host's locale and time
    zone. *)
Variable toLocaleString : Z -> jstring.

(** One section of the document. *)
Definition section (index : nat) (note : Note) (newContent : jstring) : jstring :=
  js "--- Note " ++ decimal (N.of_nat (index + 1)) ++ js ": " ++ name note
  ++ js " (Modified: " ++ toLocaleString (modificationDate note) ++ js ") ---"
  ++ [LF] ++ newContent ++ [LF].

(** The [for] loop of [aggregateContent] from [index] on. *)
Fixpoint aggregateLoop (f : File) (notes : list Note) (index : nat)
    (sections : list jstring) : Thrown + list jstring :=
  match notes with
  | [] => inr sections
  | note :: rest =>
      match extractNewContent f note with
      | inl e => inl e
      | inr newContent =>
          aggregateLoop f rest (S index)
            (if (0 <? len (trim newContent))%Z
             then sections ++ [section index note newContent]
             else sections)
      end
  end.

Definition aggregateContent (f : File) (notes : list Note) : Thrown + jstring :=
  match notes with
  | [] => inr noNotesModified
  | _ =>
      match aggregateLoop f notes 0 [] with
      | inl e => inl e
      | inr [] => inr noNewContent
      | inr sections => inr (join [LF; LF] sections)
      end
  end.

End Aggregate.

End NoteProcessor.

(** ** JSON values and the engine interface *)

Module Json.

(** What [JSON.parse] returns.  An object lists its members in source
    order; a name written twice keeps its last value.  [number] is the
    engine's Number type. *)
Inductive value (number : Type) :=
| JNull
| JBool (b : bool)
| JNumber (n : number)
| JString (s : jstring)
| JArray (items : list (value number))
| JObject (members : list (jstring * value number)).

Arguments JNull {number}.
Arguments JBool {number} b.
Arguments JNumber {number} n.
Arguments JString {number} s.
Arguments JArray {number} items.
Arguments JObject {number} members.

(** The JavaScript engine: its numbers, and [JSON.parse], which returns
    the parsed value or throws a SyntaxError, of which the code reads the
    message. *)
Class Engine := {
  number : Type;
  numberToBoolean : number -> bool;
  numberToString : number -> jstring;
  JSON_parse : jstring -> jstring + value number
}.

Section Values.

Context {engine : Engine}.

Fixpoint lookupLast (key : jstring) (members : list (jstring * value number))
  : option (value number) :=
  match members with
  | [] => None
  | (k, v) :: rest =>
      match lookupLast key rest with
      | Some v' => Some v'
      | None => if bool_decide (k = key) then Some v else None
      end
  end.

(** [v.key] for the names [parseResponse] reads ([executiveSummary],
    [actionItems], [task], [priority]), none of which a built-in prototype
    defines: [None] is a TypeError (the read of a property of [null]),
    [Some None] is [undefined]. *)
Definition get (v : value number) (key : jstring) : option (option (value number)) :=
  match v with
  | JNull => None
  | JObject members => Some (lookupLast key members)
  | _ => Some None
  end.

(** ToBoolean, on a value that may be [undefined]. *)
Definition truthy (v : option (value number)) : bool :=
  match v with
  | None => false
  | Some JNull => false
  | Some (JBool b) => b
  | Some (JNumber n) => numberToBoolean n
  | Some (JString s) => (0 <? len s)%Z
  | Some (JArray _) => true
  | Some (JObject _) => true
  end.

(** [String(v)]; [None] is a TypeError.  An object is converted by the
    method found under [toString], then by the one under [valueOf].  A
    member of the object's own named [toString] hides
    [Object.prototype.toString] and, being a parsed value, is not
    callable; [valueOf], inherited or not, gives no primitive; so the
    conversion of such an object throws.  Any other object gives
    '[object Object]'.  An array is joined with commas by
    [Array.prototype.join], which converts its elements from left to
    right, [null] to the empty string. *)
Fixpoint toString (v : value number) : option jstring :=
  match v with
  | JNull => Some (js "null")
  | JBool b => Some (if b then js "true" else js "false")
  | JNumber n => Some (numberToString n)
  | JString s => Some s
  | JArray items =>
      join (js ",")
        <$> mapM (fun item => match item with JNull => Some [] | _ => toString item end)
              items
  | JObject members =>
      match lookupLast (js "toString") members with
      | Some _ => None
      | None => Some (js "[object Object]")
      end
  end.

End Values.

End Json.

(** ** A reference engine

    An instance of [Engine] to run the recoverer on concrete texts: a
    parser of the JSON grammar (ECMA-404) with SyntaxError messages in the
    wording of V8, and the numbers of ECMA-262.  Of a message the
    recoverer reads the offset that follows the word 'position', and
    otherwise passes the text on.  Engines differ in the messages that
    carry an offset and in the words around it: V8 gives the offset of a
    missing colon in Node.js 22, as is done here, and gives none in
    Node.js 20 when the colon is missing after a member that is not the
    first.  What is computed with this instance is the run on an engine
    that answers as it does on the text at hand; the theorems are stated
    for every engine. *)

Module V8.

Import Json.

Abbreviation value := (Json.value jstring).

Inductive parsed (A : Type) :=
| Ok (a : A) (rest : jstring) (pos : Z)
| Fail (message : jstring).

Arguments Ok {A} a rest pos.
Arguments Fail {A} message.

Definition isJsonSpace (c : N) : bool :=
  ((c =? 32) || (c =? 9) || (c =? 10) || (c =? 13))%N.

Fixpoint skipSpace (s : jstring) (pos : Z) : jstring * Z :=
  match s with
  | [] => ([], pos)
  | c :: rest => if isJsonSpace c then skipSpace rest (pos + 1)%Z else (s, pos)
  end.

(** Messages that carry the offset of the offending code unit. *)
Definition atPosition (what : string) (pos : Z) : jstring :=
  js what ++ js " at position " ++ decimal (Z.to_N pos).

Definition unexpectedEnd : jstring := js "Unexpected end of JSON input".

Definition hexValue (c : N) : option N :=
  (if isDigit c then Some (c - 48)
   else if (97 <=? c) && (c <=? 102) then Some (c - 87)
   else if (65 <=? c) && (c <=? 70) then Some (c - 55)
   else None)%N.

Definition hex4 (a b c d : N) : option N :=
  match hexValue a, hexValue b, hexValue c, hexValue d with
  | Some x, Some y, Some z, Some w => Some (((x * 16 + y) * 16 + z) * 16 + w)%N
  | _, _, _, _ => None
  end.

(** The code unit an escape letter stands for. *)
Definition escaped (c : N) : option N :=
  if N.eqb c DQUOTE then Some DQUOTE
  else if N.eqb c BACKSLASH then Some BACKSLASH
  else if isChar "/" c then Some 47%N
  else if isChar "b" c then Some 8%N
  else if isChar "f" c then Some 12%N
  else if isChar "n" c then Some 10%N
  else if isChar "r" c then Some 13%N
  else if isChar "t" c then Some 9%N
  else None.

(** A string, from just after its opening quote. *)
Fixpoint scanString (s : jstring) (pos : Z) (acc : jstring) : parsed jstring :=
  match s with
  | [] => Fail (atPosition "Unterminated string in JSON" pos)
  | c :: rest =>
      if N.eqb c DQUOTE then Ok acc rest (pos + 1)%Z
      else if N.eqb c BACKSLASH then
        match rest with
        | [] => Fail (atPosition "Unterminated string in JSON" (pos + 1))
        | e :: rest' =>
            match escaped e with
            | Some u => scanString rest' (pos + 2)%Z (acc ++ [u])
            | None =>
                if isChar "u" e then
                  match rest' with
                  | h1 :: h2 :: h3 :: h4 :: rest'' =>
                      match hex4 h1 h2 h3 h4 with
                      | Some u => scanString rest'' (pos + 6)%Z (acc ++ [u])
                      | None => Fail (atPosition "Bad Unicode escape in JSON" (pos + 2))
                      end
                  | _ => Fail (atPosition "Bad Unicode escape in JSON" (pos + 2))
                  end
                else Fail (atPosition "Bad escaped character in JSON" (pos + 1))
            end
        end
      else if (c <? 32)%N
      then Fail (atPosition "Bad control character in string literal in JSON" pos)
      else scanString rest (pos + 1)%Z (acc ++ [c])
  end.

(** The digits at the head of [s], which must not be empty. *)
Definition scanDigits (what : string) (s : jstring) (pos : Z) : parsed jstring :=
  match takeWhile isDigit s with
  | [] => Fail (atPosition what pos)
  | digits => Ok digits (dropWhile isDigit s) (pos + len digits)%Z
  end.

Definition scanExponent (s : jstring) (pos : Z) : parsed jstring :=
  match s with
  | e :: rest =>
      if isChar "e" e || isChar "E" e then
        let '(sign, rest', pos') :=
          match rest with
          | c :: r => if isChar "+" c || isChar "-" c
                      then ([c], r, (pos + 2)%Z) else ([], rest, (pos + 1)%Z)
          | [] => ([], rest, (pos + 1)%Z)
          end in
        match scanDigits "Exponent part is missing a number in JSON" rest' pos' with
        | Ok digits r p => Ok (e :: sign ++ digits) r p
        | Fail m => Fail m
        end
      else Ok [] s pos
  | [] => Ok [] s pos
  end.

Definition scanFraction (s : jstring) (pos : Z) : parsed jstring :=
  match s with
  | dot :: rest =>
      if isChar "." dot then
        match scanDigits "Unterminated fractional number in JSON" rest (pos + 1) with
        | Ok digits r p => Ok (dot :: digits) r p
        | Fail m => Fail m
        end
      else Ok [] s pos
  | [] => Ok [] s pos
  end.

(** A number, from its first code unit (a minus sign or a digit). *)
Definition scanNumber (s : jstring) (pos : Z) : parsed jstring :=
  let '(sign, s1, pos1) :=
    match s with
    | c :: r => if isChar "-" c then ([c], r, (pos + 1)%Z) else ([], s, pos)
    | [] => ([], s, pos)
    end in
  let integer :=
    match s1 with
    | c :: r =>
        if isChar "0" c then
          match r with
          | d :: _ => if isDigit d
                      then Fail (atPosition "Unexpected number in JSON" (pos1 + 1))
                      else Ok [c] r (pos1 + 1)%Z
          | [] => Ok [c] r (pos1 + 1)%Z
          end
        else scanDigits "No number after minus sign in JSON" s1 pos1
    | [] => Fail (atPosition "No number after minus sign in JSON" pos1)
    end in
  match integer with
  | Fail m => Fail m
  | Ok digits s2 pos2 =>
      match scanFraction s2 pos2 with
      | Fail m => Fail m
      | Ok fraction s3 pos3 =>
          match scanExponent s3 pos3 with
          | Fail m => Fail m
          | Ok exponent s4 pos4 => Ok (sign ++ digits ++ fraction ++ exponent) s4 pos4
          end
      end
  end.

Section Parser.

(** The whole text, which some messages quote. *)
Variable source : jstring.

(** A token where no rule of the grammar applies: the message quotes the
    text, or the twenty code units around the token when the text is
    longer than that, and gives no position. *)
Definition unexpectedToken (c : N) (pos : Z) : jstring :=
  let quoted (before : jstring) (a b : Z) (after : jstring) :=
    js "Unexpected token '" ++ [c] ++ js "', " ++ before ++ [DQUOTE]
    ++ substring source a b ++ [DQUOTE] ++ after ++ js " is not valid JSON" in
  if (len source <? 21)%Z then quoted [] 0%Z (len source) []
  else if (pos <? 10)%Z then quoted [] 0%Z (pos + 10)%Z (js "...")
  else if (pos <? len source - 10)%Z
  then quoted (js "...") (pos - 10)%Z (pos + 10)%Z (js "...")
  else quoted (js "...") (pos - 10)%Z (len source) [].

(** One of the words [true], [false], [null]. *)
Fixpoint scanLiteral (word s : jstring) (pos : Z) (v : value) : parsed value :=
  match word with
  | [] => Ok v s pos
  | w :: word' =>
      match s with
      | [] => Fail unexpectedEnd
      | c :: rest =>
          if N.eqb c w then scanLiteral word' rest (pos + 1)%Z v
          else Fail (unexpectedToken c pos)
      end
  end.

(** A value; the elements of an array from the start of an element; the
    members of an object from the start of a member.  [fuel] bounds the
    number of nested calls. *)
Fixpoint parseValue (fuel : nat) (s : jstring) (pos : Z) {struct fuel}
  : parsed value :=
  match fuel with
  | O => Fail (js "fuel")
  | S fuel' =>
      let '(s, pos) := skipSpace s pos in
      match s with
      | [] => Fail unexpectedEnd
      | c :: rest =>
          if N.eqb c DQUOTE then
            match scanString rest (pos + 1) [] with
            | Ok str r p => Ok (JString str) r p
            | Fail m => Fail m
            end
          else if isChar "{" c then
            let '(s1, pos1) := skipSpace rest (pos + 1) in
            match s1 with
            | d :: r1 =>
                if isChar "}" d then Ok (JObject []) r1 (pos1 + 1)%Z
                else if N.eqb d DQUOTE then parseMembers fuel' s1 pos1 []
                else Fail (atPosition "Expected property name or '}' in JSON" pos1)
            | [] => Fail (atPosition "Expected property name or '}' in JSON" pos1)
            end
          else if isChar "[" c then
            let '(s1, pos1) := skipSpace rest (pos + 1) in
            match s1 with
            | d :: r1 =>
                if isChar "]" d then Ok (JArray []) r1 (pos1 + 1)%Z
                else parseElements fuel' s1 pos1 []
            | [] => Fail unexpectedEnd
            end
          else if isChar "-" c || isDigit c then
            match scanNumber s pos with
            | Ok numeral r p => Ok (JNumber numeral) r p
            | Fail m => Fail m
            end
          else if isChar "t" c then scanLiteral (js "true") s pos (JBool true)
          else if isChar "f" c then scanLiteral (js "false") s pos (JBool false)
          else if isChar "n" c then scanLiteral (js "null") s pos JNull
          else Fail (unexpectedToken c pos)
      end
  end

with parseElements (fuel : nat) (s : jstring) (pos : Z) (acc : list value)
    {struct fuel} : parsed value :=
  match fuel with
  | O => Fail (js "fuel")
  | S fuel' =>
      match parseValue fuel' s pos with
      | Fail m => Fail m
      | Ok v s1 pos1 =>
          let '(s2, pos2) := skipSpace s1 pos1 in
          match s2 with
          | c :: rest =>
              if isChar "," c then parseElements fuel' rest (pos2 + 1)%Z (acc ++ [v])
              else if isChar "]" c then Ok (JArray (acc ++ [v])) rest (pos2 + 1)%Z
              else Fail (atPosition "Expected ',' or ']' after array element in JSON" pos2)
          | [] => Fail (atPosition "Expected ',' or ']' after array element in JSON" pos2)
          end
      end
  end

with parseMembers (fuel : nat) (s : jstring) (pos : Z)
    (acc : list (jstring * value)) {struct fuel} : parsed value :=
  match fuel with
  | O => Fail (js "fuel")
  | S fuel' =>
      let '(s0, pos0) := skipSpace s pos in
      match s0 with
      | q :: afterQuote =>
          if N.eqb q DQUOTE then
            match scanString afterQuote (pos0 + 1) [] with
            | Fail m => Fail m
            | Ok key s1 pos1 =>
                let '(s2, pos2) := skipSpace s1 pos1 in
                match s2 with
                | colon :: s3 =>
                    if isChar ":" colon then
                      match parseValue fuel' s3 (pos2 + 1) with
                      | Fail m => Fail m
                      | Ok v s4 pos4 =>
                          let '(s5, pos5) := skipSpace s4 pos4 in
                          match s5 with
                          | c :: rest =>
                              if isChar "," c
                              then parseMembers fuel' rest (pos5 + 1)%Z (acc ++ [(key, v)])
                              else if isChar "}" c
                              then Ok (JObject (acc ++ [(key, v)])) rest (pos5 + 1)%Z
                              else Fail (atPosition
                                     "Expected ',' or '}' after property value in JSON" pos5)
                          | [] => Fail (atPosition
                                     "Expected ',' or '}' after property value in JSON" pos5)
                          end
                      end
                    else Fail (atPosition "Expected ':' after property name in JSON" pos2)
                | [] => Fail (atPosition "Expected ':' after property name in JSON" pos2)
                end
            end
          else Fail (atPosition "Expected double-quoted property name in JSON" pos0)
      | [] => Fail (atPosition "Expected double-quoted property name in JSON" pos0)
      end
  end.

End Parser.

(** [JSON.parse(text)]: one value, and nothing but white space after it. *)
Definition parse (text : jstring) : jstring + value :=
  match parseValue text (2 * length text + 2) text 0 with
  | Fail m => inl m
  | Ok v rest pos =>
      match skipSpace rest pos with
      | ([], _) => inr v
      | (_ :: _, p) =>
          inl (atPosition "Unexpected non-whitespace character after JSON" p)
      end
  end.

(** *** Numbers

    A number is kept as its numeral.  Its Number value is the double
    nearest to the value of the numeral; [String] and [ToBoolean] are
    those of that double. *)

Local Open Scope Z_scope.

(** A non-negative rational, as a numerator and a positive denominator. *)
Definition ratio : Type := Z * Z.

Definition scale (base : Z) (r : ratio) (e : Z) : ratio :=
  if 0 <=? e then (r.1 * base ^ e, r.2) else (r.1, r.2 * base ^ (- e)).

Definition less (a b : ratio) : bool := a.1 * b.2 <? b.1 * a.2.
Definition atMost (a b : ratio) : bool := a.1 * b.2 <=? b.1 * a.2.

Definition digitsToZ (digits : jstring) : Z :=
  fold_left (fun acc c => 10 * acc + Z.of_N (c - 48)) digits 0.

(** The value of a numeral of the JSON grammar, without its sign. *)
Definition numeralValue (numeral : jstring) : ratio :=
  let unsigned :=
    match numeral with
    | c :: rest => if isChar "-" c then rest else numeral
    | [] => []
    end in
  let integer := takeWhile isDigit unsigned in
  let '(fraction, rest) :=
    match dropWhile isDigit unsigned with
    | c :: rest =>
        if isChar "." c then (takeWhile isDigit rest, dropWhile isDigit rest)
        else ([], c :: rest)
    | [] => ([], [])
    end in
  let exponent :=
    match rest with
    | _ :: c :: digits =>
        if isChar "-" c then - digitsToZ digits
        else if isChar "+" c then digitsToZ digits
        else digitsToZ (c :: digits)
    | _ => 0
    end in
  scale 10 (digitsToZ (integer ++ fraction), 1) (exponent - len fraction).

(** A double that is neither NaN nor negative: [significand * 2 ^ exponent]
    with [significand < 2 ^ 53] and [-1074 <= exponent <= 971], or
    infinity. *)
Inductive double :=
| Finite (significand exponent : Z)
| Infinity.

Definition roundHalfEven (r : ratio) : Z :=
  let quotient := r.1 / r.2 in
  let twice := 2 * (r.1 mod r.2) in
  if twice <? r.2 then quotient
  else if r.2 <? twice then quotient + 1
  else if Z.even quotient then quotient else quotient + 1.

(** The largest [b] with [2 ^ b <= r], for [r] above zero. *)
Definition floorLog2 (r : ratio) : Z :=
  let b := Z.log2 r.1 - Z.log2 r.2 in
  if less r (scale 2 (1, 1) b) then b - 1 else b.

(** The Number value of a rational: the nearest double, a tie going to
    the even significand, and infinity from [2 ^ 1024 - 2 ^ 970] on. *)
Definition toDouble (r : ratio) : double :=
  if r.1 =? 0 then Finite 0 (-1074)
  else
    let exponent := Z.max (floorLog2 r - 52) (-1074) in
    let significand := roundHalfEven (scale 2 r (- exponent)) in
    let '(significand, exponent) :=
      if significand =? 2 ^ 53 then (2 ^ 52, exponent + 1)
      else (significand, exponent) in
    if 971 <? exponent then Infinity else Finite significand exponent.

(** The largest [n] with [10 ^ n <= r], for [r] in the range of the
    doubles above zero. *)
Definition floorLog10 (r : ratio) : Z :=
  let guess := floorLog2 r * 30103 / 100000 in
  if less r (scale 10 (1, 1) guess) then guess - 1
  else if less r (scale 10 (1, 1) (guess + 1)) then guess
  else guess + 1.

(** Whether the rational [v] has the double [significand * 2 ^ exponent]
    for Number value. *)
Definition denotes (significand exponent : Z) (v : ratio) : bool :=
  let high := scale 2 (2 * significand + 1, 1) (exponent - 1) in
  let low :=
    if (significand =? 2 ^ 52) && (-1074 <? exponent)
    then scale 2 (4 * significand - 1, 1) (exponent - 2)
    else scale 2 (2 * significand - 1, 1) (exponent - 1) in
  if Z.even significand then atMost low v && atMost v high
  else less low v && less v high.

Definition floor (r : ratio) : Z := r.1 / r.2.

(** The digits of the shortest decimal that denotes the double [x], which
    is [significand * 2 ^ exponent] and has [10 ^ (n - 1) <= x < 10 ^ n]:
    the pair of [s] and [k] with [s * 10 ^ (n - k)] denoting [x] for the
    least [k], tried from [k] on; of two such [s], the one nearer to [x],
    and the even one when they are as near. *)
Fixpoint shortest (fuel : nat) (significand exponent n k : Z) : Z * Z :=
  let x := scale 10 (scale 2 (significand, 1) exponent) (k - n) in
  let down := floor x in
  let up := down + 1 in
  let denoting (s : Z) := denotes significand exponent (scale 10 (s, 1) (n - k)) in
  let nearer :=
    if less (2 * x.1, x.2) (down + up, 1) then down
    else if less (down + up, 1) (2 * x.1, x.2) then up
    else if Z.even down then down else up in
  match fuel with
  | O => (down, k)
  | S fuel' =>
      match denoting down, denoting up with
      | true, true => (nearer, k)
      | true, false => (down, k)
      | false, true => (up, k)
      | false, false => shortest fuel' significand exponent n (k + 1)
      end
  end.

Definition zeros (n : Z) : jstring := repeat 48%N (Z.to_nat n).

(** [Number::toString] of a finite double above zero (ECMA-262,
    6.1.6.1.20). *)
Definition finiteToString (significand exponent : Z) : jstring :=
  let n0 := floorLog10 (scale 2 (significand, 1) exponent) + 1 in
  let '(s, k) := shortest 17 significand exponent n0 1 in
  (* [up] may be [10 ^ k]: the digit 1, one place higher *)
  let '(s, k, n) := if s =? 10 ^ k then (1, 1, n0 + 1) else (s, k, n0) in
  let digits := decimal (Z.to_N s) in
  if (k <=? n) && (n <=? 21) then digits ++ zeros (n - k)
  else if (0 <? n) && (n <=? 21)
  then take (Z.to_nat n) digits ++ js "." ++ drop (Z.to_nat n) digits
  else if (-6 <? n) && (n <=? 0) then js "0." ++ zeros (- n) ++ digits
  else
    let e := n - 1 in
    let power :=
      js "e" ++ (if e <? 0 then js "-" else js "+") ++ decimal (Z.to_N (Z.abs e)) in
    if k =? 1 then digits ++ power
    else take 1 digits ++ js "." ++ drop 1 digits ++ power.

(** [String(x)] for the Number value [x] of a numeral. *)
Definition numeralToString (numeral : jstring) : jstring :=
  let negative :=
    match numeral with c :: _ => isChar "-" c | [] => false end in
  match toDouble (numeralValue numeral) with
  | Infinity => (if negative then js "-" else []) ++ js "Infinity"
  | Finite significand exponent =>
      if significand =? 0 then js "0"
      else (if negative then js "-" else []) ++ finiteToString significand exponent
  end.

(** [ToBoolean(x)]: false for the two zeros. *)
Definition numeralToBoolean (numeral : jstring) : bool :=
  match toDouble (numeralValue numeral) with
  | Infinity => true
  | Finite significand _ => negb (significand =? 0)
  end.

#[export] Instance engine : Engine := {|
  number := jstring;
  numberToBoolean := numeralToBoolean;
  numberToString := numeralToString;
  JSON_parse := parse
|}.

End V8.

(** ** The structured-response recoverer (llm/anthropic-client.ts)

    [parseResponse], lines 118-320.  The debug records it posts with
    [fetch] (the agent-log regions) do not bear on its result and are
    left out. *)

Module AnthropicClient.

Import Json.

Inductive Priority := High | Medium | Low.

Record ActionItem := { task : jstring; priority : Priority }.

Record DailyBrief := {
  executiveSummary : jstring;
  actionItems : list ActionItem
}.

(** The errors [parseResponse] throws, by throw site.  The [catch] around
    the whole body rethrows each as
    'Failed to parse Anthropic response: ' followed by the message. *)
Inductive Thrown :=
| NoJsonFound                         (* 'No JSON found in Anthropic response' *)
| Truncated (message : jstring)       (* '... (truncated): ' parseError.message *)
| TruncatedNoItems (message : jstring)
      (* '... (truncated, no complete items found): ' parseError.message *)
| Unparseable (message : jstring)     (* 'Failed to parse Anthropic response: ' parseError.message *)
| InvalidStructure                    (* 'Invalid response structure from Anthropic' *)
| TypeError.
      (* the engine's: a property read on null, or [String] of an object
         that has no primitive value *)

(** What [parseResponse] writes to the console. *)
Inductive Console :=
| WarnTruncatedAt (errorPos length : Z)  (* 'JSON appears to be truncated at position ...' *)
| WarnAttempting                         (* 'Attempting to fix truncated JSON ...' *)
| LogFound (n : nat)                     (* 'Found n complete action items before truncation' *)
| LogKept (n : nat)                      (* 'Fixed truncated JSON: kept n complete action items' *)
| LogFixed                               (* 'Successfully fixed truncated JSON' *)
| ErrorFailedToFix (message : jstring).  (* 'Failed to fix JSON: ...' *)

(** [Diverges] stands for a scan loop that has not ended within its
    bound; it is shown below never to be the result. *)
Inductive Completion :=
| Returns (brief : DailyBrief)
| Throws (e : Thrown)
| Diverges.

Record Outcome := { console : list Console; result : Completion }.

(** *** Extraction *)

(** The part of [s] up to and including its last closing brace. *)
Fixpoint upToLastBrace (s : jstring) : option jstring :=
  match s with
  | [] => None
  | c :: rest =>
      match upToLastBrace rest with
      | Some t => Some (c :: t)
      | None => if isChar "}" c then Some [c] else None
      end
  end.

(** [s.match(/\{[\s\S]*\}/)]: the match starts at the first opening brace
    and, the star being greedy, ends at the last closing brace after it. *)
Definition matchObject (s : jstring) : option jstring :=
  match dropWhile (fun c => negb (isChar "{" c)) s with
  | [] => None
  | open :: rest =>
      match upToLastBrace rest with
      | Some t => Some (open :: t)
      | None => None
      end
  end.

(** [s.replace(/fence\s*/g, '')] for a literal [fence]: [skipping] counts
    the code units of a matched fence still to drop, [inSpace] says that
    the white space after a fence is being dropped. *)
Fixpoint removeFence (fence : jstring) (skipping : nat) (inSpace : bool)
    (s : jstring) : jstring :=
  match s with
  | [] => []
  | c :: rest =>
      match skipping with
      | S k => removeFence fence k true rest
      | O =>
          if inSpace && isWhiteSpace c then removeFence fence 0 true rest
          else if startsWith fence s
               then removeFence fence (length fence - 1) true rest
               else c :: removeFence fence 0 false rest
      end
  end.

(** [response.replace(/```json\s*/g, '').replace(/```\s*/g, '')] *)
Definition stripFences (response : jstring) : jstring :=
  removeFence (js "```") 0 false (removeFence (js "```json") 0 false response).

(** Lines 126-133: the match, retried once on the text without fences. *)
Definition extractJson (response : jstring) : option jstring :=
  match matchObject response with
  | Some m => Some m
  | None => matchObject (stripFences response)
  end.

(** *** Lenient normalization *)

(** [\s*[}\]]] matches at the head of [rest]. *)
Definition closes (rest : jstring) : bool :=
  match dropWhile isWhiteSpace rest with
  | c :: _ => isChar "}" c || isChar "]" c
  | [] => false
  end.

(** [s.replace(/,(\s*[}\]])/g, '$1')] *)
Fixpoint removeTrailingCommas (s : jstring) : jstring :=
  match s with
  | [] => []
  | c :: rest =>
      if isChar "," c && closes rest then removeTrailingCommas rest
      else c :: removeTrailingCommas rest
  end.

(** [\s*\n\s*[}\]]] matches at the head of [rest]. *)
Definition closesAfterNewline (rest : jstring) : bool :=
  existsb (N.eqb LF) (takeWhile isWhiteSpace rest) && closes rest.

(** [s.replace(/,(\s*\n\s*[}\]])/g, '$1')] *)
Fixpoint removeTrailingCommasNewline (s : jstring) : jstring :=
  match s with
  | [] => []
  | c :: rest =>
      if isChar "," c && closesAfterNewline rest
      then removeTrailingCommasNewline rest
      else c :: removeTrailingCommasNewline rest
  end.

(** *** The position in the parse error *)

(** [message.match(/position (\d+)/)]: the digits captured. *)
Fixpoint matchPosition (message : jstring) : option jstring :=
  match message with
  | [] => None
  | _ :: rest =>
      if startsWith (js "position ") message then
        match takeWhile isDigit (drop 9 message) with
        | [] => matchPosition rest
        | digits => Some digits
        end
      else matchPosition rest
  end.

(** [parseInt(digits, 10)] on a string of decimal digits.  (A Number is
    exact up to 2^53, beyond any offset into a string.) *)
Definition parseInt (digits : jstring) : Z :=
  fold_left (fun n d => n * 10 + (Z.of_N d - 48))%Z digits 0%Z.

(** [errorPos]: [None] is [null]. *)
Definition errorPosition (message : jstring) : option Z :=
  match matchPosition message with
  | Some digits => Some (parseInt digits)
  | None => None
  end.

(** [errorPos && errorPos >= jsonString.length - 50], line 166: the
    position when the test holds. *)
Definition truncatedAt (errorPos : option Z) (jsonString : jstring) : option Z :=
  match errorPos with
  | Some p =>
      if negb (p =? 0)%Z && (len jsonString - 50 <=? p)%Z then Some p else None
  | None => None
  end.

(** *** The scan for complete action items (lines 178-249) *)

Record Match := { matched : jstring; index : Z }.

(** [/[\s,\n]/.test(c)] *)
Definition isSeparator (c : N) : bool := isWhiteSpace c || isChar "," c.

(** The loop of lines 187-189 on the text from [currentPos] on. *)
Fixpoint skipSeparators (suffix : jstring) (currentPos : Z) : Z :=
  match suffix with
  | [] => currentPos
  | c :: rest =>
      if isSeparator c then skipSeparators rest (currentPos + 1)%Z
      else currentPos
  end.

(** The [for] loop of lines 202-231 over [chars], the code units at
    [i], [i + 1], ...; the value is [objEnd]. *)
Fixpoint matchBrace (chars : jstring) (i braceCount : Z)
    (inString escapeNext : bool) : Z :=
  match chars with
  | [] => (-1)%Z
  | char :: rest =>
      if escapeNext then matchBrace rest (i + 1)%Z braceCount inString false
      else if N.eqb char BACKSLASH
      then matchBrace rest (i + 1)%Z braceCount inString true
      else if N.eqb char DQUOTE
      then matchBrace rest (i + 1)%Z braceCount (negb inString) false
      else if negb inString then
        if isChar "{" char
        then matchBrace rest (i + 1)%Z (braceCount + 1)%Z inString false
        else if isChar "}" char then
          if (braceCount - 1 =? 0)%Z then (i + 1)%Z
          else matchBrace rest (i + 1)%Z (braceCount - 1)%Z inString false
        else matchBrace rest (i + 1)%Z braceCount inString false
      else matchBrace rest (i + 1)%Z braceCount inString false
  end.

(** The code units the [for] loop visits from [currentPos]: those at
    indices below both [jsonString.length] and [errorPos + 100]. *)
Definition scanWindow (jsonString : jstring) (errorPos currentPos : Z) : jstring :=
  take (Z.to_nat (Z.min (len jsonString) (errorPos + 100) - currentPos))
       (drop (Z.to_nat currentPos) jsonString).

Definition findObjectEnd (jsonString : jstring) (errorPos currentPos : Z) : Z :=
  matchBrace (scanWindow jsonString errorPos currentPos) currentPos 0 false false.

(** [objStr.includes('"task"') && objStr.includes('"priority"')] *)
Definition isActionItem (objStr : jstring) : bool :=
  includes (jq "'task'") objStr && includes (jq "'priority'") objStr.

Inductive Step :=
| Continue (currentPos : Z) (matches : list Match)
| Break (matches : list Match).

(** One turn of the [while] loop of line 185, entered at [currentPos]. *)
Definition scanStep (jsonString : jstring) (errorPos currentPos : Z)
    (matches : list Match) : Step :=
  let currentPos :=
    skipSeparators (drop (Z.to_nat currentPos) jsonString) currentPos in
  if (len jsonString <=? currentPos)%Z then Break matches
  else
    match charAt jsonString currentPos with
    | Some c =>
        if isChar "{" c then
          let objStart := currentPos in
          let objEnd := findObjectEnd jsonString errorPos currentPos in
          if (0 <? objEnd)%Z then
            let objStr := substring jsonString objStart objEnd in
            if isActionItem objStr
            then Continue objEnd
                   (matches ++ [{| matched := objStr; index := objStart |}])
            else Continue (currentPos + 1)%Z matches
          else Break matches
        else Continue (currentPos + 1)%Z matches
    | None => Continue (currentPos + 1)%Z matches
    end.

(** The [while] loop, for at most [fuel] turns; [None] when they are
    used up. *)
Fixpoint scanLoop (fuel : nat) (jsonString : jstring) (errorPos currentPos : Z)
    (matches : list Match) : option (list Match) :=
  if (currentPos <? errorPos)%Z && (currentPos <? len jsonString)%Z then
    match fuel with
    | O => None
    | S fuel' =>
        match scanStep jsonString errorPos currentPos matches with
        | Break matches' => Some matches'
        | Continue currentPos' matches' =>
            scanLoop fuel' jsonString errorPos currentPos' matches'
        end
    end
  else Some matches.

(** The scan from the array's content on; one turn per code unit is
    enough, as shown below. *)
Definition scanItems (jsonString : jstring) (errorPos arrayContentStart : Z)
  : option (list Match) :=
  scanLoop (length jsonString) jsonString errorPos arrayContentStart [].

(** [beforeArray + '\n    ' + items + '\n  ]\n}'] *)
Definition fixedJson (jsonString : jstring) (arrayStart : Z)
    (matches : list Match) : jstring :=
  let beforeArray := substring jsonString 0 (arrayStart + 1) in
  let items := join (js "," ++ [LF] ++ js "    ") (map matched matches) in
  beforeArray ++ [LF] ++ js "    " ++ items ++ [LF] ++ js "  ]" ++ [LF] ++ js "}".

(** *** Validation (lines 291-316) *)

Section Recover.

Context {engine : Engine}.

Abbreviation value := (Json.value number).

(** Lines 301-304: [item.priority || 'Medium'], then 'Medium' again unless
    the value is one of the three names. *)
Definition normalizePriority (p : option value) : Priority :=
  let priority := if truthy p then p else Some (JString (js "Medium")) in
  match priority with
  | Some (JString s) =>
      if bool_decide (s = js "High") then High
      else if bool_decide (s = js "Medium") then Medium
      else if bool_decide (s = js "Low") then Low
      else Medium
  | _ => Medium
  end.

(** The function mapped over [parsed.actionItems]: [Some None] is the
    [null] that the filter drops, [None] a TypeError, of the read of
    [item.task] or of [String(item.task)]. *)
Definition normalizeItem (item : value) : option (option ActionItem) :=
  match get item (js "task") with
  | None => None
  | Some t =>
      if negb (truthy t) then Some None
      else
        match t, get item (js "priority") with
        | Some t', Some p =>
            let priority := normalizePriority p in
            match toString t' with
            | Some task => Some (Some {| task := task; priority := priority |})
            | None => None
            end
        | _, _ => None
        end
  end.

(** [.map(...).filter(item => item !== null)] *)
Fixpoint normalizeItems (items : list value) : option (list ActionItem) :=
  match items with
  | [] => Some []
  | item :: rest =>
      match normalizeItem item with
      | None => None
      | Some kept =>
          match normalizeItems rest with
          | None => None
          | Some rest' =>
              Some (match kept with Some a => a :: rest' | None => rest' end)
          end
      end
  end.

Definition validate (parsed : value) : Completion :=
  match get parsed (js "executiveSummary") with
  | None => Throws TypeError
  | Some summary =>
      if negb (truthy summary) then Throws InvalidStructure
      else
        match summary, get parsed (js "actionItems") with
        | Some summary', Some (Some (JArray items)) =>
            match normalizeItems items with
            | None => Throws TypeError
            | Some actionItems =>
                match toString summary' with
                | Some executiveSummary =>
                    Returns {| executiveSummary := executiveSummary;
                               actionItems := actionItems |}
                | None => Throws TypeError
                end
            end
        | _, _ => Throws InvalidStructure
        end
  end.

(** *** Truncation repair (lines 166-275) *)

Definition repair (jsonString message : jstring) (errorPos : Z) : Outcome :=
  let warned := [WarnTruncatedAt errorPos (len jsonString); WarnAttempting] in
  let actionItemsStart := indexOf (jq "'actionItems'") jsonString 0 in
  if (0 <? actionItemsStart)%Z then
    let arrayStart := indexOf (js "[") jsonString actionItemsStart in
    if (0 <? arrayStart)%Z then
      match scanItems jsonString errorPos (arrayStart + 1) with
      | None => {| console := warned; result := Diverges |}
      | Some matches =>
          let found := warned ++ [LogFound (length matches)] in
          if (0 <? length matches)%nat then
            let kept := found ++ [LogKept (length matches)] in
            match JSON_parse (fixedJson jsonString arrayStart matches) with
            | inr parsed =>
                {| console := kept ++ [LogFixed]; result := validate parsed |}
            | inl e =>
                {| console := kept ++ [ErrorFailedToFix e];
                   result := Throws (Truncated message) |}
            end
          else {| console := found; result := Throws (TruncatedNoItems message) |}
      end
    else {| console := warned; result := Throws (Truncated message) |}
  else {| console := warned; result := Throws (Truncated message) |}.

(** *** The second attempt (lines 277-287) *)

Definition retry (jsonString message : jstring) : Outcome :=
  let jsonString' :=
    removeTrailingCommasNewline (removeTrailingCommas jsonString) in
  match JSON_parse jsonString' with
  | inr parsed => {| console := []; result := validate parsed |}
  | inl _ => {| console := []; result := Throws (Unparseable message) |}
  end.

(** *** [parseResponse] *)

Definition parseResponse (response : jstring) : Outcome :=
  match extractJson response with
  | None => {| console := []; result := Throws NoJsonFound |}
  | Some jsonMatch =>
      let jsonString := removeTrailingCommas jsonMatch in
      match JSON_parse jsonString with
      | inr parsed => {| console := []; result := validate parsed |}
      | inl message =>
          match truncatedAt (errorPosition message) jsonString with
          | Some errorPos => repair jsonString message errorPos
          | None => retry jsonString message
          end
      end
  end.

End Recover.

End AnthropicClient.

(** ** The notions of the specification

    Definitions worded after the design document, to compare the code
    with. *)

Module Spec.

Import Json AnthropicClient.

(** The line-normalized content of a body: the set of its trimmed lines
    that are not empty. *)
Definition lineSet (body : jstring) : gset jstring :=
  list_to_set
    (List.filter (fun line => (0 <? len line)%Z) (map trim (splitLines body))).

(** A line is new against a snapshot body when, trimmed, it is not empty
    and not a line of the snapshot. *)
Definition isNewLine (previousBody line : jstring) : bool :=
  (0 <? len (trim line))%Z && negb (bool_decide (trim line ∈ lineSet previousBody)).

(** Stage 1: the first top-level span of balanced braces, counted with
    quoted strings and escapes respected. *)
Definition firstBalancedSpan (raw : jstring) : option jstring :=
  let start := indexOf (js "{") raw 0 in
  if (start <? 0)%Z then None
  else
    let stop := matchBrace (drop (Z.to_nat start) raw) start 0 false false in
    if (0 <? stop)%Z then Some (substring raw start stop) else None.

(** [cur] put in front of the first of [lines]. *)
Definition prepend (cur : jstring) (lines : list jstring) : list jstring :=
  match lines with
  | [] => [cur]
  | l :: ls => (cur ++ l) :: ls
  end.

Definition hasClose (s : jstring) : bool := existsb (isChar "}") s.

(** An opening brace with a closing brace somewhere after it. *)
Fixpoint hasSpan (s : jstring) : bool :=
  match s with
  | [] => false
  | c :: rest => if isChar "{" c then hasClose rest else hasSpan rest
  end.

(** An accepted match is the text from an opening brace to where the
    brace counter closes it, and holds both key names. *)
Definition accepted (jsonString : jstring) (errorPos : Z) (m : Match) : Prop :=
  (∃ c, charAt jsonString (index m) = Some c ∧ isChar "{" c = true)
  ∧ (index m < findObjectEnd jsonString errorPos (index m))%Z
  ∧ matched m
    = substring jsonString (index m) (findObjectEnd jsonString errorPos (index m))
  ∧ includes (jq "'task'") (matched m) = true
  ∧ includes (jq "'priority'") (matched m) = true.

Definition priorityName (p : Priority) : jstring :=
  match p with
  | High => js "High"
  | Medium => js "Medium"
  | Low => js "Low"
  end.

(** The compact JSON text of a brief, as a serializer prints it: a
    string between double quotes, with the double quote and the backslash
    escaped and the control characters written in hexadecimal. *)

Definition hexDigit (n : N) : N := (if n <? 10 then 48 + n else 87 + n)%N.

Definition escapeChar (c : N) : jstring :=
  if N.eqb c DQUOTE then [BACKSLASH; DQUOTE]
  else if N.eqb c BACKSLASH then [BACKSLASH; BACKSLASH]
  else if (c <? 32)%N
       then [BACKSLASH; 117%N; 48%N; 48%N; hexDigit (c / 16); hexDigit (c mod 16)]
       else [c].

Definition quote (s : jstring) : jstring :=
  [DQUOTE] ++ flat_map escapeChar s ++ [DQUOTE].

Definition itemValue (a : ActionItem) : V8.value :=
  JObject [(js "task", JString (task a));
           (js "priority", JString (priorityName (priority a)))].

Definition briefValue (b : DailyBrief) : V8.value :=
  JObject [(js "executiveSummary", JString (executiveSummary b));
           (js "actionItems", JArray (map itemValue (actionItems b)))].

Definition stringifyItem (a : ActionItem) : jstring :=
  jq "{'task':" ++ quote (task a) ++ jq ",'priority':"
  ++ quote (priorityName (priority a)) ++ js "}".

Definition stringify (b : DailyBrief) : jstring :=
  jq "{'executiveSummary':" ++ quote (executiveSummary b)
  ++ jq ",'actionItems':[" ++ join (js ",") (map stringifyItem (actionItems b))
  ++ js "]}".

(** No comma among the code units of [s]. *)
Definition commaFree (s : jstring) : Prop := Forall (fun c => isChar "," c = false) s.

Section Items.

Context {engine : Engine}.

(** What becomes of one element of the items array that is not [null]:
    nothing when it has no truthy [task], else one action item, whose
    task is the text the task converts to; [None] when the task converts
    to no text. *)
Definition sanitizeItem (item : Json.value number) : option (list ActionItem) :=
  match item with
  | JObject members =>
      match lookupLast (js "task") members with
      | Some t =>
          if truthy (Some t)
          then
            text ← toString t;
            Some [{| task := text;
                     priority := normalizePriority (lookupLast (js "priority") members) |}]
          else Some []
      | None => Some []
      end
  | _ => Some []
  end.

(** The brief of a summary and an array of items none of which is
    [null]: [None] when the summary or a task converts to no text. *)
Definition sanitized (summary : Json.value number) (items : list (Json.value number))
  : option DailyBrief :=
  kept ← mapM sanitizeItem items;
  text ← toString summary;
  Some {| executiveSummary := text; actionItems := concat kept |}.

(** The value [item] is an object that carries the task and the priority
    of [a]. *)
Definition carries (item : Json.value number) (a : ActionItem) : Prop :=
  ∃ members,
    item = JObject members
    ∧ lookupLast (js "task") members = Some (JString (task a))
    ∧ lookupLast (js "priority") members
      = Some (JString (priorityName (priority a))).

End Items.

End Spec.

(** ** Inputs for the examples *)

Module Examples.

Import NoteSnapshotStore NoteProcessor.

Definition snapshotA : NoteSnapshot :=
  {| NoteSnapshotStore.name := js "A";
     NoteSnapshotStore.body := js "line1" ++ [LF] ++ js "line2";
     NoteSnapshotStore.modificationDate := js "2026-01-01T00:00:00.000Z" |}.

Definition noteA : Note :=
  {| name := js "A";
     body := js "line1" ++ [LF] ++ js "line2" ++ [LF] ++ js "line3";
     modificationDate := 0 |}.

(** The note of [snapshotA] with its two lines indented or followed by
    blanks, one of them ended by a carriage return and line feed, and a
    third line added. *)
Definition indentedA : Note :=
  {| name := js "A";
     body := js "  line1" ++ [9%N; CR; LF] ++ js "line2  " ++ [LF] ++ js "  line3 ";
     modificationDate := 0 |}.

Definition unchangedA : Note :=
  {| name := js "A";
     body := js "line2" ++ [CR; LF] ++ js "  line1  ";
     modificationDate := 0 |}.

(** A response with a wrong-shape object before a well-shaped one, and an
    error in its last object. *)
Definition wrongShapeFirst : jstring :=
  jq "{'executiveSummary':'s','actionItems':[{'x':1},{'task':'a','priority':'High'},{'task':'b','pri'}".

(** A response whose items come first and whose summary is lost with the
    tail. *)
Definition summaryLost : jstring :=
  jq "{'actionItems':[{'task':'a','priority':'High'} x}".

End Examples.

(** ** The time of the last run (storage/timestamp-store.ts) *)

Module TimestampStore.

(** A [Date]: its time value in milliseconds, or Invalid Date, whose time
    value is [NaN]. *)
Inductive Date :=
| Time (t : Z)
| InvalidDate.

(** What [readFile], [JSON.parse] and [new Date(parsed.lastRun)] make of
    the file: whatever [lastRun] holds, the constructor yields a Date,
    valid or not. *)
Inductive File :=
| Missing                         (* ENOENT: first run *)
| Unreadable (message : jstring)  (* any other failure of the three *)
| Stored (lastRun : Date).

Inductive Thrown :=
| ReadError (message : jstring)    (* 'Failed to read timestamp store: ...' *)
| WriteError (message : jstring).  (* 'Failed to write timestamp store: ...' *)

(** Whether [mkdir] and [writeFile] succeed. *)
Inductive Disk :=
| Writable
| Failing (message : jstring).

(** [getLastRun]: [None] is [null]. *)
Definition getLastRun (f : File) : Thrown + option Date :=
  match f with
  | Missing => inr None
  | Unreadable message => inl (ReadError message)
  | Stored lastRun => inr (Some lastRun)
  end.

(** [updateLastRun(timestamp)]: the file it leaves, as [getLastRun] will
    read it.  The text written is [timestamp.toISOString()], which
    [new Date] reads back to the same time value. *)
Definition updateLastRun (disk : Disk) (timestamp : Z) : Thrown + File :=
  match disk with
  | Writable => inr (Stored (Time timestamp))
  | Failing message => inl (WriteError message)
  end.

(** [a > b] on two Dates compares their time values; a comparison with
    [NaN] is false. *)
Definition greaterThan (a b : Date) : bool :=
  match a, b with
  | Time x, Time y => (y <? x)%Z
  | _, _ => false
  end.

Section Clock.

(** The time value of a valid Date after [d.setHours(d.getHours() - 24)]:
    the same wall-clock time one day earlier, in the host's time zone. *)
Variable minus24Hours : Z -> Z.

Definition setHoursBack (d : Date) : Date :=
  match d with
  | Time t => Time (minus24Hours t)
  | InvalidDate => InvalidDate
  end.

(** [getCutoffDate], called at the time [now]. *)
Definition getCutoffDate (f : File) (now : Z) : Thrown + Date :=
  match getLastRun f with
  | inl e => inl e
  | inr lastRun =>
      let twentyFourHoursAgo := setHoursBack (Time now) in
      match lastRun with
      | None => inr twentyFourHoursAgo
      | Some lastRun =>
          let cutoffFromLastRun := setHoursBack lastRun in
          inr (if greaterThan cutoffFromLastRun twentyFourHoursAgo
               then cutoffFromLastRun else twentyFourHoursAgo)
      end
  end.

End Clock.

End TimestampStore.

(** ** Writing the snapshots (storage/note-snapshot-store.ts, [saveSnapshots]) *)

Module Snapshots.

Import NoteSnapshotStore.

(** Whether [mkdir] and [writeFile] succeed. *)
Inductive Disk :=
| Writable
| Failing (message : jstring).

Inductive Thrown :=
| WriteError (message : jstring).  (* 'Failed to write note snapshots: ...' *)

(** [snapshots.notes[note.name] = note] on an object created by a literal:
    the assignment defines or overwrites an own property, except under the
    name [__proto__], where it runs the setter inherited from
    [Object.prototype]; that replaces the prototype of [snapshots.notes]
    and defines no own property, so [JSON.stringify] writes nothing for
    it. *)
Definition assign (notes : gmap jstring NoteSnapshot) (note : NoteSnapshot)
  : gmap jstring NoteSnapshot :=
  if bool_decide (name note = js "__proto__") then notes
  else <[name note := note]> notes.

(** The loop of lines 52-54. *)
Definition indexByName (notes : list NoteSnapshot) : gmap jstring NoteSnapshot :=
  fold_left assign notes ∅.

Section Save.

(** [Date.prototype.toISOString] *)
Variable toISOString : Z -> jstring.

(** [saveSnapshots(notes, timestamp)]: the snapshot file it leaves, as
    [getSnapshots] will read it. *)
Definition saveSnapshots (disk : Disk) (notes : list NoteSnapshot) (timestamp : Z)
  : Thrown + File :=
  let snapshots := Stored (toISOString timestamp) (indexByName notes) in
  match disk with
  | Writable => inr snapshots
  | Failing message => inl (WriteError message)
  end.

End Save.

End Snapshots.

(** ** Selecting the notes (processor/note-processor.ts, [processNotes]) *)

Module Pipeline.

Import NoteSnapshotStore NoteProcessor TimestampStore.

Record ProcessedNotes := {
  notes : list Note;
  aggregatedContent : jstring;
  cutoffDate : Date
}.

(** What [processNotes] throws: the errors of the stores it reads, and
    the RangeError of [cutoffDate.toISOString()] on an Invalid Date, in
    the first line it logs. *)
Inductive Thrown :=
| CutoffError (e : TimestampStore.Thrown)
| InvalidTimeValue
| SnapshotError (e : NoteSnapshotStore.Thrown).

(** [note.modificationDate >= cutoffDate]: a comparison of time values,
    false against Invalid Date. *)
Definition modifiedSince (cutoffDate : Date) (note : Note) : bool :=
  match cutoffDate with
  | Time cutoff => (cutoff <=? modificationDate note)%Z
  | InvalidDate => false
  end.

(** [filteredNotes.sort((a, b) => b.modificationDate.getTime() -
    a.modificationDate.getTime())].  [Array.prototype.sort] is stable
    (ECMAScript 2019), so the result is determined: descending time
    values, notes of equal time in their order in the array.  It is
    computed here by insertion from the right, a note going in front of
    the notes that are not newer than it. *)
Fixpoint insertNote (note : Note) (sorted : list Note) : list Note :=
  match sorted with
  | [] => [note]
  | n :: rest =>
      if (modificationDate note <? modificationDate n)%Z
      then n :: insertNote note rest
      else note :: sorted
  end.

Definition sortNewestFirst (notes : list Note) : list Note :=
  foldr insertNote [] notes.

Section Process.

Variable toLocaleString : Z -> jstring.

(** [processNotes(allNotes)]: [getCutoffDate] is what the timestamp store
    passed to the constructor answers, [snapshots] the snapshot file.  Of
    what it logs, only the cutoff in ISO format bears on the result. *)
Definition processNotes (getCutoffDate : TimestampStore.Thrown + Date)
    (snapshots : NoteSnapshotStore.File) (allNotes : list Note)
  : Thrown + ProcessedNotes :=
  match getCutoffDate with
  | inl e => inl (CutoffError e)
  | inr InvalidDate => inl InvalidTimeValue
  | inr cutoffDate =>
      let filteredNotes :=
        sortNewestFirst (List.filter (modifiedSince cutoffDate) allNotes) in
      match aggregateContent toLocaleString snapshots filteredNotes with
      | inl e => inl (SnapshotError e)
      | inr aggregatedContent =>
          inr {| notes := filteredNotes;
                 aggregatedContent := aggregatedContent;
                 cutoffDate := cutoffDate |}
      end
  end.

End Process.

(** [getFilteredNoteCount(allNotes)] *)
Definition getFilteredNoteCount (getCutoffDate : TimestampStore.Thrown + Date)
    (allNotes : list Note) : Thrown + Z :=
  match getCutoffDate with
  | inl e => inl (CutoffError e)
  | inr cutoffDate => inr (Z.of_nat (length (List.filter (modifiedSince cutoffDate) allNotes)))
  end.

End Pipeline.

(** ** The daily run (scheduler/cron-scheduler.ts, [executeDailyBrief]) *)

Module CronScheduler.

Import NoteProcessor NoteSnapshotStore AnthropicClient.

(** The two files the run reads and writes. *)
Record Stores := {
  lastRunFile : TimestampStore.File;
  snapshotFile : NoteSnapshotStore.File
}.

(** The calls the run makes to the services it is configured with. *)
Inductive Call :=
| GenerateBrief (content : jstring)          (* llmService.generateBrief *)
| WriteDailyBrief (brief : DailyBrief)       (* fileWriter.writeDailyBrief *)
| PostDailyBrief (brief : DailyBrief)        (* slackWriter.postDailyBrief *)
| CreateDailyBriefNote (brief : DailyBrief). (* notesWriter.createDailyBriefNote *)

(** What the run meets: the notes in Apple Notes, the clock at the three
    places it is read, the disk, and how each service answers ([None] and
    [false]: it throws). *)
Record Host := {
  extractNotes : option (list Note);
  cutoffTime : Z;      (* [new Date()] in [getCutoffDate] *)
  snapshotTime : Z;    (* [new Date()] of step 7, passed to [saveSnapshots] *)
  lastRunTime : Z;     (* [new Date()] in [updateLastRun] *)
  snapshotDisk : Snapshots.Disk;
  lastRunDisk : TimestampStore.Disk;
  generateBrief : jstring -> option DailyBrief;
  writeDailyBrief : DailyBrief -> bool;
  postDailyBrief : DailyBrief -> bool;
  createDailyBriefNote : DailyBrief -> bool
}.

(** [host] with another answer of Slack. *)
Definition withPostDailyBrief (host : Host) (answer : DailyBrief -> bool) : Host :=
  {| extractNotes := extractNotes host;
     cutoffTime := cutoffTime host;
     snapshotTime := snapshotTime host;
     lastRunTime := lastRunTime host;
     snapshotDisk := snapshotDisk host;
     lastRunDisk := lastRunDisk host;
     generateBrief := generateBrief host;
     writeDailyBrief := writeDailyBrief host;
     postDailyBrief := answer;
     createDailyBriefNote := createDailyBriefNote host |}.

Record SchedulerConfig := {
  slackWriter : bool;      (* a SlackWriter is configured *)
  notesWriter : bool;      (* a NotesWriter is configured *)
  createAppleNote : bool
}.

(** A step of the run: from the stores, the stores after it, the calls
    made, and its value, [None] when it threw. *)
Definition M (A : Type) : Type := Stores -> Stores * list Call * option A.

Definition ret {A : Type} (a : A) : M A := fun s => (s, [], Some a).

Definition bind {A B : Type} (m : M A) (k : A -> M B) : M B :=
  fun s =>
    match m s with
    | (s', calls, Some a) =>
        match k a s' with
        | (s'', calls', b) => (s'', calls ++ calls', b)
        end
    | (s', calls, None) => (s', calls, None)
    end.

(** [try { m } catch { handler }] *)
Definition try {A : Type} (m : M A) (handler : M A) : M A :=
  fun s =>
    match m s with
    | (s', calls, None) =>
        match handler s' with
        | (s'', calls', b) => (s'', calls ++ calls', b)
        end
    | returned => returned
    end.

Definition lift {A : Type} (answer : option A) : M A := fun s => (s, [], answer).

Definition call {A : Type} (c : Call) (answer : option A) : M A :=
  fun s => (s, [c], answer).

Definition succeeds (ok : bool) : option unit := if ok then Some tt else None.

Notation "'let*' x := m 'in' k" := (bind m (fun x => k))
  (at level 10, x name, m at level 100, k at level 200).

Section Run.

Variable minus24Hours : Z -> Z.
Variable toLocaleString : Z -> jstring.
Variable toISOString : Z -> jstring.

Variable config : SchedulerConfig.
Variable host : Host.

(** [processor.processNotes(allNotes)], on the two stores. *)
Definition processNotes (allNotes : list Note) : M Pipeline.ProcessedNotes :=
  fun s =>
    match Pipeline.processNotes toLocaleString
            (TimestampStore.getCutoffDate minus24Hours (lastRunFile s) (cutoffTime host))
            (snapshotFile s) allNotes with
    | inl _ => (s, [], None)
    | inr processed => (s, [], Some processed)
    end.

(** [timestampStore.updateLastRun()] *)
Definition updateLastRun : M unit :=
  fun s =>
    match TimestampStore.updateLastRun (lastRunDisk host) (lastRunTime host) with
    | inl _ => (s, [], None)
    | inr file => ({| lastRunFile := file; snapshotFile := snapshotFile s |}, [], Some tt)
    end.

(** [snapshotStore.saveSnapshots(snapshotData, now)] *)
Definition saveSnapshots (snapshotData : list NoteSnapshot) : M unit :=
  fun s =>
    match Snapshots.saveSnapshots toISOString (snapshotDisk host) snapshotData
            (snapshotTime host) with
    | inl _ => (s, [], None)
    | inr file => ({| lastRunFile := lastRunFile s; snapshotFile := file |}, [], Some tt)
    end.

(** [snapshotData], step 7. *)
Definition snapshotData (allNotes : list Note) : list NoteSnapshot :=
  map (fun note =>
         {| NoteSnapshotStore.name := NoteProcessor.name note;
            NoteSnapshotStore.body := NoteProcessor.body note;
            NoteSnapshotStore.modificationDate :=
              toISOString (NoteProcessor.modificationDate note) |})
      allNotes.

Definition executeDailyBrief : M unit :=
  try
    (let* allNotes := lift (extractNotes host) in
     let* processed := processNotes allNotes in
     if (length (Pipeline.notes processed) =? 0)%nat then
       (* 'No notes to process. Skipping LLM call.' *)
       updateLastRun
     else
       let* brief := call (GenerateBrief (Pipeline.aggregatedContent processed))
                       (generateBrief host (Pipeline.aggregatedContent processed)) in
       let* _ := call (WriteDailyBrief brief) (succeeds (writeDailyBrief host brief)) in
       let* _ := (if slackWriter config
                  then try (call (PostDailyBrief brief)
                              (succeeds (postDailyBrief host brief)))
                           (ret tt)
                  else ret tt) in
       let* _ := (if createAppleNote config && notesWriter config
                  then call (CreateDailyBriefNote brief)
                         (succeeds (createDailyBriefNote host brief))
                  else ret tt) in
       let* _ := saveSnapshots (snapshotData allNotes) in
       updateLastRun)
    (* 'Error during daily brief generation': logged, not rethrown *)
    (ret tt).

End Run.

End CronScheduler.

(** ** The prompt (llm/anthropic-client.ts, [generateBrief] and [buildPrompt]) *)

Module Prompt.

Definition maxChars : Z := 200000.

(** Lines 35-37 of [generateBrief]. *)
Definition truncatedContent (content : jstring) : jstring :=
  if (maxChars <? len content)%Z
  then substring content 0 maxChars
       ++ [LF; LF] ++ js "[Content truncated due to length]"
  else content.

(** The lines of the template of [buildPrompt] before the content. *)
Definition instructions : list jstring :=
  [ js "You are a high-level Chief of Staff. Below is a raw dump of notes taken in the last 24 hours. Synthesize this into:";
    [];
    js "1. Executive Summary: 3-5 sentences on the day's main themes and key events.";
    [];
    js "2. Action Items: A checklist of concrete tasks extracted from the text, each with a priority level (High, Medium, or Low).";
    [];
    jq "IMPORTANT: For each action item, format it as '[Party/Topic]: [Action item]'. Start with the involved party (person"
    ++ js "'s name, team, or topic) followed by a colon, then the specific action to be done.";
    [];
    js "Examples:";
    jq "- 'Ben: Schedule follow-up meeting to discuss Q1 goals'";
    jq "- 'Product Team: Review and approve the new feature specification'";
    jq "- 'Recruitment: Kick off process for locomotive operator role'";
    [];
    js "CRITICAL: You MUST respond with valid JSON only. Do not include any markdown code blocks, explanations, or text outside the JSON object. The response must be parseable JSON.";
    [];
    js "Respond with ONLY this JSON structure (no other text):";
    js "{";
    jq "  'executiveSummary': 'Your 3-5 sentence summary here',";
    jq "  'actionItems': [";
    js "    {";
    jq "      'task': 'Party/Topic: Action item description',";
    jq "      'priority': 'High'";
    js "    }";
    js "  ]";
    js "}";
    [];
    js "Ensure all strings are properly escaped, all arrays are properly closed, and there are no trailing commas.";
    [];
    js "Notes from the last 24 hours:" ].

Definition buildPrompt (content : jstring) : jstring :=
  join [LF] instructions ++ [LF] ++ content.

(** [this.buildPrompt(truncatedContent)], the text sent to the model. *)
Definition prompt (content : jstring) : jstring :=
  buildPrompt (truncatedContent content).

End Prompt.

(** ** The writers (output/file-writer.ts, output/notes-writer.ts) *)

Module Writers.

Import AnthropicClient.

Definition APOSTROPHE : N := 39.
Definition BULLET : N := 8226.

(** [String(n)] and [`${n}`] for a Number that holds an integer. *)
Definition numberToString (n : Z) : jstring :=
  if (n <? 0)%Z then js "-" ++ decimal (Z.to_N (- n)) else decimal (Z.to_N n).

(** [s.padStart(targetLength, padString)] for a [padString] of one code
    unit. *)
Definition padStart (targetLength : Z) (padString : N) (s : jstring) : jstring :=
  repeat padString (Z.to_nat (targetLength - len s)) ++ s.

(** [text.replace(/c/g, replacement)] for a pattern of one code unit and a
    replacement without [$]. *)
Definition replaceAll (c : N) (replacement : jstring) (text : jstring) : jstring :=
  flat_map (fun d => if N.eqb d c then replacement else [d]) text.

(** [brief.actionItems.filter(item => item.priority === p)] *)
Definition withPriority (p : Priority) (items : list ActionItem) : list ActionItem :=
  List.filter
    (fun item =>
       match priority item, p with
       | High, High | Medium, Medium | Low, Low => true
       | _, _ => false
       end)
    items.

(** [NotesWriter.escapeForAppleScript(text)] *)
Definition escapeForAppleScript (text : jstring) : jstring :=
  replaceAll CR [BACKSLASH; 114%N]
    (replaceAll LF [BACKSLASH; 110%N]
       (replaceAll DQUOTE [BACKSLASH; DQUOTE]
          (replaceAll BACKSLASH [BACKSLASH; BACKSLASH] text))).

(** The script of [createDailyBriefNote], lines 20-26, and the shell
    command of line 29. *)
Definition appleScript (escapedTitle escapedContent : jstring) : jstring :=
  [LF] ++ jq "      tell application 'Notes'" ++ [LF]
  ++ jq "        tell account 'iCloud'" ++ [LF]
  ++ jq "          make new note at folder 'Notes' with properties {name: '"
  ++ escapedTitle ++ jq "', body: '" ++ escapedContent ++ jq "'}" ++ [LF]
  ++ js "        end tell" ++ [LF]
  ++ js "      end tell" ++ [LF]
  ++ js "    ".

(** The script of the second attempt, lines 33-37. *)
Definition fallbackScript (escapedTitle escapedContent : jstring) : jstring :=
  [LF] ++ jq "          tell application 'Notes'" ++ [LF]
  ++ jq "            make new note with properties {name: '"
  ++ escapedTitle ++ jq "', body: '" ++ escapedContent ++ jq "'}" ++ [LF]
  ++ js "          end tell" ++ [LF]
  ++ js "        ".

(** [`osascript -e '${script}'`] *)
Definition osascript (script : jstring) : jstring :=
  js "osascript -e " ++ [APOSTROPHE] ++ script ++ [APOSTROPHE].

Section Dates.

(** The fields of a Date in the host's time zone, and its renderings in
    the host's locale. *)
Variable getFullYear : Z -> Z.
Variable getMonth : Z -> Z.
Variable getDate : Z -> Z.
Variable toLocaleDateString : Z -> jstring.
Variable toLocaleString : Z -> jstring.

(** [formatDate(date)], the same in the three writers. *)
Definition formatDate (date : Z) : jstring :=
  let year := getFullYear date in
  let month := padStart 2 48 (numberToString (getMonth date + 1)) in
  let day := padStart 2 48 (numberToString (getDate date)) in
  numberToString year ++ js "-" ++ month ++ js "-" ++ day.

(** The name of the file [writeDailyBrief] writes. *)
Definition filename (date : Z) : jstring :=
  js "Daily_Summary_" ++ formatDate date ++ js ".md".

(** [FileWriter.generateMarkdown(brief, date)], at the time [now]. *)
Definition generateMarkdown (brief : DailyBrief) (date now : Z) : jstring :=
  let dateStr := toLocaleDateString date in
  let markdown := js "# Daily Brief - " ++ dateStr ++ [LF; LF] in
  let markdown := markdown ++ js "*Generated on " ++ toLocaleString now ++ js "*" ++ [LF; LF] in
  let markdown := markdown ++ js "---" ++ [LF; LF] in
  let markdown := markdown ++ js "## Executive Summary" ++ [LF; LF] in
  let markdown := markdown ++ executiveSummary brief ++ [LF; LF] in
  let markdown := markdown ++ js "---" ++ [LF; LF] in
  let markdown := markdown ++ js "## Action Items" ++ [LF; LF] in
  if (length (actionItems brief) =? 0)%nat then
    markdown ++ js "*No action items identified.*" ++ [LF]
  else
    let highPriority := withPriority High (actionItems brief) in
    let mediumPriority := withPriority Medium (actionItems brief) in
    let lowPriority := withPriority Low (actionItems brief) in
    let markdown :=
      if (0 <? length highPriority)%nat then
        let markdown := markdown ++ js "### High Priority" ++ [LF; LF] in
        let markdown :=
          fold_left
            (fun markdown item =>
               markdown ++ js "- [ ] **" ++ task item ++ js "**" ++ [LF])
            highPriority markdown in
        markdown ++ [LF]
      else markdown in
    let markdown :=
      if (0 <? length mediumPriority)%nat then
        let markdown := markdown ++ js "### Medium Priority" ++ [LF; LF] in
        let markdown :=
          fold_left
            (fun markdown item => markdown ++ js "- [ ] " ++ task item ++ [LF])
            mediumPriority markdown in
        markdown ++ [LF]
      else markdown in
    let markdown :=
      if (0 <? length lowPriority)%nat then
        let markdown := markdown ++ js "### Low Priority" ++ [LF; LF] in
        let markdown :=
          fold_left
            (fun markdown item => markdown ++ js "- [ ] " ++ task item ++ [LF])
            lowPriority markdown in
        markdown ++ [LF]
      else markdown in
    markdown.

(** [NotesWriter.formatNoteContent(brief, date)], at the time [now]. *)
Definition formatNoteContent (brief : DailyBrief) (date now : Z) : jstring :=
  let dateStr := toLocaleDateString date in
  let content := js "Daily Brief - " ++ dateStr ++ [LF; LF] in
  let content := content ++ js "Generated on " ++ toLocaleString now ++ [LF; LF] in
  let content := content ++ js "---" ++ [LF; LF] in
  let content := content ++ js "EXECUTIVE SUMMARY" ++ [LF; LF] in
  let content := content ++ executiveSummary brief ++ [LF; LF] in
  let content := content ++ js "---" ++ [LF; LF] in
  let content := content ++ js "ACTION ITEMS" ++ [LF; LF] in
  if (length (actionItems brief) =? 0)%nat then
    content ++ js "No action items identified." ++ [LF]
  else
    let highPriority := withPriority High (actionItems brief) in
    let mediumPriority := withPriority Medium (actionItems brief) in
    let lowPriority := withPriority Low (actionItems brief) in
    let content :=
      if (0 <? length highPriority)%nat then
        let content := content ++ js "HIGH PRIORITY:" ++ [LF] in
        let content :=
          fold_left
            (fun content item => content ++ [BULLET] ++ js " " ++ task item ++ [LF])
            highPriority content in
        content ++ [LF]
      else content in
    let content :=
      if (0 <? length mediumPriority)%nat then
        let content := content ++ js "MEDIUM PRIORITY:" ++ [LF] in
        let content :=
          fold_left
            (fun content item => content ++ [BULLET] ++ js " " ++ task item ++ [LF])
            mediumPriority content in
        content ++ [LF]
      else content in
    let content :=
      if (0 <? length lowPriority)%nat then
        let content := content ++ js "LOW PRIORITY:" ++ [LF] in
        let content :=
          fold_left
            (fun content item => content ++ [BULLET] ++ js " " ++ task item ++ [LF])
            lowPriority content in
        content ++ [LF]
      else content in
    content.

(** [NotesWriter.createDailyBriefNote(brief, date)], at the time [now]:
    the shell commands it runs, each answered by [exec] ([false]: the
    command fails), and whether it returns ([false]: it throws 'Failed to
    create Apple Note'). *)
Definition createDailyBriefNote (exec : jstring -> bool) (brief : DailyBrief)
    (date now : Z) : list jstring * bool :=
  let dateStr := formatDate date in
  let title := js "Daily Brief: " ++ dateStr in
  let content := formatNoteContent brief date now in
  let escapedTitle := escapeForAppleScript title in
  let escapedContent := escapeForAppleScript content in
  let command := osascript (appleScript escapedTitle escapedContent) in
  if exec command then ([command], true)
  else
    let fallback := osascript (fallbackScript escapedTitle escapedContent) in
    if exec fallback then ([command; fallback], true)
    else ([command; fallback], false).

End Dates.

End Writers.

(** ** The extraction service (api/server.ts, the handler of
    [POST /api/extract-notes]) *)

Module ApiServer.

Import NoteProcessor NoteSnapshotStore.

(** [StoredNotesData], as it is written to the Gist and read back. *)
Record StoredNotesData := {
  notes : list NoteSnapshot;             (* dates in ISO format *)
  aggregatedContent : option jstring;    (* [None]: the field is absent *)
  snapshots : gmap jstring NoteSnapshot;
  timestamp : jstring;
  cutoffDate : jstring;
  lastRun : option jstring               (* [None] is [null] *)
}.

(** What the handler answers. *)
Inductive Response :=
| Unauthorized                               (* 401, 'Invalid or missing API key' *)
| InternalError                              (* 500, the message of the error caught *)
| Extracted (notesCount : Z) (timestamp : jstring).  (* 200 *)

(** The two local files and the Gist. *)
Record State := {
  lastRunFile : TimestampStore.File;
  snapshotFile : NoteSnapshotStore.File;
  gist : option StoredNotesData
}.

(** What the handler meets: the notes in Apple Notes, the clock where it
    is read, and whether the Gist and the disk take what is written. *)
Record Host := {
  extractNotes : option (list Note);
  cutoffTime : Z;       (* [new Date()] in [getCutoffDate] *)
  storedTime : Z;       (* [new Date()] of [storedData.timestamp] *)
  snapshotTime : Z;     (* [new Date()] passed to [saveSnapshots] *)
  lastRunTime : Z;      (* [new Date()] in [updateLastRun] *)
  saveNotes : bool;     (* [cloudStorage.saveNotes] succeeds *)
  snapshotDisk : Snapshots.Disk;
  lastRunDisk : TimestampStore.Disk
}.

(** [!requestData.apiKey || requestData.apiKey !== this.config.apiKey] is
    false: the body holds, under [apiKey], a string that is not empty and
    is the configured key.  [None]: no string there. *)
Definition authenticated (configured : jstring) (presented : option jstring) : bool :=
  match presented with
  | Some key => (0 <? len key)%Z && bool_decide (key = configured)
  | None => false
  end.

Section Handler.

Variable minus24Hours : Z -> Z.
Variable toLocaleString : Z -> jstring.
Variable toISOString : Z -> jstring.

(** [date.toISOString()]; [None]: the RangeError it throws on an Invalid
    Date. *)
Definition toISO (date : TimestampStore.Date) : option jstring :=
  match date with
  | TimestampStore.Time t => Some (toISOString t)
  | TimestampStore.InvalidDate => None
  end.

(** [lastRun ? lastRun.toISOString() : null] *)
Definition lastRunText (lastRun : option TimestampStore.Date)
  : option (option jstring) :=
  match lastRun with
  | None => Some None
  | Some lastRun =>
      match toISO lastRun with
      | Some text => Some (Some text)
      | None => None
      end
  end.

(** Lines 85-89. *)
Definition currentSnapshots (allNotes : list Note) : list NoteSnapshot :=
  map (fun note =>
         {| NoteSnapshotStore.name := NoteProcessor.name note;
            NoteSnapshotStore.body := NoteProcessor.body note;
            NoteSnapshotStore.modificationDate :=
              toISOString (NoteProcessor.modificationDate note) |})
      allNotes.

(** The handler, lines 36-108: the state it leaves and its answer. *)
Definition extractNotesHandler (configured : jstring) (host : Host)
    (presented : option jstring) (state : State) : State * Response :=
  if negb (authenticated configured presented) then (state, Unauthorized)
  else
    match extractNotes host with
    | None => (state, InternalError)
    | Some allNotes =>
        match Pipeline.processNotes toLocaleString
                (TimestampStore.getCutoffDate minus24Hours (lastRunFile state)
                   (cutoffTime host))
                (snapshotFile state) allNotes with
        | inl _ => (state, InternalError)
        | inr processed =>
            match TimestampStore.getLastRun (lastRunFile state) with
            | inl _ => (state, InternalError)
            | inr lastRun =>
                match toISO (Pipeline.cutoffDate processed), lastRunText lastRun with
                | None, _ | _, None => (state, InternalError)
                | Some cutoffISO, Some lastRunISO =>
                    let storedData :=
                      {| notes := [];
                         aggregatedContent :=
                           Some (Pipeline.aggregatedContent processed);
                         snapshots := ∅;
                         timestamp := toISOString (storedTime host);
                         cutoffDate := cutoffISO;
                         lastRun := lastRunISO |} in
                    if negb (saveNotes host) then (state, InternalError)
                    else
                      let state :=
                        {| lastRunFile := lastRunFile state;
                           snapshotFile := snapshotFile state;
                           gist := Some storedData |} in
                      match Snapshots.saveSnapshots toISOString (snapshotDisk host)
                              (currentSnapshots allNotes) (snapshotTime host) with
                      | inl _ => (state, InternalError)
                      | inr file =>
                          let state :=
                            {| lastRunFile := lastRunFile state;
                               snapshotFile := file;
                               gist := gist state |} in
                          match TimestampStore.updateLastRun (lastRunDisk host)
                                  (lastRunTime host) with
                          | inl _ => (state, InternalError)
                          | inr file =>
                              ({| lastRunFile := file;
                                  snapshotFile := snapshotFile state;
                                  gist := gist state |},
                               Extracted
                                 (Z.of_nat (length (Pipeline.notes processed)))
                                 (timestamp storedData))
                          end
                      end
                end
            end
        end
    end.

End Handler.

End ApiServer.

(** ** The run in GitHub Actions ([main] of the script for GitHub
    Actions, in the version that takes the content aggregated by the
    service: output/file-writer.ts, lines 228-356) *)

Module GitHubActions.

Import NoteProcessor NoteSnapshotStore AnthropicClient ApiServer.

(** The environment variables; [None]: not set. *)
Record Env := {
  GITHUB_TOKEN : option jstring;
  GIST_ID : option jstring;
  ANTHROPIC_API_KEY : option jstring;
  SLACK_WEBHOOK_URL : option jstring
}.

(** ToBoolean of an environment variable or of an optional string. *)
Definition isSet (variable : option jstring) : bool :=
  match variable with
  | Some value => (0 <? len value)%Z
  | None => false
  end.

(** The calls [main] makes, Gist reads apart. *)
Inductive Call :=
| GenerateBrief (content : jstring)           (* llmService.generateBrief *)
| PostDailyBrief (brief : DailyBrief)         (* slackWriter.postDailyBrief *)
| SaveNotes (data : StoredNotesData).         (* cloudStorage.saveNotes *)

(** What [main] meets: what [loadNotes] answers ([None]: it throws,
    [Some None]: [null]), the snapshot file on the runner, the clock, and
    how the services answer.  A failure of the last [saveNotes] is
    caught and changes nothing. *)
Record Host := {
  loadNotes : option (option StoredNotesData);
  snapshotFile : NoteSnapshotStore.File;
  lastRunTime : Z;        (* [new Date()] of [storedData.lastRun] *)
  generateBrief : jstring -> option DailyBrief;
  postDailyBrief : DailyBrief -> bool
}.

(** The run: the calls made, and the code [process.exit] is given. *)
Record Run := { calls : list Call; exitCode : Z }.

Section Main.

Variable toLocaleString : Z -> jstring.
Variable toISOString : Z -> jstring.

(** [new Date(text)] *)
Variable newDate : jstring -> TimestampStore.Date.

(** Lines 287-291: the stored notes with their dates read back.  A note
    whose date does not read back has an Invalid Date: among the first
    ten notes it makes the line that [processNotes] logs for it throw (a
    RangeError of [toISOString]), and anywhere else it fails the
    comparison with the cutoff, so that the note is filtered out.
    [None]: the throw. *)
Definition revive (stored : list NoteSnapshot) : option (list Note) :=
  if forallb
       (fun note =>
          match newDate (NoteSnapshotStore.modificationDate note) with
          | TimestampStore.Time _ => true
          | TimestampStore.InvalidDate => false
          end)
       (take 10 stored)
  then
    Some (omap
            (fun note =>
               match newDate (NoteSnapshotStore.modificationDate note) with
               | TimestampStore.Time t =>
                   Some {| NoteProcessor.name := NoteSnapshotStore.name note;
                           NoteProcessor.body := NoteSnapshotStore.body note;
                           NoteProcessor.modificationDate := t |}
               | TimestampStore.InvalidDate => None
               end)
            stored)
  else None.

(** Lines 271-310: the content to process.  [inl code]: [main] exits
    there with [code]. *)
Definition contentToProcess (host : Host) (storedData : StoredNotesData)
  : Z + jstring :=
  let fallback :=
    match revive (notes storedData) with
    | None => inl 1%Z
    | Some notes =>
        match Pipeline.processNotes toLocaleString
                (inr (newDate (cutoffDate storedData)))
                (snapshotFile host) notes with
        | inl _ => inl 1%Z
        | inr processed =>
            if (length (Pipeline.notes processed) =? 0)%nat
            then inl 0%Z  (* 'No notes to process. Skipping LLM call.' *)
            else inr (Pipeline.aggregatedContent processed)
        end
    end in
  match aggregatedContent storedData with
  | Some aggregatedContent =>
      if (0 <? len aggregatedContent)%Z then
        if (len (trim aggregatedContent) =? 0)%Z
        then inl 0%Z  (* 'No content to process. Skipping LLM call.' *)
        else inr aggregatedContent
      else fallback
  | None => fallback
  end.

(** [storedData] with [lastRun] set, line 339. *)
Definition withLastRun (storedData : StoredNotesData) (lastRun : jstring)
  : StoredNotesData :=
  {| notes := notes storedData;
     aggregatedContent := aggregatedContent storedData;
     snapshots := snapshots storedData;
     timestamp := timestamp storedData;
     cutoffDate := cutoffDate storedData;
     lastRun := Some lastRun |}.

(** [main], lines 241-354. *)
Definition main (env : Env) (host : Host) : Run :=
  if negb (isSet (GITHUB_TOKEN env)) || negb (isSet (GIST_ID env))
  then {| calls := []; exitCode := 1 |}
  else
    match loadNotes host with
    | None => {| calls := []; exitCode := 1 |}
    | Some None => {| calls := []; exitCode := 1 |}
    | Some (Some storedData) =>
        match contentToProcess host storedData with
        | inl code => {| calls := []; exitCode := code |}
        | inr aggregatedContent =>
            if negb (isSet (ANTHROPIC_API_KEY env))
            then {| calls := []; exitCode := 1 |}
            else
              match generateBrief host aggregatedContent with
              | None =>
                  {| calls := [GenerateBrief aggregatedContent]; exitCode := 1 |}
              | Some brief =>
                  let update :=
                    SaveNotes (withLastRun storedData (toISOString (lastRunTime host))) in
                  let skipped :=
                    {| calls := [GenerateBrief aggregatedContent; update];
                       exitCode := 0 |} in
                  match SLACK_WEBHOOK_URL env with
                  | Some slackWebhookUrl =>
                      if (0 <? len slackWebhookUrl)%Z then
                        (* [new SlackWriter] throws on a blank address *)
                        if (len (trim slackWebhookUrl) =? 0)%Z
                        then {| calls := [GenerateBrief aggregatedContent];
                                exitCode := 1 |}
                        else if postDailyBrief host brief
                        then {| calls := [GenerateBrief aggregatedContent;
                                          PostDailyBrief brief; update];
                                exitCode := 0 |}
                        else {| calls := [GenerateBrief aggregatedContent;
                                          PostDailyBrief brief];
                                exitCode := 1 |}
                      else skipped
                  | None => skipped
                  end
              end
        end
    end.

End Main.

End GitHubActions.

(** ** Notions used in the statements *)

Module Notions.

Import NoteProcessor.

(** [a] is not older than [b]. *)
Definition newerFirst (a b : Note) : Prop :=
  (modificationDate b <= modificationDate a)%Z.

(** [part] occurs in [whole]. *)
Definition occursIn (part whole : jstring) : Prop :=
  exists pre post, whole = pre ++ part ++ post.

(** [first] occurs in [whole], and [second] somewhere after it. *)
Definition occursBefore (first second whole : jstring) : Prop :=
  exists pre between post, whole = pre ++ first ++ between ++ second ++ post.

(** The line [generateMarkdown] writes for an action item: a check box
    and the task, in bold when the priority is high. *)
Definition checkbox (item : AnthropicClient.ActionItem) : jstring :=
  match AnthropicClient.priority item with
  | AnthropicClient.High =>
      js "- [ ] **" ++ AnthropicClient.task item ++ js "**" ++ [LF]
  | _ => js "- [ ] " ++ AnthropicClient.task item ++ [LF]
  end.

(** High before medium before low. *)
Definition rank (p : AnthropicClient.Priority) : nat :=
  match p with
  | AnthropicClient.High => 0
  | AnthropicClient.Medium => 1
  | AnthropicClient.Low => 2
  end.

(** What [escapeForAppleScript] writes for one code unit. *)
Definition escapeUnit (c : N) : jstring :=
  if N.eqb c BACKSLASH then [BACKSLASH; BACKSLASH]
  else if N.eqb c DQUOTE then [BACKSLASH; DQUOTE]
  else if N.eqb c LF then [BACKSLASH; 110%N]
  else if N.eqb c CR then [BACKSLASH; 114%N]
  else [c].

(** How AppleScript reads a string literal from after its opening double
    quote: the text up to the closing double quote, a backslash giving
    its special meaning to the code unit after it; the value is the text
    read and what follows the closing quote.  [None]: the literal is not
    closed, or an escape is not one of AppleScript's. *)
Fixpoint readLiteral (s : jstring) : option (jstring * jstring) :=
  match s with
  | [] => None
  | c :: rest =>
      if N.eqb c DQUOTE then Some ([], rest)
      else if N.eqb c BACKSLASH then
        match rest with
        | [] => None
        | d :: rest' =>
            let decoded :=
              if N.eqb d DQUOTE then Some DQUOTE
              else if N.eqb d BACKSLASH then Some BACKSLASH
              else if N.eqb d 110 then Some LF
              else if N.eqb d 114 then Some CR
              else if N.eqb d 116 then Some 9%N
              else None in
            match decoded, readLiteral rest' with
            | Some x, Some (text, after) => Some (x :: text, after)
            | _, _ => None
            end
        end
      else
        match readLiteral rest with
        | Some (text, after) => Some (c :: text, after)
        | None => None
        end
  end.

End Notions.

(** ** Inputs for the examples of the pipeline *)

Module Samples.

Import NoteProcessor TimestampStore Pipeline AnthropicClient CronScheduler.

Definition sampleLocale : Z -> jstring := fun _ => js "1/1/2026".
Definition sampleISO : Z -> jstring := fun _ => js "2026-01-01T00:00:00.000Z".

(** A day is 86400000 milliseconds where the clock is not turned. *)
Definition dayBefore : Z -> Z := fun t => (t - 86400000)%Z.

(** Four notes against the cutoff 10: one older, and two of the same
    time around a newer one. *)
Definition sampleNotes : list Note :=
  [ {| name := js "old"; body := js "o"; modificationDate := 9 |};
    {| name := js "a"; body := js "x"; modificationDate := 20 |};
    {| name := js "b"; body := js "y"; modificationDate := 30 |};
    {| name := js "c"; body := js "z"; modificationDate := 20 |} ].

Definition sampleProcessed : ProcessedNotes :=
  {| notes :=
       [ {| name := js "b"; body := js "y"; modificationDate := 30 |};
         {| name := js "a"; body := js "x"; modificationDate := 20 |};
         {| name := js "c"; body := js "z"; modificationDate := 20 |} ];
     aggregatedContent :=
       js "--- Note 1: b (Modified: 1/1/2026) ---" ++ [LF] ++ js "y" ++ [LF]
       ++ [LF; LF]
       ++ js "--- Note 2: a (Modified: 1/1/2026) ---" ++ [LF] ++ js "x" ++ [LF]
       ++ [LF; LF]
       ++ js "--- Note 3: c (Modified: 1/1/2026) ---" ++ [LF] ++ js "z" ++ [LF];
     cutoffDate := Time 10 |}.

Definition sampleBrief : DailyBrief :=
  {| executiveSummary := js "A quiet day.";
     actionItems := [ {| task := js "Ben: call back"; priority := High |} ] |}.

(** A first run: no file yet. *)
Definition firstRun : Stores :=
  {| lastRunFile := TimestampStore.Missing;
     snapshotFile := NoteSnapshotStore.Missing |}.

(** A host on which every service answers; the cutoff comes out as 10. *)
Definition sampleHost : Host :=
  {| extractNotes := Some sampleNotes;
     cutoffTime := 86400010;
     snapshotTime := 86400020;
     lastRunTime := 86400030;
     snapshotDisk := Snapshots.Writable;
     lastRunDisk := TimestampStore.Writable;
     generateBrief := fun _ => Some sampleBrief;
     writeDailyBrief := fun _ => true;
     postDailyBrief := fun _ => true;
     createDailyBriefNote := fun _ => true |}.

Definition oldNotes : list Note :=
  [ {| name := js "old"; body := js "o"; modificationDate := 9 |} ].

(** The same with only an old note in Apple Notes. *)
Definition quietHost : Host :=
  {| extractNotes := Some oldNotes;
     cutoffTime := 86400010;
     snapshotTime := 86400020;
     lastRunTime := 86400030;
     snapshotDisk := Snapshots.Writable;
     lastRunDisk := TimestampStore.Writable;
     generateBrief := fun _ => Some sampleBrief;
     writeDailyBrief := fun _ => true;
     postDailyBrief := fun _ => true;
     createDailyBriefNote := fun _ => true |}.

(** The same with a language model that fails. *)
Definition modelDownHost : Host :=
  {| extractNotes := Some sampleNotes;
     cutoffTime := 86400010;
     snapshotTime := 86400020;
     lastRunTime := 86400030;
     snapshotDisk := Snapshots.Writable;
     lastRunDisk := TimestampStore.Writable;
     generateBrief := fun _ => None;
     writeDailyBrief := fun _ => true;
     postDailyBrief := fun _ => true;
     createDailyBriefNote := fun _ => true |}.

(** The same with Apple Notes refusing the note. *)
Definition notesDownHost : Host :=
  {| extractNotes := Some sampleNotes;
     cutoffTime := 86400010;
     snapshotTime := 86400020;
     lastRunTime := 86400030;
     snapshotDisk := Snapshots.Writable;
     lastRunDisk := TimestampStore.Writable;
     generateBrief := fun _ => Some sampleBrief;
     writeDailyBrief := fun _ => true;
     postDailyBrief := fun _ => true;
     createDailyBriefNote := fun _ => false |}.

Definition allOutputs : SchedulerConfig :=
  {| slackWriter := true; notesWriter := true; createAppleNote := true |}.

(** The stores as a completed run over [sampleNotes] leaves them. *)
Definition afterFirstRun : Stores :=
  {| lastRunFile := TimestampStore.Stored (Time 30);
     snapshotFile :=
       NoteSnapshotStore.Stored (sampleISO 20)
         (Snapshots.indexByName (snapshotData sampleISO sampleNotes)) |}.

(** The extraction service before its first request, and hosts for it. *)
Definition freshService : ApiServer.State :=
  {| ApiServer.lastRunFile := TimestampStore.Missing;
     ApiServer.snapshotFile := NoteSnapshotStore.Missing;
     ApiServer.gist := None |}.

Definition serviceHost : ApiServer.Host :=
  {| ApiServer.extractNotes := Some sampleNotes;
     ApiServer.cutoffTime := 86400010;
     ApiServer.storedTime := 86400015;
     ApiServer.snapshotTime := 86400020;
     ApiServer.lastRunTime := 86400030;
     ApiServer.saveNotes := true;
     ApiServer.snapshotDisk := Snapshots.Writable;
     ApiServer.lastRunDisk := TimestampStore.Writable |}.

Definition quietServiceHost : ApiServer.Host :=
  {| ApiServer.extractNotes := Some oldNotes;
     ApiServer.cutoffTime := 86400010;
     ApiServer.storedTime := 86400015;
     ApiServer.snapshotTime := 86400020;
     ApiServer.lastRunTime := 86400030;
     ApiServer.saveNotes := true;
     ApiServer.snapshotDisk := Snapshots.Writable;
     ApiServer.lastRunDisk := TimestampStore.Writable |}.

End Samples.

(** * Properties of the diff engine *)

Module DiffEngine.

Import NoteSnapshotStore NoteProcessor Spec Examples.

Lemma len_pos (s : jstring) : (0 <? len s)%Z = true ↔ s ≠ [].
Proof.
  unfold len. destruct s as [|c s]; simpl.
  - split; [discriminate | congruence].
  - split; [discriminate | intros _; apply Z.ltb_lt; lia].
Qed.

(** ** Trimming *)

Lemma dropWhile_nil (p : N → bool) (s : jstring) :
  dropWhile p s = [] ↔ Forall (fun c => p c = true) s.
Proof.
  induction s as [|c s IH]; simpl; [by split; [constructor|]|].
  destruct (p c) eqn:Hc.
  - rewrite IH. split; [by constructor | by inversion 1].
  - split; [done|]. inversion 1; congruence.
Qed.

Lemma dropWhile_head (p : N → bool) (s : jstring) (c : N) (rest : jstring) :
  dropWhile p s = c :: rest → p c = false.
Proof.
  induction s as [|d s IH]; simpl; [done|].
  destruct (p d) eqn:Hd; [exact IH | by intros [= <- _]].
Qed.

Lemma dropWhile_sublist (p : N → bool) (s : jstring) :
  dropWhile p s `sublist_of` s.
Proof.
  induction s as [|c s IH]; simpl; [done|]. destruct (p c); [by constructor|done].
Qed.

Lemma dropWhile_split (p : N → bool) (s : jstring) :
  ∃ pre, s = pre ++ dropWhile p s ∧ Forall (fun c => p c = true) pre.
Proof.
  induction s as [|c s (pre & Hs & Hpre)]; simpl; [by exists []|].
  destruct (p c) eqn:Hc; [|by exists []].
  exists (c :: pre). split; [by rewrite <- app_comm_cons, <- Hs | by constructor].
Qed.

Lemma dropWhile_app_all (p : N → bool) (pre s : jstring) :
  Forall (fun c => p c = true) pre → dropWhile p (pre ++ s) = dropWhile p s.
Proof. induction 1 as [|c pre Hc _ IH]; simpl; [done | by rewrite Hc]. Qed.

Lemma dropWhile_app_keep (p : N → bool) (s post : jstring) :
  dropWhile p s ≠ [] → dropWhile p (s ++ post) = dropWhile p s ++ post.
Proof.
  induction s as [|c s IH]; simpl; [done|]. by destruct (p c).
Qed.

(** The code units that [trim] strips. *)
Lemma isWhiteSpace_units (c : N) :
  isWhiteSpace c = true
  ↔ In c [9; 10; 11; 12; 13; 32; 160; 5760; 8192; 8193; 8194; 8195; 8196;
          8197; 8198; 8199; 8200; 8201; 8202; 8232; 8233; 8239; 8287; 12288;
          65279]%N.
Proof.
  unfold isWhiteSpace.
  rewrite !orb_true_iff, !andb_true_iff, !N.leb_le, !N.eqb_eq. simpl. lia.
Qed.

(** [trim] takes white space off both ends of a line, all of it and
    nothing else. *)
Lemma trim_ends (line : jstring) :
  ∃ pre post,
    line = pre ++ trim line ++ post
    ∧ Forall (fun c => isWhiteSpace c = true) pre
    ∧ Forall (fun c => isWhiteSpace c = true) post
    ∧ (∀ c, head (trim line) = Some c → isWhiteSpace c = false)
    ∧ (∀ c, last (trim line) = Some c → isWhiteSpace c = false).
Proof.
  destruct (dropWhile_split isWhiteSpace line) as (pre & Hline & Hpre).
  destruct (dropWhile_split isWhiteSpace (rev (dropWhile isWhiteSpace line)))
    as (q & Hrev & Hq).
  assert (dropWhile isWhiteSpace line = trim line ++ rev q) as Hstart.
  { apply (f_equal (@rev N)) in Hrev.
    by rewrite rev_involutive, rev_app_distr in Hrev. }
  exists pre, (rev q). refine (conj _ (conj Hpre (conj _ (conj _ _)))).
  - by rewrite <- Hstart.
  - rewrite Forall_forall in Hq |- *. intros c Hc. apply Hq.
    by apply list_elem_of_In, in_rev, list_elem_of_In.
  - intros c Hc. destruct (trim line) as [|d rest]; [done|].
    injection Hc as ->. by apply (dropWhile_head _ _ _ _ Hstart).
  - intros c. unfold trim, trimEnd, trimStart.
    destruct (dropWhile isWhiteSpace (rev (dropWhile isWhiteSpace line)))
      as [|d rest] eqn:Hend; [done|].
    simpl. rewrite last_snoc. intros [= <-]. by apply (dropWhile_head _ _ _ _ Hend).
Qed.

(** A string trims to nothing exactly when it is all white space. *)
Lemma trim_nil (s : jstring) :
  trim s = [] ↔ Forall (fun c => isWhiteSpace c = true) s.
Proof.
  unfold trim, trimEnd, trimStart. split.
  - intros Hnil. apply (f_equal (@rev N)) in Hnil. rewrite rev_involutive in Hnil.
    simpl in Hnil. apply dropWhile_nil in Hnil.
    destruct (dropWhile isWhiteSpace s) as [|c rest] eqn:Hdrop;
      [by apply dropWhile_nil|].
    apply dropWhile_head in Hdrop. rewrite Forall_forall in Hnil.
    rewrite (Hnil c) in Hdrop; [done|]. apply list_elem_of_In, in_rev.
    rewrite rev_involutive. by left.
  - intros Hall. apply dropWhile_nil in Hall. by rewrite Hall.
Qed.

(** White space around a line does not change what it trims to. *)
Lemma trim_padded (pre line post : jstring) :
  Forall (fun c => isWhiteSpace c = true) pre →
  Forall (fun c => isWhiteSpace c = true) post →
  trim (pre ++ line ++ post) = trim line.
Proof.
  intros Hpre Hpost. unfold trim, trimEnd, trimStart.
  rewrite (dropWhile_app_all _ _ _ Hpre).
  destruct (dropWhile isWhiteSpace line) as [|c rest] eqn:Hline.
  - apply dropWhile_nil in Hline.
    assert (dropWhile isWhiteSpace (line ++ post) = []) as ->; [|done].
    apply dropWhile_nil, Forall_app. by split.
  - rewrite dropWhile_app_keep by (by rewrite Hline).
    rewrite Hline, rev_app_distr. apply (f_equal (@rev N)).
    apply dropWhile_app_all.
    rewrite Forall_forall in Hpost |- *. intros d Hd. apply Hpost.
    by apply list_elem_of_In, in_rev, list_elem_of_In.
Qed.

(** ** Line splitting *)

Lemma splitLinesFrom_cons (cur : jstring) (c : N) (rest : jstring) :
  splitLinesFrom cur (c :: rest)
  = if N.eqb c LF then cur :: splitLinesFrom [] rest
    else if N.eqb c CR && match rest with d :: _ => N.eqb d LF | [] => false end
    then cur :: splitLinesFrom [] (tail rest)
    else splitLinesFrom (cur ++ [c]) rest.
Proof.
  simpl. destruct (N.eqb c LF); [done|]. destruct (N.eqb c CR); [|done].
  destruct rest as [|d rest]; [done|]. by destruct (N.eqb d LF).
Qed.

Lemma splitLinesFrom_prepend (cur s : jstring) :
  splitLinesFrom cur s = prepend cur (splitLines s).
Proof.
  unfold splitLines. revert cur. induction s as [|c rest IH]; intros cur.
  - simpl. by rewrite app_nil_r.
  - rewrite !splitLinesFrom_cons.
    destruct (N.eqb c LF); [simpl; by rewrite app_nil_r|].
    destruct (N.eqb c CR && _); [simpl; by rewrite app_nil_r|].
    rewrite (IH (cur ++ [c])), (IH ([] ++ [c])).
    destruct (splitLinesFrom [] rest); simpl; by rewrite <- ?app_assoc.
Qed.

Lemma splitLines_cons (c : N) (s : jstring) :
  c ≠ LF → (c = CR → ∃ d rest, s = d :: rest ∧ d ≠ LF) →
  splitLines (c :: s) = prepend [c] (splitLines s).
Proof.
  intros Hlf Hcr. unfold splitLines at 1. rewrite splitLinesFrom_cons.
  replace (N.eqb c LF) with false by (symmetry; by apply N.eqb_neq).
  destruct (N.eqb c CR) eqn:Hc; simpl.
  - apply N.eqb_eq in Hc. destruct (Hcr Hc) as (d & rest & -> & Hd).
    replace (N.eqb d LF) with false by (symmetry; by apply N.eqb_neq).
    apply splitLinesFrom_prepend.
  - apply splitLinesFrom_prepend.
Qed.

Lemma splitLines_CRLF (line rest : jstring) :
  Forall (fun c => c ≠ LF) line →
  splitLines (line ++ CR :: LF :: rest) = line :: splitLines rest.
Proof.
  induction 1 as [|c line Hc Hline IH]; [done|].
  rewrite <- app_comm_cons, splitLines_cons; [by rewrite IH | done |].
  intros _. destruct line as [|d line].
  - by exists CR, (LF :: rest).
  - exists d, (line ++ CR :: LF :: rest). split; [done|]. by inversion Hline.
Qed.

Lemma splitLines_LF (line rest : jstring) :
  Forall (fun c => c ≠ LF) line → last line ≠ Some CR →
  splitLines (line ++ LF :: rest) = line :: splitLines rest.
Proof.
  induction 1 as [|c line Hc Hline IH]; intros Hlast; [done|].
  rewrite <- app_comm_cons, splitLines_cons; [rewrite IH; [done|] | done |].
  - by destruct line.
  - intros ->. destruct line as [|d line]; [done|].
    exists d, (line ++ LF :: rest). split; [done|]. by inversion Hline.
Qed.

Lemma splitLines_last (line : jstring) :
  Forall (fun c => c ≠ LF) line → splitLines line = [line].
Proof.
  induction 1 as [|c line Hc Hline IH]; [done|].
  destruct line as [|d line].
  { unfold splitLines. rewrite splitLinesFrom_cons.
    replace (N.eqb c LF) with false by (symmetry; by apply N.eqb_neq).
    by rewrite andb_false_r. }
  rewrite splitLines_cons; [by rewrite IH | done |].
  intros _. exists d, line. split; [done|]. by inversion Hline.
Qed.
(** ** The two loops *)

Lemma previousLinesSet_from (lines : list jstring) (set : gset jstring) :
  fold_left
    (fun set line =>
       let normalized := trim line in
       if (0 <? len normalized)%Z then set ∪ {[ normalized ]} else set)
    lines set
  = set ∪ list_to_set
            (List.filter (fun line => (0 <? len line)%Z) (map trim lines)).
Proof.
  revert set. induction lines as [|line lines IH]; intros set; simpl.
  - set_solver.
  - rewrite IH. destruct (0 <? len (trim line))%Z; simpl; set_solver.
Qed.

(** The set the first loop builds is the snapshot's line-normalized
    content. *)
Lemma previousLinesSet_lineSet (previousBody : jstring) :
  previousLinesSet (splitLines previousBody) = lineSet previousBody.
Proof.
  unfold previousLinesSet, lineSet. rewrite previousLinesSet_from. set_solver.
Qed.

Lemma newLines_from (set : gset jstring) (lines acc : list jstring) :
  fold_left
    (fun acc line =>
       let normalized := trim line in
       if (0 <? len normalized)%Z && negb (bool_decide (normalized ∈ set))
       then acc ++ [line] else acc)
    lines acc
  = acc ++ List.filter
             (fun line => (0 <? len (trim line))%Z
                          && negb (bool_decide (trim line ∈ set))) lines.
Proof.
  revert acc. induction lines as [|line lines IH]; intros acc; simpl.
  - by rewrite app_nil_r.
  - rewrite IH.
    destruct ((0 <? len (trim line))%Z && negb (bool_decide (trim line ∈ set)));
      simpl; [by rewrite <- app_assoc | done].
Qed.

(** The second loop keeps, in order, the lines that are new. *)
Lemma diffLines_filter (previousBody currentBody : jstring) :
  diffLines previousBody currentBody
  = List.filter (isNewLine previousBody) (splitLines currentBody).
Proof.
  unfold diffLines, newLines. rewrite newLines_from, previousLinesSet_lineSet.
  reflexivity.
Qed.

Lemma isNewLine_spec (previousBody line : jstring) :
  isNewLine previousBody line = true
  ↔ trim line ≠ [] ∧ trim line ∉ lineSet previousBody.
Proof.
  unfold isNewLine. rewrite andb_true_iff, len_pos, negb_true_iff.
  rewrite bool_decide_eq_false. reflexivity.
Qed.

Lemma lineSet_elem (body line : jstring) :
  line ∈ lineSet body ↔ line ≠ [] ∧ ∃ l, In l (splitLines body) ∧ trim l = line.
Proof.
  unfold lineSet. rewrite elem_of_list_to_set, list_elem_of_In, filter_In.
  rewrite in_map_iff, len_pos. naive_solver.
Qed.

Lemma diffLines_nil (previousBody currentBody : jstring) :
  diffLines previousBody currentBody = []
  ↔ lineSet currentBody ⊆ lineSet previousBody.
Proof.
  rewrite diffLines_filter. split.
  - intros Hnil line Hin. apply lineSet_elem in Hin as [Hne [l [Hl Htrim]]].
    destruct (decide (line ∈ lineSet previousBody)) as [|Hnot]; [done|].
    assert (In l (List.filter (isNewLine previousBody) (splitLines currentBody))) as Hnew.
    { apply filter_In. split; [done|]. apply isNewLine_spec. by rewrite Htrim. }
    rewrite Hnil in Hnew. destruct Hnew.
  - intros Hsub.
    destruct (List.filter (isNewLine previousBody) (splitLines currentBody))
      as [|l rest] eqn:Hf; [done|].
    assert (In l (l :: rest)) as Hin by (left; done).
    rewrite <- Hf in Hin. apply filter_In in Hin as [Hl Hnew].
    apply isNewLine_spec in Hnew as [Hne Hnot].
    exfalso. apply Hnot, Hsub, lineSet_elem. eauto.
Qed.

(** With a stored snapshot, the result is the reported lines joined by
    line feeds. *)
Lemma extractNewContent_stored (lastRun : jstring)
    (notes : gmap jstring NoteSnapshot) (note : Note) (previous : NoteSnapshot) :
  notes !! name note = Some previous →
  extractNewContent (Stored lastRun notes) note
  = inr (join [LF] (diffLines (NoteSnapshotStore.body previous) (body note))).
Proof.
  intros Hsnap. unfold extractNewContent, getNoteSnapshot, getProperty. simpl.
  by rewrite Hsnap.
Qed.

(** C3: for a note that has a stored snapshot, [extractNewContent] splits
    both bodies at line breaks, trims the lines, collects the non-empty
    trimmed lines of the snapshot in a set, and reports exactly the lines
    of the current body that, trimmed, are non-empty and not in that set,
    in their order; so nothing is reported if and only if the
    line-normalized content of the note is included in the snapshot's.
    A line break is a line feed or a carriage return and line feed, on
    any platform: the text before the first of them is the first line.
    To trim a line is to take the white space off its two ends, all of
    it and nothing else, so that white space put around a line does not
    change what it trims to; the white space is the tab, the line feed,
    the vertical tab, the form feed, the carriage return, the space, the
    no-break space, the byte order mark, the line and paragraph
    separators and the other spaces of Unicode. *)
Theorem extractNewContent_diff (lastRun : jstring)
    (notes : gmap jstring NoteSnapshot) (note : Note) (previous : NoteSnapshot) :
  notes !! name note = Some previous →
  extractNewContent (Stored lastRun notes) note
  = inr (join [LF] (diffLines (NoteSnapshotStore.body previous) (body note)))
  ∧ previousLinesSet (splitLines (NoteSnapshotStore.body previous))
    = lineSet (NoteSnapshotStore.body previous)
  ∧ diffLines (NoteSnapshotStore.body previous) (body note)
    = List.filter (isNewLine (NoteSnapshotStore.body previous))
                  (splitLines (body note))
  ∧ (∀ line, isNewLine (NoteSnapshotStore.body previous) line = true
             ↔ trim line ≠ [] ∧ trim line ∉ lineSet (NoteSnapshotStore.body previous))
  ∧ (diffLines (NoteSnapshotStore.body previous) (body note) = []
     ↔ lineSet (body note) ⊆ lineSet (NoteSnapshotStore.body previous))
  ∧ (∀ line rest,
       Forall (fun c => c ≠ LF) line →
       splitLines (line ++ CR :: LF :: rest) = line :: splitLines rest
       ∧ (last line ≠ Some CR →
          splitLines (line ++ LF :: rest) = line :: splitLines rest)
       ∧ splitLines line = [line])
  ∧ (∀ line, ∃ pre post,
       line = pre ++ trim line ++ post
       ∧ Forall (fun c => isWhiteSpace c = true) pre
       ∧ Forall (fun c => isWhiteSpace c = true) post
       ∧ (∀ c, head (trim line) = Some c → isWhiteSpace c = false)
       ∧ (∀ c, last (trim line) = Some c → isWhiteSpace c = false))
  ∧ (∀ pre line post,
       Forall (fun c => isWhiteSpace c = true) pre →
       Forall (fun c => isWhiteSpace c = true) post →
       trim (pre ++ line ++ post) = trim line
       ∧ isNewLine (NoteSnapshotStore.body previous) (pre ++ line ++ post)
         = isNewLine (NoteSnapshotStore.body previous) line)
  ∧ (∀ c, isWhiteSpace c = true
          ↔ In c [9; 10; 11; 12; 13; 32; 160; 5760; 8192; 8193; 8194; 8195;
                  8196; 8197; 8198; 8199; 8200; 8201; 8202; 8232; 8233; 8239;
                  8287; 12288; 65279]%N).
Proof.
  intros Hsnap.
  refine (conj _ (conj _ (conj _ (conj _ (conj _ (conj _ (conj _ (conj _ _)))))))).
  - by apply extractNewContent_stored.
  - apply previousLinesSet_lineSet.
  - apply diffLines_filter.
  - intros line. apply isNewLine_spec.
  - apply diffLines_nil.
  - intros line rest Hline. refine (conj _ (conj _ _)).
    + by apply splitLines_CRLF.
    + by apply splitLines_LF.
    + by apply splitLines_last.
  - apply trim_ends.
  - intros pre line post Hpre Hpost. unfold isNewLine.
    by rewrite (trim_padded pre line post Hpre Hpost).
  - apply isWhiteSpace_units.
Qed.

Lemma extractNewContent_diff_witness :
  extractNewContent (Stored [] {[ js "A" := snapshotA ]}) indentedA
  = inr (js "  line3 ").
Proof.
  destruct (extractNewContent_diff [] {[ js "A" := snapshotA ]} indentedA snapshotA)
    as [Hout _].
  - vm_compute. reflexivity.
  - rewrite Hout. vm_compute. reflexivity.
Defined.

(** First sight: with no snapshot file, or a file that has no snapshot of
    the note under a name that [Object.prototype] does not define, the
    whole body is returned. *)
Lemma extractNewContent_first_sight (f : File) (note : Note) :
  match f with
  | Missing => True
  | Unreadable _ => False
  | Stored _ notes =>
      notes !! name note = None ∧ name note ∉ objectPrototypeKeys
  end →
  extractNewContent f note = inr (body note).
Proof.
  destruct f as [|message|lastRun notes]; [done | done |].
  intros [Hnone Hkey].
  unfold extractNewContent, getNoteSnapshot, getProperty. simpl.
  rewrite Hnone. by rewrite bool_decide_eq_false_2.
Qed.

(** C7: a note with no prior snapshot should come back whole, and does
    not when it is titled after a member of [Object.prototype]: the
    lookup [snapshots.notes[noteName]] then finds the inherited member,
    which is truthy and has no [body], and the read of
    [previousBody.length] throws. *)
Theorem extractNewContent_inherited_key :
  (∅ : gmap jstring NoteSnapshot) !! js "constructor" = None
  ∧ extractNewContent (Stored (js "2026-01-01T00:00:00.000Z") ∅)
      {| name := js "constructor"; body := js "hello"; modificationDate := 0 |}
    = inl TypeError.
Proof. split; vm_compute; reflexivity. Qed.

(** C8, as stated, fails on first sight: the body comes back whole, its
    blank lines included. *)
Lemma first_sight_reports_blank_line :
  extractNewContent Missing
    {| name := js "A"; body := js "a" ++ [LF; LF] ++ js "b"; modificationDate := 0 |}
  = inr (js "a" ++ [LF; LF] ++ js "b")
  ∧ splitLines (js "a" ++ [LF; LF] ++ js "b") = [js "a"; []; js "b"]
  ∧ trim [] = [].
Proof. repeat split. Qed.

(** C8, amended: for a note that has a stored snapshot, no line that is
    blank once trimmed is reported, and the reported lines are lines of
    the current body in their original order. *)
Theorem diffLines_no_blank (lastRun : jstring)
    (notes : gmap jstring NoteSnapshot) (note : Note) (previous : NoteSnapshot) :
  notes !! name note = Some previous →
  ∃ new,
    extractNewContent (Stored lastRun notes) note = inr (join [LF] new)
    ∧ Forall (fun line => trim line ≠ []) new
    ∧ new `sublist_of` splitLines (body note).
Proof.
  intros Hsnap.
  exists (diffLines (NoteSnapshotStore.body previous) (body note)).
  split; [by apply extractNewContent_stored|].
  rewrite diffLines_filter. split.
  - apply Forall_forall. intros line Hin.
    apply list_elem_of_In, filter_In in Hin as [_ Hnew].
    by apply isNewLine_spec in Hnew as [? _].
  - induction (splitLines (body note)) as [|l ls IH]; simpl; [constructor|].
    destruct (isNewLine _ l); by constructor.
Qed.

Lemma diffLines_no_blank_witness :
  ∃ new,
    extractNewContent (Stored [] {[ js "A" := snapshotA ]}) noteA
    = inr (join [LF] new)
    ∧ Forall (fun line => trim line ≠ []) new
    ∧ new `sublist_of` splitLines (body noteA).
Proof.
  apply (diffLines_no_blank [] {[ js "A" := snapshotA ]} noteA snapshotA).
  vm_compute. reflexivity.
Defined.

Lemma join_nonempty (sep part : jstring) (parts : list jstring) :
  part ≠ [] → join sep (part :: parts) ≠ [].
Proof.
  intros Hne. destruct parts as [|p parts]; simpl; [done|].
  destruct part; [done | discriminate].
Qed.

Lemma join_head (sep line : jstring) (lines : list jstring) :
  ∃ rest, join sep (line :: lines) = line ++ rest.
Proof.
  destruct lines as [|l lines]; simpl; [exists []; by rewrite app_nil_r | eauto].
Qed.

(** With a stored snapshot, the new content is blank exactly when no line
    is new. *)
Lemma blank_content_no_new_lines (lastRun : jstring)
    (notes : gmap jstring NoteSnapshot) (note : Note) (previous : NoteSnapshot) :
  notes !! name note = Some previous →
  (∃ content,
     extractNewContent (Stored lastRun notes) note = inr content
     ∧ trim content = [])
  ↔ diffLines (NoteSnapshotStore.body previous) (body note) = [].
Proof.
  intros Hsnap. rewrite (extractNewContent_stored _ _ _ _ Hsnap). split.
  - intros (content & [= <-] & Hblank).
    pose proof (diffLines_filter (NoteSnapshotStore.body previous) (body note)) as Hf.
    destruct (diffLines _ _) as [|line lines]; [done|]. exfalso.
    assert (In line (List.filter (isNewLine (NoteSnapshotStore.body previous))
                       (splitLines (body note)))) as Hin
      by (rewrite <- Hf; by left).
    apply filter_In in Hin as [_ Hnew]. apply isNewLine_spec in Hnew as [Hne _].
    apply Hne, trim_nil. apply trim_nil in Hblank.
    destruct (join_head [LF] line lines) as [rest Hjoin]. rewrite Hjoin in Hblank.
    by apply Forall_app in Hblank as [? _].
  - intros ->. by exists [].
Qed.

Section AggregateFacts.

Variable toLocaleString : Z → jstring.

Lemma section_nonempty (index : nat) (note : Note) (newContent : jstring) :
  section toLocaleString index note newContent ≠ [].
Proof. unfold section. simpl. discriminate. Qed.

(** Notes whose new content is blank add no section. *)
Lemma aggregateLoop_blank (f : File) (notes : list Note) (index : nat)
    (sections : list jstring) :
  (∀ note, In note notes →
           ∃ content, extractNewContent f note = inr content ∧ trim content = []) →
  aggregateLoop toLocaleString f notes index sections = inr sections.
Proof.
  revert index. induction notes as [|note notes IH]; intros index Hblank; [done|].
  simpl. destruct (Hblank note) as [content [Hc Ht]]; [by left|].
  rewrite Hc, Ht. simpl. apply IH. intros n Hn. apply Hblank. by right.
Qed.

Lemma aggregateLoop_nonempty (f : File) (notes : list Note) (index : nat)
    (acc sections : list jstring) :
  aggregateLoop toLocaleString f notes index acc = inr sections →
  Forall (fun s => s ≠ []) acc → Forall (fun s => s ≠ []) sections.
Proof.
  revert index acc. induction notes as [|note notes IH]; intros index acc; simpl.
  - by intros [= <-].
  - destruct (extractNewContent f note) as [e|content]; [done|].
    intros Hloop Hacc. eapply IH; [exact Hloop|].
    destruct (0 <? len (trim content))%Z; [|done].
    apply Forall_app. split; [done|].
    constructor; [apply section_nonempty | constructor].
Qed.

(** C9, amended: [aggregateContent] has two fixed strings for nothing to
    report, one for an empty list of notes and another for notes whose
    new content is all blank (for a note with a stored snapshot: whose
    diff has no new line), and whatever it returns is never the empty
    string. *)
Theorem aggregateContent_sentinels (f : File) (notes : list Note) :
  (∀ note, In note notes →
           ∃ content, extractNewContent f note = inr content ∧ trim content = []) →
  aggregateContent toLocaleString f notes
  = inr (match notes with [] => noNotesModified | _ :: _ => noNewContent end)
  ∧ (∀ f' notes' out,
       aggregateContent toLocaleString f' notes' = inr out → out ≠ [])
  ∧ (∀ lastRun stored note previous,
       stored !! name note = Some previous →
       (∃ content,
          extractNewContent (Stored lastRun stored) note = inr content
          ∧ trim content = [])
       ↔ diffLines (NoteSnapshotStore.body previous) (body note) = []).
Proof.
  intros Hblank. refine (conj _ (conj _ _));
    [| | intros; by apply blank_content_no_new_lines].
  - destruct notes as [|note notes]; [done|].
    unfold aggregateContent. by rewrite aggregateLoop_blank.
  - clear. intros f notes out. unfold aggregateContent.
    destruct notes as [|note notes]; [by intros [= <-]|].
    destruct (aggregateLoop _ _ _ _ _) as [e|sections] eqn:Hloop; [done|].
    apply aggregateLoop_nonempty in Hloop; [|constructor].
    destruct sections as [|s sections]; [by intros [= <-]|].
    intros [= <-]. change (join [LF; LF] (s :: sections) ≠ []).
    apply join_nonempty. by inversion Hloop.
Qed.

End AggregateFacts.

Lemma aggregateContent_sentinels_witness :
  aggregateContent (fun _ => js "1/1/2026, 6:00:00 PM")
    (Stored [] {[ js "A" := snapshotA ]}) [unchangedA]
  = inr noNewContent.
Proof.
  apply (aggregateContent_sentinels (fun _ => js "1/1/2026, 6:00:00 PM")
           (Stored [] {[ js "A" := snapshotA ]}) [unchangedA]).
  intros note [<-|[]]. exists []. vm_compute. split; reflexivity.
Defined.

(** C9, as stated, fails: the empty list of notes and the unchanged notes
    get two different strings, not one sentinel. *)
Lemma two_sentinels :
  aggregateContent (fun _ => js "1/1/2026, 6:00:00 PM")
    (Stored [] {[ js "A" := snapshotA ]}) []
  = inr noNotesModified
  ∧ aggregateContent (fun _ => js "1/1/2026, 6:00:00 PM")
      (Stored [] {[ js "A" := snapshotA ]}) [unchangedA]
    = inr noNewContent
  ∧ noNotesModified ≠ noNewContent.
Proof. split; [|split]; vm_compute; [reflexivity | reflexivity | discriminate]. Qed.

End DiffEngine.

(** * Properties of the recoverer *)

Module Recoverer.

Import Json AnthropicClient Spec Examples.

Local Open Scope Z_scope.

Lemma len_cons (c : N) (s : jstring) : len (c :: s) = len s + 1.
Proof. unfold len. simpl length. lia. Qed.

Lemma len_nonneg (s : jstring) : 0 ≤ len s.
Proof. unfold len. lia. Qed.

Lemma len_drop (s : jstring) (n : nat) :
  (n ≤ length s)%nat → len (drop n s) = len s - Z.of_nat n.
Proof. intros Hn. unfold len. rewrite length_drop. lia. Qed.

(** ** Termination of the scan (C10) *)

Lemma skipSeparators_bounds (suffix : jstring) (pos : Z) :
  pos ≤ skipSeparators suffix pos ≤ pos + len suffix.
Proof.
  revert pos. induction suffix as [|c rest IH]; intros pos; simpl.
  - unfold len; simpl; lia.
  - rewrite len_cons. destruct (isSeparator c).
    + specialize (IH (pos + 1)). lia.
    + pose proof (len_nonneg rest). lia.
Qed.

(** The brace counter either gives up or ends strictly after where it
    started, within the code units it was given. *)
Lemma matchBrace_bounds (chars : jstring) (i braceCount : Z)
    (inString escapeNext : bool) :
  matchBrace chars i braceCount inString escapeNext = -1
  ∨ i < matchBrace chars i braceCount inString escapeNext ≤ i + len chars.
Proof.
  revert i braceCount inString escapeNext.
  induction chars as [|char rest IH]; intros i braceCount inString escapeNext;
    simpl; [by left|].
  rewrite len_cons. pose proof (len_nonneg rest) as Hrest.
  assert (∀ b s e, matchBrace rest (i + 1) b s e = -1
                   ∨ i < matchBrace rest (i + 1) b s e ≤ i + (len rest + 1)) as Hnext.
  { intros b s e. destruct (IH (i + 1) b s e); [by left | right; lia]. }
  repeat (match goal with |- context [if ?b then _ else _] => destruct b end);
    try apply Hnext.
  right. lia.
Qed.

Lemma scanWindow_length (jsonString : jstring) (errorPos currentPos : Z) :
  len (scanWindow jsonString errorPos currentPos)
  ≤ Z.max 0 (Z.min (len jsonString) (errorPos + 100) - currentPos).
Proof.
  unfold scanWindow, len. rewrite length_take. lia.
Qed.

Lemma findObjectEnd_bounds (jsonString : jstring) (errorPos currentPos : Z) :
  findObjectEnd jsonString errorPos currentPos = -1
  ∨ currentPos < findObjectEnd jsonString errorPos currentPos
    ≤ Z.min (len jsonString) (errorPos + 100).
Proof.
  unfold findObjectEnd.
  pose proof (scanWindow_length jsonString errorPos currentPos) as Hw.
  destruct (matchBrace_bounds (scanWindow jsonString errorPos currentPos)
              currentPos 0 false false) as [Hnone|Hsome]; [by left|].
  right. lia.
Qed.

(** Every turn of the loop that does not end it moves the position
    forward, and not beyond the end of the text. *)
Lemma scanStep_advances (jsonString : jstring) (errorPos currentPos : Z)
    (matches : list Match) (currentPos' : Z) (matches' : list Match) :
  0 ≤ currentPos →
  scanStep jsonString errorPos currentPos matches = Continue currentPos' matches' →
  currentPos < currentPos' ≤ len jsonString.
Proof.
  intros Hpos. unfold scanStep.
  pose proof (skipSeparators_bounds
                (drop (Z.to_nat currentPos) jsonString) currentPos) as [Hlo _].
  set (p := skipSeparators (drop (Z.to_nat currentPos) jsonString) currentPos) in *.
  destruct (len jsonString <=? p) eqn:Hend; [done|].
  apply Z.leb_gt in Hend.
  destruct (charAt jsonString p) as [c|]; [|intros [= <- _]; lia].
  destruct (isChar "{" c); [|intros [= <- _]; lia].
  destruct (0 <? findObjectEnd jsonString errorPos p) eqn:Hfound; [|done].
  apply Z.ltb_lt in Hfound.
  destruct (isActionItem _); intros [= <- _]; [|lia].
  destruct (findObjectEnd_bounds jsonString errorPos p); lia.
Qed.

(** The loop ends within as many turns as there are code units left. *)
Lemma scanLoop_terminates (fuel : nat) (jsonString : jstring)
    (errorPos currentPos : Z) (matches : list Match) :
  0 ≤ currentPos →
  len jsonString - currentPos ≤ Z.of_nat fuel →
  ∃ found, scanLoop fuel jsonString errorPos currentPos matches = Some found.
Proof.
  revert currentPos matches.
  induction fuel as [|fuel IH]; intros currentPos matches Hpos Hfuel; simpl.
  - destruct (currentPos <? errorPos); simpl; [|eauto].
    destruct (currentPos <? len jsonString) eqn:Hlt; [|eauto].
    apply Z.ltb_lt in Hlt. lia.
  - destruct ((currentPos <? errorPos) && (currentPos <? len jsonString));
      [|eauto].
    destruct (scanStep jsonString errorPos currentPos matches)
      as [currentPos' matches'|matches'] eqn:Hstep; [|eauto].
    apply scanStep_advances in Hstep as [Hadv Hle]; [|done].
    apply IH; lia.
Qed.

Lemma scanItems_terminates (jsonString : jstring) (errorPos arrayContentStart : Z) :
  0 ≤ arrayContentStart →
  ∃ found, scanItems jsonString errorPos arrayContentStart = Some found.
Proof.
  intros Hstart. apply scanLoop_terminates; [done|]. unfold len. lia.
Qed.

(** What a turn that goes on has done: skipped separators up to [q], then
    either moved one code unit on, or accepted the object that starts at
    [q] and moved to its end. *)
Lemma scanStep_cases (jsonString : jstring) (errorPos currentPos : Z)
    (matches : list Match) (currentPos' : Z) (matches' : list Match) :
  scanStep jsonString errorPos currentPos matches = Continue currentPos' matches' →
  let q := skipSeparators (drop (Z.to_nat currentPos) jsonString) currentPos in
  (currentPos' = q + 1 ∧ matches' = matches)
  ∨ (currentPos' = findObjectEnd jsonString errorPos q
     ∧ q < currentPos'
     ∧ matches' = matches ++ [{| matched := substring jsonString q currentPos';
                                 index := q |}]
     ∧ isActionItem (substring jsonString q currentPos') = true).
Proof.
  unfold scanStep.
  set (q := skipSeparators (drop (Z.to_nat currentPos) jsonString) currentPos).
  simpl. destruct (len jsonString <=? q); [done|].
  destruct (charAt jsonString q) as [c|]; [|intros [= <- <-]; by left].
  destruct (isChar "{" c); [|intros [= <- <-]; by left].
  destruct (0 <? findObjectEnd jsonString errorPos q) eqn:Hfound; [|done].
  apply Z.ltb_lt in Hfound.
  destruct (isActionItem _) eqn:Hitem; intros [= <- <-]; [right | by left].
  destruct (findObjectEnd_bounds jsonString errorPos q) as [Hnone|Hin]; [lia|].
  repeat split; [lia | done].
Qed.

Section Termination.

Context {engine : Engine}.

Lemma validate_returns_or_throws (parsed : Json.value number) : validate parsed ≠ Diverges.
Proof.
  unfold validate.
  repeat (match goal with
          | |- context [match ?x with _ => _ end] => destruct x
          end); discriminate.
Qed.

Lemma repair_returns_or_throws (jsonString message : jstring) (errorPos : Z) :
  result (repair jsonString message errorPos) ≠ Diverges.
Proof.
  unfold repair.
  destruct (0 <? indexOf (jq "'actionItems'") jsonString 0); [|discriminate].
  destruct (0 <? indexOf (js "[") jsonString _) eqn:Harray; [|discriminate].
  apply Z.ltb_lt in Harray.
  destruct (scanItems_terminates jsonString errorPos
              (indexOf (js "[") jsonString
                 (indexOf (jq "'actionItems'") jsonString 0) + 1)) as [found ->];
    [lia|].
  destruct (0 <? length found)%nat; [|discriminate].
  destruct (JSON_parse _); simpl; [discriminate | apply validate_returns_or_throws].
Qed.

Lemma parseResponse_returns_or_throws (response : jstring) :
  result (parseResponse response) ≠ Diverges.
Proof.
  unfold parseResponse, retry.
  destruct (extractJson response) as [jsonMatch|]; [|discriminate].
  destruct (JSON_parse (removeTrailingCommas jsonMatch)) as [message|parsed];
    [|apply validate_returns_or_throws].
  destruct (truncatedAt _ _); [apply repair_returns_or_throws|].
  destruct (JSON_parse _); simpl; [discriminate | apply validate_returns_or_throws].
Qed.

End Termination.

(** C10: the scan of the truncation repair ends on every text and every
    error position.  A turn of the loop that does not end it moves the
    position strictly forward: past the separators and then one code unit
    on, or to the end of the object it accepted.  The brace counter visits
    no code unit at or beyond [errorPos + 100].  So the loop ends within
    as many turns as the text has code units, and [parseResponse] always
    returns or throws. *)
Theorem scan_terminates :
  (∀ jsonString errorPos currentPos matches currentPos' matches',
      0 ≤ currentPos →
      scanStep jsonString errorPos currentPos matches
      = Continue currentPos' matches' →
      currentPos < currentPos' ≤ len jsonString
      ∧ (currentPos'
         = skipSeparators (drop (Z.to_nat currentPos) jsonString) currentPos + 1
         ∨ currentPos'
           = findObjectEnd jsonString errorPos
               (skipSeparators (drop (Z.to_nat currentPos) jsonString) currentPos)))
  ∧ (∀ jsonString errorPos currentPos,
      len (scanWindow jsonString errorPos currentPos)
      ≤ Z.max 0 (Z.min (len jsonString) (errorPos + 100) - currentPos)
      ∧ (findObjectEnd jsonString errorPos currentPos = -1
         ∨ currentPos < findObjectEnd jsonString errorPos currentPos
           ≤ Z.min (len jsonString) (errorPos + 100)))
  ∧ (∀ jsonString errorPos currentPos matches,
      0 ≤ currentPos →
      ∃ found,
        scanLoop (length jsonString) jsonString errorPos currentPos matches
        = Some found)
  ∧ (∀ (engine : Engine) (response : jstring),
      result (parseResponse response) ≠ Diverges).
Proof.
  refine (conj _ (conj _ (conj _ _))).
  - intros jsonString errorPos currentPos matches currentPos' matches' Hpos Hstep.
    split; [by eapply scanStep_advances|].
    apply scanStep_cases in Hstep. simpl in Hstep. naive_solver.
  - intros. split; [apply scanWindow_length | apply findObjectEnd_bounds].
  - intros. apply scanLoop_terminates; [done | unfold len; lia].
  - intros. apply parseResponse_returns_or_throws.
Qed.

(** ** What the scan accepts (C1) *)

Lemma scanStep_accepts (jsonString : jstring) (errorPos currentPos : Z)
    (matches : list Match) :
  Forall (accepted jsonString errorPos) matches →
  match scanStep jsonString errorPos currentPos matches with
  | Continue _ matches' | Break matches' =>
      Forall (accepted jsonString errorPos) matches'
  end.
Proof.
  intros Hacc. unfold scanStep.
  set (q := skipSeparators (drop (Z.to_nat currentPos) jsonString) currentPos).
  destruct (len jsonString <=? q); [done|].
  destruct (charAt jsonString q) as [c|] eqn:Hc; [|done].
  destruct (isChar "{" c) eqn:Hbrace; [|done].
  destruct (0 <? findObjectEnd jsonString errorPos q) eqn:Hfound; [|done].
  apply Z.ltb_lt in Hfound.
  destruct (isActionItem _) eqn:Hitem; [|done].
  apply Forall_app. split; [done|]. constructor; [|constructor].
  unfold isActionItem in Hitem. apply andb_true_iff in Hitem as [Htask Hprio].
  unfold accepted. simpl.
  destruct (findObjectEnd_bounds jsonString errorPos q) as [Hnone|Hin]; [lia|].
  repeat split; eauto; lia.
Qed.

Lemma scanLoop_accepts (fuel : nat) (jsonString : jstring)
    (errorPos currentPos : Z) (matches found : list Match) :
  scanLoop fuel jsonString errorPos currentPos matches = Some found →
  Forall (accepted jsonString errorPos) matches →
  Forall (accepted jsonString errorPos) found.
Proof.
  revert currentPos matches.
  induction fuel as [|fuel IH]; intros currentPos matches; simpl;
    destruct ((currentPos <? errorPos) && (currentPos <? len jsonString));
    try (by intros [= <-]); try done.
  intros Hloop Hacc.
  pose proof (scanStep_accepts jsonString errorPos currentPos matches Hacc) as Hstep.
  destruct (scanStep jsonString errorPos currentPos matches)
    as [currentPos' matches'|matches']; [by eapply IH | by injection Hloop as <-].
Qed.

Lemma charAt_drop (s : jstring) (i : Z) (c : N) :
  charAt s i = Some c →
  0 ≤ i < len s ∧ drop (Z.to_nat i) s = c :: drop (S (Z.to_nat i)) s.
Proof.
  unfold charAt. destruct (i <? 0) eqn:Hneg; [done|].
  apply Z.ltb_ge in Hneg. intros Hc. split.
  - apply lookup_lt_Some in Hc. unfold len. lia.
  - by apply drop_S.
Qed.

(** A complete object without both keys does not stop the scan: it goes
    on from the code unit after the opening brace. *)
Lemma scanStep_rejects (jsonString : jstring) (errorPos currentPos : Z)
    (matches : list Match) (c : N) :
  charAt jsonString currentPos = Some c →
  isChar "{" c = true →
  0 < findObjectEnd jsonString errorPos currentPos →
  isActionItem (substring jsonString currentPos
                  (findObjectEnd jsonString errorPos currentPos)) = false →
  scanStep jsonString errorPos currentPos matches
  = Continue (currentPos + 1) matches.
Proof.
  intros Hc Hbrace Hend Hitem. unfold scanStep.
  destruct (charAt_drop _ _ _ Hc) as [Hrange Hdrop].
  rewrite Hdrop. apply N.eqb_eq in Hbrace as ->. simpl skipSeparators.
  replace (len jsonString <=? currentPos) with false by (symmetry; apply Z.leb_gt; lia).
  rewrite Hc. simpl. apply Z.ltb_lt in Hend. by rewrite Hend, Hitem.
Qed.

(** A turn ends the loop only at the end of the text or at an opening
    brace that the brace counter cannot close. *)
Lemma scanStep_breaks (jsonString : jstring) (errorPos currentPos : Z)
    (matches matches' : list Match) :
  scanStep jsonString errorPos currentPos matches = Break matches' →
  matches' = matches
  ∧ (len jsonString
     ≤ skipSeparators (drop (Z.to_nat currentPos) jsonString) currentPos
     ∨ ∃ c,
         charAt jsonString
           (skipSeparators (drop (Z.to_nat currentPos) jsonString) currentPos)
         = Some c
         ∧ isChar "{" c = true
         ∧ findObjectEnd jsonString errorPos
             (skipSeparators (drop (Z.to_nat currentPos) jsonString) currentPos)
           ≤ 0).
Proof.
  unfold scanStep.
  set (q := skipSeparators (drop (Z.to_nat currentPos) jsonString) currentPos).
  destruct (len jsonString <=? q) eqn:Hend.
  - apply Z.leb_le in Hend. intros [= <-]. by split; [|left].
  - destruct (charAt jsonString q) as [c|]; [|done].
    destruct (isChar "{" c) eqn:Hbrace; [|done].
    destruct (0 <? findObjectEnd jsonString errorPos q) eqn:Hfound.
    + by destruct (isActionItem _).
    + apply Z.ltb_ge in Hfound. intros [= <-]. split; [done|]. right. eauto.
Qed.

(** C1, amended: the scan accepts an object, from its opening brace to
    its balancing brace, only if its text holds both the task key and the
    priority key; a complete object that lacks one of them is not
    accepted, and the scan does not stop there: it goes on from the code
    unit after that object's opening brace, so that objects further on
    can still be accepted.  A turn stops the scan only at the end of the
    text or at an opening brace whose closing brace is not found. *)
Theorem scan_accepts_action_items (jsonString : jstring)
    (errorPos arrayContentStart : Z) (found : list Match) :
  scanItems jsonString errorPos arrayContentStart = Some found →
  Forall (accepted jsonString errorPos) found
  ∧ (∀ currentPos matches c,
       charAt jsonString currentPos = Some c →
       isChar "{" c = true →
       0 < findObjectEnd jsonString errorPos currentPos →
       isActionItem (substring jsonString currentPos
                       (findObjectEnd jsonString errorPos currentPos)) = false →
       scanStep jsonString errorPos currentPos matches
       = Continue (currentPos + 1) matches)
  ∧ (∀ currentPos matches matches',
       scanStep jsonString errorPos currentPos matches = Break matches' →
       matches' = matches
       ∧ (len jsonString
          ≤ skipSeparators (drop (Z.to_nat currentPos) jsonString) currentPos
          ∨ ∃ c,
              charAt jsonString
                (skipSeparators (drop (Z.to_nat currentPos) jsonString) currentPos)
              = Some c
              ∧ isChar "{" c = true
              ∧ findObjectEnd jsonString errorPos
                  (skipSeparators (drop (Z.to_nat currentPos) jsonString)
                     currentPos)
                ≤ 0)).
Proof.
  intros Hscan. refine (conj _ (conj _ _)).
  - eapply scanLoop_accepts; [exact Hscan | constructor].
  - intros. by eapply scanStep_rejects.
  - intros. by apply scanStep_breaks.
Qed.

Lemma scan_accepts_action_items_witness :
  Forall (accepted wrongShapeFirst 95)
    [{| matched := jq "{'task':'a','priority':'High'}"; index := 47 |}]
  ∧ scanStep wrongShapeFirst 95 39 [] = Continue 40 [].
Proof.
  destruct (scan_accepts_action_items wrongShapeFirst 95 39
              [{| matched := jq "{'task':'a','priority':'High'}"; index := 47 |}])
    as (Hacc & Hrej & _).
  - vm_compute. reflexivity.
  - split; [exact Hacc|].
    apply (Hrej 39 [] 123%N); vm_compute; reflexivity.
Defined.

(** C1, as stated, fails: the scan does not stop at the complete object
    [{"x":1}], which lacks both keys; the object after it is accepted and
    ends up in the brief. *)
Lemma scan_goes_on_after_wrong_shape :
  V8.parse wrongShapeFirst
  = inl (js "Expected ':' after property name in JSON at position 95")
  ∧ truncatedAt
      (errorPosition (js "Expected ':' after property name in JSON at position 95"))
      wrongShapeFirst
    = Some 95
  ∧ substring wrongShapeFirst 39 46 = jq "{'x':1}"
  ∧ findObjectEnd wrongShapeFirst 95 39 = 46
  ∧ isActionItem (jq "{'x':1}") = false
  ∧ scanItems wrongShapeFirst 95 39
    = Some [{| matched := jq "{'task':'a','priority':'High'}"; index := 47 |}]
  ∧ result (parseResponse (engine := V8.engine) wrongShapeFirst)
    = Returns {| executiveSummary := js "s";
                 actionItems := [{| task := js "a"; priority := High |}] |}.
Proof. repeat split. Qed.

(** ** Extraction (C2) *)

Lemma upToLastBrace_None (s : jstring) :
  upToLastBrace s = None ↔ hasClose s = false.
Proof.
  induction s as [|c rest IH]; simpl; [done|].
  destruct (upToLastBrace rest) as [t|].
  - split; [done|]. intros H. apply orb_false_iff in H as [_ H].
    by apply IH in H.
  - destruct (isChar "}" c); simpl; [done|]. split; [intros _|done].
    by apply IH.
Qed.

Lemma upToLastBrace_split (s t : jstring) :
  upToLastBrace s = Some t →
  ∃ body post, t = body ++ js "}" ∧ s = t ++ post ∧ hasClose post = false.
Proof.
  revert t. induction s as [|c rest IH]; intros t; simpl; [done|].
  destruct (upToLastBrace rest) as [t'|] eqn:Hrest.
  - destruct (IH t' eq_refl) as (body & post & -> & Hr & Hpost).
    intros [= <-]. exists (c :: body), post. by rewrite Hr at 1.
  - apply upToLastBrace_None in Hrest.
    destruct (isChar "}" c) eqn:Hc; [|done].
    apply N.eqb_eq in Hc as ->. intros [= <-]. by exists [], rest.
Qed.

Lemma upToLastBrace_last (body post : jstring) :
  hasClose post = false →
  upToLastBrace ((body ++ js "}") ++ post) = Some (body ++ js "}").
Proof.
  intros Hpost. induction body as [|c body IH]; simpl.
  - apply upToLastBrace_None in Hpost. by rewrite Hpost.
  - simpl in IH. by rewrite IH.
Qed.

Lemma matchObject_hasSpan (s : jstring) :
  matchObject s = None ↔ hasSpan s = false.
Proof.
  unfold matchObject. induction s as [|c rest IH]; simpl; [done|].
  destruct (isChar "{" c); simpl; [|done].
  rewrite <- upToLastBrace_None. by destruct (upToLastBrace rest).
Qed.

(** The match is the text from the first opening brace to the last
    closing brace. *)
Lemma matchObject_Some (s m : jstring) :
  matchObject s = Some m
  ↔ ∃ pre body post,
      s = pre ++ m ++ post ∧ m = js "{" ++ body ++ js "}"
      ∧ Forall (fun c => isChar "{" c = false) pre
      ∧ Forall (fun c => isChar "}" c = false) post.
Proof.
  unfold matchObject. revert m. induction s as [|c rest IH]; intros m.
  - simpl. split; [done|]. intros (pre & body & post & Hs & -> & _).
    by destruct pre.
  - simpl. destruct (isChar "{" c) eqn:Hc; simpl.
    + apply N.eqb_eq in Hc as ->. split.
      * destruct (upToLastBrace rest) as [t|] eqn:Ht; [|done]. intros [= <-].
        apply upToLastBrace_split in Ht as (body & post & -> & -> & Hpost).
        exists [], body, post. repeat split; [constructor|].
        apply Forall_forall. intros x Hx. unfold hasClose in Hpost.
        destruct (isChar "}" x) eqn:Hrb; [|done].
        apply list_elem_of_In in Hx.
        assert (existsb (isChar "}") post = true) as Hex
          by (apply existsb_exists; eauto).
        congruence.
      * intros (pre & body & post & Hs & -> & Hpre & Hpost).
        destruct pre as [|c' pre]; simpl in Hs.
        -- injection Hs as ->.
           assert (upToLastBrace ((body ++ js "}") ++ post) = Some (body ++ js "}"))
             as ->; [|done].
           apply upToLastBrace_last.
           unfold hasClose. apply not_true_is_false. intros Hex.
           apply existsb_exists in Hex as (x & Hx & Hrb).
           apply list_elem_of_In in Hx.
           rewrite Forall_forall in Hpost. by rewrite Hpost in Hrb.
        -- injection Hs as <- _. by inversion Hpre.
    + rewrite IH. split.
      * intros (pre & body & post & -> & -> & Hpre & Hpost).
        exists (c :: pre), body, post. repeat split; [|done]. by constructor.
      * intros (pre & body & post & Hs & -> & Hpre & Hpost).
        destruct pre as [|c' pre]; simpl in Hs.
        -- injection Hs as -> _. done.
        -- injection Hs as <- ->. inversion Hpre; subst.
           by exists pre, body, post.
Qed.

Lemma hasClose_sublist (t s : jstring) :
  t `sublist_of` s → hasClose t = true → hasClose s = true.
Proof.
  induction 1 as [|x t s _ IH|x t s _ IH]; simpl; [done| |].
  - destruct (isChar "}" x); simpl; [done | exact IH].
  - intros Ht. rewrite (IH Ht). apply orb_true_r.
Qed.

Lemma hasSpan_hasClose (s : jstring) : hasSpan s = true → hasClose s = true.
Proof.
  induction s as [|c rest IH]; simpl; [done|].
  destruct (isChar "{" c); intros H; [|apply IH in H]; rewrite H;
    apply orb_true_r.
Qed.

Lemma hasSpan_sublist (t s : jstring) :
  t `sublist_of` s → hasSpan t = true → hasSpan s = true.
Proof.
  induction 1 as [|x t s Hsub IH|x t s Hsub IH]; simpl; [done| |].
  - destruct (isChar "{" x); [by apply hasClose_sublist | exact IH].
  - intros Ht. destruct (isChar "{" x); [|by apply IH].
    apply hasSpan_hasClose. by apply IH.
Qed.

Lemma removeFence_sublist (fence : jstring) (skipping : nat) (inSpace : bool)
    (s : jstring) :
  removeFence fence skipping inSpace s `sublist_of` s.
Proof.
  revert skipping inSpace. induction s as [|c rest IH]; intros skipping inSpace;
    simpl; [constructor|].
  destruct skipping; [|by constructor].
  destruct (inSpace && isWhiteSpace c); [by constructor|].
  destruct (startsWith fence (c :: rest)); by constructor.
Qed.

(** The second attempt cannot succeed where the first failed: stripping
    the fences removes code units and adds none. *)
Lemma extractJson_matchObject (response : jstring) :
  extractJson response = matchObject response.
Proof.
  unfold extractJson. destruct (matchObject response) eqn:Hfirst; [done|].
  apply matchObject_hasSpan. apply matchObject_hasSpan in Hfirst.
  apply not_true_is_false. intros Hspan.
  apply (hasSpan_sublist _ response) in Hspan; [congruence|].
  unfold stripFences. etrans; apply removeFence_sublist.
Qed.

Ltac by_cases_of_result :=
  repeat (match goal with
          | |- context [match ?x with _ => _ end] => destruct x
          end); simpl; discriminate.

Section Extraction.

Context {engine : Engine}.

Lemma validate_not_NoJsonFound (parsed : Json.value number) :
  validate parsed ≠ Throws NoJsonFound.
Proof. unfold validate. by_cases_of_result. Qed.

Lemma repair_not_NoJsonFound (jsonString message : jstring) (errorPos : Z) :
  result (repair jsonString message errorPos) ≠ Throws NoJsonFound.
Proof.
  unfold repair.
  destruct (0 <? indexOf (jq "'actionItems'") jsonString 0); [|discriminate].
  destruct (0 <? indexOf (js "[") jsonString _); [|discriminate].
  destruct (scanItems _ _ _) as [found|]; [|discriminate].
  destruct (0 <? length found)%nat; [|discriminate].
  destruct (JSON_parse _); simpl; [discriminate | apply validate_not_NoJsonFound].
Qed.

Lemma parseResponse_NoJsonFound (response : jstring) :
  result (parseResponse response) = Throws NoJsonFound
  ↔ extractJson response = None.
Proof.
  unfold parseResponse, retry.
  destruct (extractJson response) as [jsonMatch|]; [|done].
  split; [|done]. intros Hthrown. exfalso. revert Hthrown.
  destruct (JSON_parse (removeTrailingCommas jsonMatch)) as [message|parsed];
    [|apply validate_not_NoJsonFound].
  destruct (truncatedAt _ _); [apply repair_not_NoJsonFound|].
  destruct (JSON_parse _); simpl; [discriminate | apply validate_not_NoJsonFound].
Qed.

End Extraction.

(** C2, amended: the extraction takes the text from the first opening
    brace to the last closing brace after it (the regular expression is
    greedy and counts nothing), so no closing brace, inside a string
    literal or not, ends the span before a later one; when there is no
    such span the fences are stripped and the match is tried once more,
    which cannot succeed, and [parseResponse] throws 'No JSON found'
    whatever the engine, that is, without parsing anything; it throws
    that error in no other case. *)
Theorem extractJson_greedy (engine : Engine) (response : jstring) :
  extractJson response = matchObject response
  ∧ (∀ m, extractJson response = Some m
          ↔ ∃ pre body post,
              response = pre ++ m ++ post ∧ m = js "{" ++ body ++ js "}"
              ∧ Forall (fun c => isChar "{" c = false) pre
              ∧ Forall (fun c => isChar "}" c = false) post)
  ∧ (extractJson response = None
     ↔ parseResponse response = {| console := []; result := Throws NoJsonFound |}).
Proof.
  refine (conj _ (conj _ _)).
  - apply extractJson_matchObject.
  - intros m. rewrite extractJson_matchObject. apply matchObject_Some.
  - split.
    + intros Hnone. unfold parseResponse. by rewrite Hnone.
    + intros Hout. apply parseResponse_NoJsonFound. by rewrite Hout.
Qed.

(** C2, as stated, fails: the span extracted is not the first balanced
    one. *)
Lemma extraction_is_not_balanced :
  extractJson (jq "{'a':1} and {'b':2}") = Some (jq "{'a':1} and {'b':2}")
  ∧ firstBalancedSpan (jq "{'a':1} and {'b':2}") = Some (jq "{'a':1}").
Proof. split; reflexivity. Qed.

(** ** Truncation repair (C5) *)

(** The test of line 166: the message carries a position, which is not
    zero and lies at most fifty code units before the end of the text. *)
Lemma truncatedAt_window (message jsonString : jstring) (errorPos : Z) :
  truncatedAt (errorPosition message) jsonString = Some errorPos
  ↔ errorPosition message = Some errorPos
    ∧ errorPos ≠ 0 ∧ len jsonString - 50 ≤ errorPos.
Proof.
  unfold truncatedAt. destruct (errorPosition message) as [p|]; [|naive_solver].
  destruct (p =? 0) eqn:Hzero; simpl.
  - apply Z.eqb_eq in Hzero. naive_solver.
  - apply Z.eqb_neq in Hzero.
    destruct (len jsonString - 50 <=? p) eqn:Hwin.
    + apply Z.leb_le in Hwin. naive_solver.
    + apply Z.leb_gt in Hwin. split; [done|]. intros ([= ->] & _ & ?). lia.
Qed.

Section Repair.

Context {engine : Engine}.

Lemma parseResponse_repairs (response jsonMatch message : jstring) (errorPos : Z) :
  extractJson response = Some jsonMatch →
  JSON_parse (removeTrailingCommas jsonMatch) = inl message →
  truncatedAt (errorPosition message) (removeTrailingCommas jsonMatch)
  = Some errorPos →
  parseResponse response
  = repair (removeTrailingCommas jsonMatch) message errorPos.
Proof.
  intros Hextract Hparse Htrunc. unfold parseResponse.
  by rewrite Hextract, Hparse, Htrunc.
Qed.

(** The four ways the repair ends. *)
Lemma repair_cases (jsonString message : jstring) (errorPos : Z) :
  let actionItemsStart := indexOf (jq "'actionItems'") jsonString 0 in
  let arrayStart := indexOf (js "[") jsonString actionItemsStart in
  let out := repair jsonString message errorPos in
  if (0 <? actionItemsStart) && (0 <? arrayStart) then
    ∃ found,
      scanItems jsonString errorPos (arrayStart + 1) = Some found
      ∧ match found with
        | [] => result out = Throws (TruncatedNoItems message)
        | _ :: _ =>
            match JSON_parse (fixedJson jsonString arrayStart found) with
            | inl _ => result out = Throws (Truncated message)
            | inr parsed =>
                result out = validate parsed
                ∧ console out
                  = [WarnTruncatedAt errorPos (len jsonString); WarnAttempting;
                     LogFound (length found); LogKept (length found); LogFixed]
            end
        end
  else result out = Throws (Truncated message).
Proof.
  simpl. unfold repair.
  destruct (0 <? indexOf (jq "'actionItems'") jsonString 0); simpl; [|done].
  destruct (0 <? indexOf (js "[") jsonString _) eqn:Harray; [|done].
  apply Z.ltb_lt in Harray.
  destruct (scanItems_terminates jsonString errorPos
              (indexOf (js "[") jsonString
                 (indexOf (jq "'actionItems'") jsonString 0) + 1)) as [found Hfound];
    [lia|].
  exists found. rewrite Hfound. split; [done|].
  destruct found as [|m found]; simpl; [done|].
  by destruct (JSON_parse _).
Qed.

End Repair.

(** C5, amended: when the strict parse of the extracted span fails with
    an error position that is not zero and lies in the last fifty code
    units, [parseResponse] goes into the truncation repair.  It throws the truncated error when the
    items key or its opening bracket is not found, when no complete item
    is recovered, or when the rebuilt text does not parse.  Otherwise, at
    least one item being recovered and the rebuilt text parsing, it logs
    that the JSON was fixed and hands the reparsed object to the shape
    validation, and it succeeds if and only if that validation does. *)
Theorem truncation_repair_outcome (engine : Engine)
    (response jsonMatch message : jstring) (errorPos : Z) :
  extractJson response = Some jsonMatch →
  JSON_parse (removeTrailingCommas jsonMatch) = inl message →
  truncatedAt (errorPosition message) (removeTrailingCommas jsonMatch)
  = Some errorPos →
  let jsonString := removeTrailingCommas jsonMatch in
  let arrayStart :=
    indexOf (js "[") jsonString (indexOf (jq "'actionItems'") jsonString 0) in
  let out := parseResponse response in
  (errorPosition message = Some errorPos
   ∧ errorPos ≠ 0 ∧ len jsonString - 50 ≤ errorPos)
  ∧ (indexOf (jq "'actionItems'") jsonString 0 ≤ 0 ∨ arrayStart ≤ 0 →
     result out = Throws (Truncated message))
  ∧ (0 < indexOf (jq "'actionItems'") jsonString 0 → 0 < arrayStart →
     ∃ found,
       scanItems jsonString errorPos (arrayStart + 1) = Some found
       ∧ (found = [] → result out = Throws (TruncatedNoItems message))
       ∧ (found ≠ [] →
          ∀ e, JSON_parse (fixedJson jsonString arrayStart found) = inl e →
               result out = Throws (Truncated message))
       ∧ (found ≠ [] →
          ∀ parsed, JSON_parse (fixedJson jsonString arrayStart found) = inr parsed →
                    result out = validate parsed ∧ In LogFixed (console out)))
  ∧ (∀ brief, result out = Returns brief →
       In LogFixed (console out)
       ∧ ∃ found parsed,
           scanItems jsonString errorPos (arrayStart + 1) = Some found
           ∧ found ≠ []
           ∧ JSON_parse (fixedJson jsonString arrayStart found) = inr parsed
           ∧ validate parsed = Returns brief).
Proof.
  intros Hextract Hparse Htrunc. simpl.
  split; [by apply truncatedAt_window|].
  rewrite (parseResponse_repairs _ _ _ _ Hextract Hparse Htrunc).
  pose proof (repair_cases (removeTrailingCommas jsonMatch) message errorPos)
    as Hcases. simpl in Hcases.
  set (jsonString := removeTrailingCommas jsonMatch) in *.
  set (a := indexOf (jq "'actionItems'") jsonString 0) in *.
  set (b := indexOf (js "[") jsonString a) in *.
  destruct (0 <? a) eqn:Ha; simpl in Hcases;
    [destruct (0 <? b) eqn:Hb|]; simpl in Hcases.
  - apply Z.ltb_lt in Ha, Hb. destruct Hcases as (found & Hscan & Hend).
    refine (conj _ (conj _ _)).
    + lia.
    + intros _ _. exists found. split; [done|].
      destruct found as [|m found].
      * refine (conj _ (conj _ _)); done.
      * destruct (JSON_parse (fixedJson jsonString b (m :: found)))
          as [e|parsed].
        -- refine (conj _ (conj _ _)); [done | intros; exact Hend |].
           intros _ parsed' [=].
        -- destruct Hend as [Hres Hlog].
           refine (conj _ (conj _ _)); [done | intros _ e [=] |].
           intros _ parsed' [= <-]. split; [done|]. rewrite Hlog. simpl. tauto.
    + intros brief Hret. destruct found as [|m found]; [congruence|].
      destruct (JSON_parse (fixedJson jsonString b (m :: found)))
        as [e|parsed] eqn:Hfixed; [congruence|].
      destruct Hend as [Hres Hlog]. split; [rewrite Hlog; simpl; tauto|].
      exists (m :: found), parsed. rewrite <- Hres. done.
  - apply Z.ltb_ge in Hb. refine (conj _ (conj _ _)); [done|lia|congruence].
  - apply Z.ltb_ge in Ha. refine (conj _ (conj _ _)); [done|lia|congruence].
Qed.

Lemma truncation_repair_outcome_witness :
  In LogFixed (console (parseResponse (engine := V8.engine) wrongShapeFirst)).
Proof.
  destruct (truncation_repair_outcome V8.engine wrongShapeFirst wrongShapeFirst
              (js "Expected ':' after property name in JSON at position 95") 95)
    as (_ & _ & _ & Hsuccess); [vm_compute; reflexivity ..|].
  apply (Hsuccess {| executiveSummary := js "s";
                     actionItems := [{| task := js "a"; priority := High |}] |}).
  vm_compute. reflexivity.
Defined.

(** C5, as stated, fails: an item is recovered and the rebuilt text
    parses, yet [parseResponse] does not succeed, because the rebuilt
    object has no summary and the shape validation rejects it. *)
Lemma repaired_yet_rejected :
  extractJson summaryLost = Some summaryLost
  ∧ removeTrailingCommas summaryLost = summaryLost
  ∧ V8.parse summaryLost
    = inl (js "Expected ',' or ']' after array element in JSON at position 47")
  ∧ truncatedAt (Some 47) summaryLost = Some 47
  ∧ scanItems summaryLost 47 16
    = Some [{| matched := jq "{'task':'a','priority':'High'}"; index := 16 |}]
  ∧ V8.parse
      (fixedJson summaryLost 15
         [{| matched := jq "{'task':'a','priority':'High'}"; index := 16 |}])
    = inr (JObject
             [(js "actionItems",
               JArray [JObject [(js "task", JString (js "a"));
                                (js "priority", JString (js "High"))]])])
  ∧ result (parseResponse (engine := V8.engine) summaryLost)
    = Throws InvalidStructure.
Proof. repeat split. Qed.

(** ** Shape validation (C6) *)

Section Validation.

Context {engine : Engine}.

Lemma normalizeItem_sanitize (item : Json.value number) :
  item ≠ JNull →
  normalizeItem item
  = kept ← sanitizeItem item;
    Some (match kept with a :: _ => Some a | [] => None end).
Proof.
  intros Hnull. unfold normalizeItem, sanitizeItem.
  destruct item as [|b|n|s|items|members]; try done. unfold get.
  destruct (lookupLast (js "task") members) as [t|]; [|done].
  destruct (truthy (Some t)); [|done]. simpl. by destruct (toString t).
Qed.

Lemma sanitizeItem_short (item : Json.value number) (kept : list ActionItem) :
  sanitizeItem item = Some kept →
  kept = match kept with a :: _ => [a] | [] => [] end.
Proof.
  unfold sanitizeItem. destruct item; try by intros [= <-].
  destruct (lookupLast _ _) as [t|]; [|by intros [= <-]].
  destruct (truthy (Some t)); [|by intros [= <-]].
  destruct (toString t); [by intros [= <-] | done].
Qed.

Lemma normalizeItems_sanitize (items : list (Json.value number)) :
  Forall (fun item => item ≠ JNull) items →
  normalizeItems items = @concat _ <$> mapM sanitizeItem items.
Proof.
  induction 1 as [|item items Hitem _ IH]; simpl; [done|].
  rewrite (normalizeItem_sanitize item Hitem), IH.
  destruct (sanitizeItem item) as [kept|] eqn:Hkept; [|done]. simpl.
  destruct (mapM sanitizeItem items) as [rest|]; [|done]. simpl.
  rewrite (sanitizeItem_short item kept Hkept). by destruct kept.
Qed.

(** The priority of an item: the one written when it is one of the three
    names, [Medium] in every other case. *)
Lemma normalizePriority_cases (p : option (Json.value number)) :
  normalizePriority p
  = match p with
    | Some (JString s) =>
        if bool_decide (s = js "High") then High
        else if bool_decide (s = js "Low") then Low
        else Medium
    | _ => Medium
    end.
Proof.
  unfold normalizePriority.
  destruct p as [[|b|n|s|items|members]|]; simpl;
    try done; try (by destruct b); try (by destruct (numberToBoolean n)).
  destruct (0 <? len s) eqn:Hs; simpl.
  - repeat case_bool_decide; naive_solver.
  - destruct s; [|done]. by repeat case_bool_decide.
Qed.

End Validation.

Section Shape.

Context {engine : Engine}.

Lemma validate_returns (members : list (jstring * Json.value number))
    (summary : Json.value number) (items : list (Json.value number)) :
  lookupLast (js "executiveSummary") members = Some summary →
  truthy (Some summary) = true →
  lookupLast (js "actionItems") members = Some (JArray items) →
  Forall (fun item => item ≠ JNull) items →
  validate (JObject members)
  = match sanitized summary items with
    | Some brief => Returns brief
    | None => Throws TypeError
    end.
Proof.
  intros Hsummary Htruthy Hitems Hnull. unfold validate, get, sanitized.
  rewrite Hsummary, Htruthy, Hitems. simpl.
  rewrite (normalizeItems_sanitize items Hnull).
  destruct (mapM sanitizeItem items) as [kept|]; [|done]. simpl.
  by destruct (toString summary).
Qed.

(** The values that always convert to a text, and the one kind that
    never does. *)
Lemma toString_cases (v : Json.value number) :
  match v with
  | JNull => toString v = Some (js "null")
  | JBool b => toString v = Some (if b then js "true" else js "false")
  | JNumber n => toString v = Some (numberToString n)
  | JString s => toString v = Some s
  | JArray items =>
      toString v
      = join (js ",")
          <$> mapM (fun item => match item with JNull => Some [] | _ => toString item end)
                items
      ∧ (toString v = None
         ↔ ∃ item, In item items ∧ item ≠ JNull ∧ toString item = None)
  | JObject members =>
      toString v
      = match lookupLast (js "toString") members with
        | Some _ => None
        | None => Some (js "[object Object]")
        end
  end.
Proof.
  destruct v as [|b|n|s|items|members]; try done.
  split; [done|]. simpl. rewrite fmap_None.
  induction items as [|item items IH]; simpl.
  - split; [done | by intros (? & [] & _)].
  - destruct (match item with JNull => Some [] | _ => toString item end)
      as [text|] eqn:Hitem; simpl.
    + destruct (mapM _ items) as [texts|] eqn:Hitems; simpl.
      * split; [done|]. intros (bad & [<-|Hin] & Hnull & Hbad).
        -- destruct item; congruence.
        -- destruct IH as [_ IH]. by discriminate IH; eauto.
      * split; [|done]. intros _. destruct IH as [IH _].
        destruct (IH eq_refl) as (bad & Hin & Hnull & Hbad). eauto.
    + split; [|done]. intros _. exists item.
      split; [by left|]. by destruct item.
Qed.

End Shape.

(** C6, amended: the validation throws the invalid-structure error when
    the summary is missing or falsy (null, false, a zero number, the empty
    string) or when the items field is not an array.  A truthy summary
    that is not a string is accepted and converted by [String].
    Otherwise, provided no element of the array is [null], the outcome
    is this: if the summary and every truthy task convert to a text, it
    returns the summary and, in order, one action item for each element
    that has a truthy task, the others being dropped; if one of them
    does not convert, it throws a TypeError.  A priority that is not one
    of High, Medium and Low, or is missing, becomes Medium; and the list
    may end up empty.  A string converts to itself; null, a boolean and a
    number always convert; an object converts, to '[object Object]',
    unless it has a member named [toString]; an array converts, to the
    texts of its elements joined by commas with nothing for [null],
    unless one of its elements does not. *)
Theorem validate_shape (engine : Engine)
    (members : list (jstring * Json.value number)) :
  (truthy (lookupLast (js "executiveSummary") members) = false →
   validate (JObject members) = Throws InvalidStructure)
  ∧ ((∀ items, lookupLast (js "actionItems") members ≠ Some (JArray items)) →
     validate (JObject members) = Throws InvalidStructure)
  ∧ (∀ summary items,
       lookupLast (js "executiveSummary") members = Some summary →
       truthy (Some summary) = true →
       lookupLast (js "actionItems") members = Some (JArray items) →
       Forall (fun item => item ≠ JNull) items →
       validate (JObject members)
       = match sanitized summary items with
         | Some brief => Returns brief
         | None => Throws TypeError
         end)
  ∧ (∀ s : jstring, truthy (Some (JString s)) = true ↔ s ≠ [])
  ∧ (∀ p, normalizePriority p
          = match p with
            | Some (JString s) =>
                if bool_decide (s = js "High") then High
                else if bool_decide (s = js "Low") then Low
                else Medium
            | _ => Medium
            end)
  ∧ (∀ v : Json.value number,
       match v with
       | JNull => toString v = Some (js "null")
       | JBool b => toString v = Some (if b then js "true" else js "false")
       | JNumber n => toString v = Some (numberToString n)
       | JString s => toString v = Some s
       | JArray items =>
           toString v
           = join (js ",")
               <$> mapM (fun item =>
                           match item with JNull => Some [] | _ => toString item end)
                     items
           ∧ (toString v = None
              ↔ ∃ item, In item items ∧ item ≠ JNull ∧ toString item = None)
       | JObject fields =>
           toString v
           = match lookupLast (js "toString") fields with
             | Some _ => None
             | None => Some (js "[object Object]")
             end
       end).
Proof.
  refine (conj _ (conj _ (conj _ (conj _ (conj _ _))))).
  - intros Hfalsy. unfold validate, get. by rewrite Hfalsy.
  - intros Hitems. unfold validate, get.
    destruct (truthy (lookupLast (js "executiveSummary") members)); [|done].
    simpl. destruct (lookupLast (js "executiveSummary") members); [|done].
    destruct (lookupLast (js "actionItems") members) as [[| | | |items|]|];
      try done.
    by destruct (Hitems items).
  - intros. by apply validate_returns.
  - intros s. simpl. apply DiffEngine.len_pos.
  - apply normalizePriority_cases.
  - apply toString_cases.
Qed.

Lemma validate_shape_witness :
  validate (engine := V8.engine)
    (JObject [(js "executiveSummary", JArray [JBool true; JNull; JString (js "ok")]);
              (js "actionItems",
               JArray [JObject [(js "task", JString (js "Do X"));
                                (js "priority", JString (js "Urgent"))];
                       JObject [(js "priority", JString (js "High"))];
                       JObject [(js "task", JObject [(js "valueOf", JNull)]);
                                (js "priority", JString (js "High"))]])])
  = Returns {| executiveSummary := js "true,,ok";
               actionItems := [{| task := js "Do X"; priority := Medium |};
                               {| task := js "[object Object]"; priority := High |}] |}.
Proof.
  destruct (validate_shape V8.engine
              [(js "executiveSummary", JArray [JBool true; JNull; JString (js "ok")]);
               (js "actionItems",
                JArray [JObject [(js "task", JString (js "Do X"));
                                 (js "priority", JString (js "Urgent"))];
                        JObject [(js "priority", JString (js "High"))];
                        JObject [(js "task", JObject [(js "valueOf", JNull)]);
                                 (js "priority", JString (js "High"))]])])
    as (_ & _ & Hreturns & _).
  rewrite (Hreturns (JArray [JBool true; JNull; JString (js "ok")])
             [JObject [(js "task", JString (js "Do X"));
                       (js "priority", JString (js "Urgent"))];
              JObject [(js "priority", JString (js "High"))];
              JObject [(js "task", JObject [(js "valueOf", JNull)]);
                       (js "priority", JString (js "High"))]]);
    [reflexivity | reflexivity | reflexivity | reflexivity |].
  repeat constructor; discriminate.
Defined.

(** C6, as stated, fails: an object whose summary is not a string is not
    rejected when the summary is truthy; it is converted. *)
Lemma summary_need_not_be_a_string :
  V8.parse (jq "{'executiveSummary':true,'actionItems':[]}")
  = inr (JObject [(js "executiveSummary", JBool true);
                  (js "actionItems", JArray [])])
  ∧ result (parseResponse (engine := V8.engine)
              (jq "{'executiveSummary':true,'actionItems':[]}"))
    = Returns {| executiveSummary := js "true"; actionItems := [] |}.
Proof. split; reflexivity. Qed.

(** An element that is [null] is not dropped: reading its [task] throws,
    and the whole response is lost. *)
Lemma null_item_throws :
  result (parseResponse (engine := V8.engine)
            (jq "{'executiveSummary':'ok','actionItems':[null]}"))
  = Throws TypeError.
Proof. reflexivity. Qed.

(** A summary or a task that is an object with a member named [toString]
    is truthy and passes the guards, and its conversion throws: the
    whole response is lost.  Without that member the object becomes
    '[object Object]'. *)
Lemma unconvertible_object_throws :
  result (parseResponse (engine := V8.engine)
            (jq "{'executiveSummary':{'toString':1},'actionItems':[]}"))
  = Throws TypeError
  ∧ result (parseResponse (engine := V8.engine)
              (jq "{'executiveSummary':'ok','actionItems':[{'task':[{'toString':1}]}]}"))
    = Throws TypeError
  ∧ result (parseResponse (engine := V8.engine)
              (jq "{'executiveSummary':{'valueOf':1},'actionItems':[]}"))
    = Returns {| executiveSummary := js "[object Object]"; actionItems := [] |}.
Proof. repeat split. Qed.

(** A summary that is a number is converted as the engine prints the
    double it denotes; a numeral that rounds to zero is falsy, and the
    response is rejected. *)
Lemma number_summary :
  map (fun numeral => (V8.numeralToString (js numeral), V8.numeralToBoolean (js numeral)))
    ["1.50"; "0.1"; "1e21"; "0.0000001"; "-0"; "1e-400"; "9007199254740993";
     "1e400"]%string
  = [(js "1.5", true); (js "0.1", true); (js "1e+21", true); (js "1e-7", true);
     (js "0", false); (js "0", false); (js "9007199254740992", true);
     (js "Infinity", true)]
  ∧ result (parseResponse (engine := V8.engine)
              (jq "{'executiveSummary':1.50,'actionItems':[]}"))
    = Returns {| executiveSummary := js "1.5"; actionItems := [] |}
  ∧ result (parseResponse (engine := V8.engine)
              (jq "{'executiveSummary':1e-400,'actionItems':[]}"))
    = Throws InvalidStructure.
Proof. split; [|split]; vm_compute; reflexivity. Qed.

(** ** The round trip (C4) *)

Section RoundTrip.

Context {engine : Engine}.

Lemma sanitizeItem_carries (item : Json.value number) (a : ActionItem) :
  carries item a → task a ≠ [] → sanitizeItem item = Some [a].
Proof.
  intros (members & -> & Htask & Hpriority) Hne. unfold sanitizeItem.
  rewrite Htask, Hpriority.
  replace (truthy (Some (JString (task a)))) with true
    by (symmetry; by apply DiffEngine.len_pos).
  destruct a as [t []]; simpl in *; try done.
Qed.

Lemma extractJson_whole (body : jstring) :
  extractJson (js "{" ++ body ++ js "}") = Some (js "{" ++ body ++ js "}").
Proof.
  rewrite extractJson_matchObject. apply matchObject_Some.
  exists [], body, []. by rewrite app_nil_r.
Qed.

End RoundTrip.

Section RoundTripOf.

Context {engine : Engine}.

(** A text that is extracted whole and left as it is by the removal of
    trailing commas comes back as the object the engine reads in it. *)
Lemma round_trip (response : jstring)
    (members : list (jstring * Json.value number)) (summary : jstring)
    (itemValues : list (Json.value number)) (items : list ActionItem) :
  extractJson response = Some response →
  removeTrailingCommas response = response →
  JSON_parse response = inr (JObject members) →
  lookupLast (js "executiveSummary") members = Some (JString summary) →
  summary ≠ [] →
  lookupLast (js "actionItems") members = Some (JArray itemValues) →
  Forall2 carries itemValues items →
  Forall (fun a => task a ≠ []) items →
  parseResponse response
  = {| console := [];
       result := Returns {| executiveSummary := summary; actionItems := items |} |}.
Proof.
  intros Hextract Hcommas Hparse Hsummary Hne Hitems Hcarries Htasks.
  unfold parseResponse. rewrite Hextract, Hcommas, Hparse. f_equal.
  rewrite (validate_returns members (JString summary) itemValues);
    [|done|by apply DiffEngine.len_pos|done|].
  - assert (mapM sanitizeItem itemValues = Some (map (fun a => [a]) items)) as Hkept.
    { clear Hitems.
      induction Hcarries as [|item a itemValues items Hc _ IH]; [done|].
      inversion Htasks; subst. simpl.
      rewrite (sanitizeItem_carries item a); [|done|done]. simpl.
      by rewrite IH. }
    unfold sanitized. rewrite Hkept. simpl. do 3 f_equal.
    clear. induction items as [|a items IH]; [done|]. simpl. by rewrite IH.
  - clear Hitems. induction Hcarries as [|item a ? ? Hc _ IH]; constructor.
    + destruct Hc as (ms & -> & _). discriminate.
    + inversion Htasks; subst. by apply IH.
Qed.

End RoundTripOf.

(** C4, amended: on a text that is one JSON object with nothing around
    it, which the removal of trailing commas leaves as it is, and whose
    object carries a non-empty summary string and an array of objects
    each with a non-empty task string and a priority among High, Medium
    and Low, [parseResponse] returns exactly that summary and exactly
    those items, in order. *)
Theorem parseResponse_round_trip (engine : Engine) (body : jstring)
    (members : list (jstring * Json.value number)) (summary : jstring)
    (itemValues : list (Json.value number)) (items : list ActionItem) :
  removeTrailingCommas (js "{" ++ body ++ js "}") = js "{" ++ body ++ js "}" →
  JSON_parse (js "{" ++ body ++ js "}") = inr (JObject members) →
  lookupLast (js "executiveSummary") members = Some (JString summary) →
  summary ≠ [] →
  lookupLast (js "actionItems") members = Some (JArray itemValues) →
  Forall2 carries itemValues items →
  Forall (fun a => task a ≠ []) items →
  parseResponse (js "{" ++ body ++ js "}")
  = {| console := [];
       result := Returns {| executiveSummary := summary; actionItems := items |} |}.
Proof.
  intros Hcommas Hparse Hsummary Hne Hitems Hcarries Htasks.
  eapply round_trip; eauto using extractJson_whole.
Qed.

Lemma parseResponse_round_trip_witness :
  parseResponse (engine := V8.engine)
    (jq "{'executiveSummary':'ok','actionItems':[{'task':'Do X','priority':'High'}]}")
  = {| console := [];
       result := Returns {| executiveSummary := js "ok";
                            actionItems := [{| task := js "Do X";
                                               priority := High |}] |} |}.
Proof.
  apply (parseResponse_round_trip V8.engine
           (jq "'executiveSummary':'ok','actionItems':[{'task':'Do X','priority':'High'}]")
           [(js "executiveSummary", JString (js "ok"));
            (js "actionItems",
             JArray [JObject [(js "task", JString (js "Do X"));
                              (js "priority", JString (js "High"))]])]
           (js "ok")
           [JObject [(js "task", JString (js "Do X"));
                     (js "priority", JString (js "High"))]]
           [{| task := js "Do X"; priority := High |}]);
    try (vm_compute; reflexivity); try discriminate.
  - repeat constructor.
    exists [(js "task", JString (js "Do X")); (js "priority", JString (js "High"))].
    repeat split.
  - repeat constructor. discriminate.
Defined.

(** C4, as stated, fails: a well-formed object whose summary is the empty
    string is rejected. *)
Lemma empty_summary_is_rejected :
  V8.parse (jq "{'executiveSummary':'','actionItems':[]}")
  = inr (JObject [(js "executiveSummary", JString []);
                  (js "actionItems", JArray [])])
  ∧ result (parseResponse (engine := V8.engine)
              (jq "{'executiveSummary':'','actionItems':[]}"))
    = Throws InvalidStructure.
Proof. split; reflexivity. Qed.

(** The removal of trailing commas does not know strings: a comma before
    a closing brace inside a string literal is removed too. *)
Lemma comma_removed_inside_string :
  result (parseResponse (engine := V8.engine)
            (jq "{'executiveSummary':'a,}','actionItems':[]}"))
  = Returns {| executiveSummary := js "a}"; actionItems := [] |}.
Proof. reflexivity. Qed.

Lemma scan_terminates_witness :
  ∃ found,
    scanLoop (length wrongShapeFirst) wrongShapeFirst 95 39 [] = Some found.
Proof.
  destruct scan_terminates as (_ & _ & Hloop & _).
  apply (Hloop wrongShapeFirst 95 39 []). lia.
Defined.

(** ** The reference engine reads back what a serializer prints

    For every brief, the reference engine parses the compact text of the
    brief into the brief's object; so the round trip holds on that text
    whenever the summary and the tasks are not empty and hold no comma. *)

Lemma control_cases (c : N) :
  (c <? 32)%N = true →
  V8.hex4 48 48 (hexDigit (c / 16)) (hexDigit (c mod 16)) = Some c
  ∧ N.eqb c DQUOTE = false ∧ N.eqb c BACKSLASH = false.
Proof.
  intros Hc. apply N.ltb_lt in Hc.
  assert (forallb
            (fun c =>
               match V8.hex4 48 48 (hexDigit (c / 16)) (hexDigit (c mod 16)) with
               | Some c' => N.eqb c' c
               | None => false
               end && negb (N.eqb c DQUOTE) && negb (N.eqb c BACKSLASH))
            (map N.of_nat (seq 0 32)) = true) as Hall
    by (vm_compute; reflexivity).
  rewrite forallb_forall in Hall. specialize (Hall c).
  assert (In c (map N.of_nat (seq 0 32))) as Hin.
  { apply in_map_iff. exists (N.to_nat c). split; [lia|]. apply in_seq. lia. }
  apply Hall in Hin. apply andb_true_iff in Hin as [Hin Hb].
  apply andb_true_iff in Hin as [Hhex Hq].
  apply negb_true_iff in Hq, Hb.
  destruct (V8.hex4 _ _ _ _) as [c'|]; [|done]. by apply N.eqb_eq in Hhex as ->.
Qed.

#[local] Arguments V8.hex4 : simpl never.

Lemma scanString_quoted (s rest : jstring) (pos : Z) (acc : jstring) :
  ∃ pos',
    V8.scanString (flat_map escapeChar s ++ DQUOTE :: rest) pos acc
    = V8.Ok (acc ++ s) rest pos'.
Proof.
  revert pos acc. induction s as [|c s IH]; intros pos acc.
  - simpl. rewrite app_nil_r. eauto.
  - simpl flat_map. unfold escapeChar at 1.
    destruct (N.eqb c DQUOTE) eqn:Hq.
    { apply N.eqb_eq in Hq as ->. simpl.
      destruct (IH (pos + 2) (acc ++ [DQUOTE])) as [pos' ->].
      rewrite <- app_assoc. eauto. }
    destruct (N.eqb c BACKSLASH) eqn:Hb.
    { apply N.eqb_eq in Hb as ->. simpl.
      destruct (IH (pos + 2) (acc ++ [BACKSLASH])) as [pos' ->].
      rewrite <- app_assoc. eauto. }
    destruct (c <? 32)%N eqn:Hc.
    { destruct (control_cases c Hc) as (Hhex & _ & _).
      cbn [app V8.scanString]. cbn. rewrite Hhex.
      destruct (IH (pos + 6) (acc ++ [c])) as [pos' ->].
      rewrite <- app_assoc. eauto. }
    cbn [app V8.scanString]. rewrite Hq, Hb, Hc.
    destruct (IH (pos + 1) (acc ++ [c])) as [pos' ->].
    rewrite <- app_assoc. eauto.
Qed.

Lemma parseValue_string (source : jstring) (f : nat) (s rest : jstring) (pos : Z) :
  ∃ pos',
    V8.parseValue source (S f) (DQUOTE :: flat_map escapeChar s ++ DQUOTE :: rest) pos
    = V8.Ok (JString s) rest pos'.
Proof.
  destruct (scanString_quoted s rest (pos + 1) []) as [pos' Hscan].
  exists pos'. simpl. by rewrite Hscan.
Qed.

Lemma parseValue_object (source : jstring) (f : nat) (r : jstring) (pos : Z) :
  V8.parseValue source (S f) (123%N :: DQUOTE :: r) pos
  = V8.parseMembers source f (DQUOTE :: r) (pos + 1) [].
Proof. reflexivity. Qed.

Lemma parseMembers_member (source : jstring) (f : nat) (key vtext : jstring)
    (v : V8.value) (c : N) (rest : jstring) (pos : Z)
    (acc : list (jstring * V8.value)) :
  isChar "," c || isChar "}" c = true →
  (∀ p, ∃ p',
      V8.parseValue source f (vtext ++ c :: rest) p = V8.Ok v (c :: rest) p') →
  ∃ pos',
    V8.parseMembers source (S f)
      (DQUOTE :: flat_map escapeChar key ++ DQUOTE :: 58%N :: vtext ++ c :: rest)
      pos acc
    = if isChar "," c
      then V8.parseMembers source f rest pos' (acc ++ [(key, v)])
      else V8.Ok (JObject (acc ++ [(key, v)])) rest pos'.
Proof.
  intros Hc Hvalue.
  destruct (scanString_quoted key (58%N :: vtext ++ c :: rest) (pos + 1) [])
    as [p1 Hkey].
  destruct (Hvalue (p1 + 1)) as [p2 Hv].
  exists (p2 + 1). simpl. rewrite Hkey. simpl. rewrite Hv.
  apply orb_true_iff in Hc as [Hc|Hc]; apply N.eqb_eq in Hc; subst c; reflexivity.
Qed.

Lemma stringifyItem_text (a : ActionItem) (rest : jstring) :
  stringifyItem a ++ rest
  = 123%N :: DQUOTE :: flat_map escapeChar (js "task") ++ DQUOTE :: 58%N
    :: (DQUOTE :: flat_map escapeChar (task a) ++ [DQUOTE]) ++ 44%N
    :: DQUOTE :: flat_map escapeChar (js "priority") ++ DQUOTE :: 58%N
    :: (DQUOTE :: flat_map escapeChar (priorityName (priority a)) ++ [DQUOTE])
    ++ 125%N :: rest.
Proof.
  unfold stringifyItem, quote.
  change (jq "{'task':") with ([123%N; DQUOTE] ++ js "task" ++ [DQUOTE; 58%N]).
  change (jq ",'priority':") with ([44%N; DQUOTE] ++ js "priority" ++ [DQUOTE; 58%N]).
  change (flat_map escapeChar (js "task")) with (js "task").
  change (flat_map escapeChar (js "priority")) with (js "priority").
  change (js "}") with [125%N].
  repeat first [rewrite <- app_assoc | progress cbn [app]]. reflexivity.
Qed.

Lemma parseValue_string_then (source : jstring) (f : nat) (s : jstring) (c : N)
    (rest : jstring) (p : Z) :
  ∃ p',
    V8.parseValue source (S f)
      ((DQUOTE :: flat_map escapeChar s ++ [DQUOTE]) ++ c :: rest) p
    = V8.Ok (JString s) (c :: rest) p'.
Proof.
  rewrite <- app_comm_cons, <- app_assoc. apply parseValue_string.
Qed.

Lemma parseValue_item (source : jstring) (fuel : nat) (a : ActionItem)
    (rest : jstring) (pos : Z) :
  (4 ≤ fuel)%nat →
  ∃ pos',
    V8.parseValue source fuel (stringifyItem a ++ rest) pos
    = V8.Ok (itemValue a) rest pos'.
Proof.
  intros Hfuel. do 4 (destruct fuel as [|fuel]; [lia|]). clear Hfuel.
  rewrite stringifyItem_text, parseValue_object.
  destruct (parseMembers_member source (S (S fuel)) (js "task")
              (DQUOTE :: flat_map escapeChar (task a) ++ [DQUOTE])
              (JString (task a)) 44%N
              (DQUOTE :: flat_map escapeChar (js "priority") ++ DQUOTE :: 58%N
               :: (DQUOTE :: flat_map escapeChar (priorityName (priority a))
                   ++ [DQUOTE]) ++ 125%N :: rest) (pos + 1) [])
    as [p1 ->]; [done | intros; apply parseValue_string_then |].
  destruct (parseMembers_member source (S fuel) (js "priority")
              (DQUOTE :: flat_map escapeChar (priorityName (priority a)) ++ [DQUOTE])
              (JString (priorityName (priority a))) 125%N rest p1
              ([] ++ [(js "task", JString (task a))]))
    as [p2 ->]; [done | intros; apply parseValue_string_then |].
  eauto.
Qed.

Lemma join_item (a : ActionItem) (items : list ActionItem) (rest : jstring) :
  join (js ",") (map stringifyItem (a :: items)) ++ rest
  = stringifyItem a
    ++ match items with
       | [] => rest
       | _ :: _ => 44%N :: join (js ",") (map stringifyItem items) ++ rest
       end.
Proof.
  destruct items as [|b items]; [done|].
  cbn [map join]. by rewrite <- !app_assoc.
Qed.

Lemma parseElements_items (source : jstring) (items : list ActionItem) :
  ∀ (fuel : nat) (rest : jstring) (pos : Z) (acc : list V8.value),
    items ≠ [] → (length items + 4 ≤ fuel)%nat →
    ∃ pos',
      V8.parseElements source fuel
        (join (js ",") (map stringifyItem items) ++ 93%N :: rest) pos acc
      = V8.Ok (JArray (acc ++ map itemValue items)) rest pos'.
Proof.
  induction items as [|a items IH]; intros fuel rest pos acc Hne Hfuel; [done|].
  destruct fuel as [|fuel]; [simpl in Hfuel; lia|]. simpl in Hfuel.
  rewrite join_item. cbn [V8.parseElements].
  destruct items as [|b items].
  - destruct (parseValue_item source fuel a (93%N :: rest) pos) as [p ->]; [lia|].
    simpl. eauto.
  - destruct (parseValue_item source fuel a
                (44%N :: join (js ",") (map stringifyItem (b :: items)) ++ 93%N :: rest)
                pos) as [p ->]; [simpl in Hfuel; lia|].
    cbn [V8.skipSpace V8.isJsonSpace]. simpl (V8.skipSpace _ _).
    destruct (IH fuel rest (p + 1) (acc ++ [itemValue a])) as [p' Hrest];
      [done | simpl in *; lia |].
    simpl. simpl in Hrest. rewrite Hrest. rewrite <- app_assoc. eauto.
Qed.

Lemma parseValue_array (source : jstring) (f : nat) (items : list ActionItem)
    (c : N) (rest : jstring) (p : Z) :
  (length items + 4 ≤ f)%nat →
  ∃ p',
    V8.parseValue source (S f)
      ((91%N :: join (js ",") (map stringifyItem items) ++ [93%N]) ++ c :: rest) p
    = V8.Ok (JArray (map itemValue items)) (c :: rest) p'.
Proof.
  intros Hfuel. rewrite <- app_comm_cons, <- app_assoc. cbn [app].
  destruct items as [|a items]; [simpl; eauto|].
  destruct (parseElements_items source (a :: items) f (c :: rest) (p + 1) [])
    as [p' Hitems]; [done | done |].
  change ([] ++ map itemValue (a :: items)) with (map itemValue (a :: items))
    in Hitems.
  exists p'. rewrite <- Hitems.
  rewrite join_item, stringifyItem_text. reflexivity.
Qed.

Lemma stringify_text (b : DailyBrief) :
  stringify b
  = 123%N :: DQUOTE :: flat_map escapeChar (js "executiveSummary") ++ DQUOTE :: 58%N
    :: (DQUOTE :: flat_map escapeChar (executiveSummary b) ++ [DQUOTE]) ++ 44%N
    :: DQUOTE :: flat_map escapeChar (js "actionItems") ++ DQUOTE :: 58%N
    :: (91%N :: join (js ",") (map stringifyItem (actionItems b)) ++ [93%N])
    ++ 125%N :: [].
Proof.
  unfold stringify, quote.
  change (jq "{'executiveSummary':")
    with ([123%N; DQUOTE] ++ js "executiveSummary" ++ [DQUOTE; 58%N]).
  change (jq ",'actionItems':[")
    with ([44%N; DQUOTE] ++ js "actionItems" ++ [DQUOTE; 58%N; 91%N]).
  change (flat_map escapeChar (js "executiveSummary")) with (js "executiveSummary").
  change (flat_map escapeChar (js "actionItems")) with (js "actionItems").
  change (js "]}") with [93%N; 125%N].
  repeat first [rewrite <- app_assoc | progress cbn [app]]. reflexivity.
Qed.

Lemma stringifyItem_length (a : ActionItem) : (1 ≤ length (stringifyItem a))%nat.
Proof. unfold stringifyItem. rewrite length_app. simpl. lia. Qed.

Lemma join_stringifyItem_length (items : list ActionItem) :
  (length items ≤ length (join (js ",") (map stringifyItem items)))%nat.
Proof.
  induction items as [|a items IH]; [done|].
  pose proof (stringifyItem_length a).
  destruct items as [|a' items]; [simpl; lia|].
  cbn [map join] in *. rewrite !length_app. cbn [length] in *. lia.
Qed.

Lemma stringify_length (b : DailyBrief) :
  (length (actionItems b) + 4 ≤ length (stringify b))%nat.
Proof.
  pose proof (join_stringifyItem_length (actionItems b)).
  unfold stringify. rewrite !length_app. simpl. lia.
Qed.

(** The reference engine reads back the compact text of a brief. *)
Lemma parse_stringify (b : DailyBrief) :
  V8.parse (stringify b) = inr (briefValue b).
Proof.
  unfold V8.parse. pose proof (stringify_length b) as Hlen.
  remember (2 * length (stringify b) + 2)%nat as fuel eqn:Hfuel.
  do 3 (destruct fuel as [|fuel]; [lia|]).
  rewrite stringify_text at 2. rewrite parseValue_object.
  destruct (parseMembers_member (stringify b) (S fuel) (js "executiveSummary")
              (DQUOTE :: flat_map escapeChar (executiveSummary b) ++ [DQUOTE])
              (JString (executiveSummary b)) 44%N
              (DQUOTE :: flat_map escapeChar (js "actionItems") ++ DQUOTE :: 58%N
               :: (91%N :: join (js ",") (map stringifyItem (actionItems b)) ++ [93%N])
               ++ 125%N :: []) (0 + 1) [])
    as [p1 ->]; [done | intros; apply parseValue_string_then |].
  destruct fuel as [|fuel]; [lia|].
  destruct (parseMembers_member (stringify b) (S fuel) (js "actionItems")
              (91%N :: join (js ",") (map stringifyItem (actionItems b)) ++ [93%N])
              (JArray (map itemValue (actionItems b))) 125%N [] p1
              ([] ++ [(js "executiveSummary", JString (executiveSummary b))]))
    as [p2 ->]; [done | intros; apply parseValue_array; lia |].
  reflexivity.
Qed.

Lemma removeTrailingCommas_free (a rest : jstring) :
  commaFree a →
  removeTrailingCommas (a ++ rest) = a ++ removeTrailingCommas rest.
Proof.
  induction 1 as [|c a Hc _ IH]; [done|]. simpl. by rewrite Hc, IH.
Qed.

Lemma removeTrailingCommas_comma (c : N) (rest : jstring) :
  isWhiteSpace c = false → isChar "}" c || isChar "]" c = false →
  removeTrailingCommas (44%N :: c :: rest) = 44%N :: removeTrailingCommas (c :: rest).
Proof.
  intros Hws Hclose. cbn [removeTrailingCommas]. unfold closes at 1.
  cbn [dropWhile]. rewrite Hws, Hclose. reflexivity.
Qed.

Lemma escapeChar_free (c : N) : isChar "," c = false → commaFree (escapeChar c).
Proof.
  intros Hc. unfold escapeChar.
  destruct (N.eqb c DQUOTE); [by repeat constructor|].
  destruct (N.eqb c BACKSLASH); [by repeat constructor|].
  destruct (c <? 32)%N eqn:Hlow; [|by repeat constructor].
  apply N.ltb_lt in Hlow.
  assert (∀ n, (n < 16)%N → isChar "," (hexDigit n) = false) as Hhex.
  { intros n Hn. unfold hexDigit, isChar. apply N.eqb_neq.
    destruct (n <? 10)%N eqn:E; [apply N.ltb_lt in E|apply N.ltb_ge in E];
      simpl N_of_ascii; lia. }
  repeat constructor; apply Hhex.
  - apply N.Div0.div_lt_upper_bound. lia.
  - apply N.mod_lt. lia.
Qed.

Lemma quoted_free (s : jstring) : commaFree s → commaFree (flat_map escapeChar s).
Proof.
  induction 1 as [|c s Hc _ IH]; [constructor|]. simpl.
  apply Forall_app. split; [by apply escapeChar_free | done].
Qed.

Lemma priorityName_free (p : Priority) : commaFree (priorityName p).
Proof. destruct p; by repeat constructor. Qed.

Ltac comma_free :=
  repeat first [apply Forall_cons; split; [done|] | apply Forall_app; split];
  try (by repeat constructor).

Lemma removeTrailingCommas_item (a : ActionItem) (rest : jstring) :
  commaFree (task a) →
  removeTrailingCommas (stringifyItem a ++ rest)
  = stringifyItem a ++ removeTrailingCommas rest.
Proof.
  intros Htask. rewrite !stringifyItem_text.
  set (A := 123%N :: DQUOTE :: flat_map escapeChar (js "task") ++ DQUOTE :: 58%N
            :: DQUOTE :: flat_map escapeChar (task a) ++ [DQUOTE]).
  set (B := flat_map escapeChar (js "priority") ++ DQUOTE :: 58%N
            :: DQUOTE :: flat_map escapeChar (priorityName (priority a))
            ++ [DQUOTE; 125%N]).
  assert (commaFree A) as HA by (subst A; comma_free; by apply quoted_free).
  assert (commaFree (DQUOTE :: B)) as HB
    by (subst B; comma_free; apply quoted_free, priorityName_free).
  assert (∀ tail,
            123%N :: DQUOTE :: flat_map escapeChar (js "task") ++ DQUOTE :: 58%N
            :: (DQUOTE :: flat_map escapeChar (task a) ++ [DQUOTE]) ++ 44%N
            :: DQUOTE :: flat_map escapeChar (js "priority") ++ DQUOTE :: 58%N
            :: (DQUOTE :: flat_map escapeChar (priorityName (priority a)) ++ [DQUOTE])
            ++ 125%N :: tail
            = A ++ 44%N :: DQUOTE :: B ++ tail) as Htext.
  { intros tail. subst A B.
    repeat first [rewrite <- app_assoc | progress cbn [app]]. reflexivity. }
  rewrite !Htext, (removeTrailingCommas_free A), (removeTrailingCommas_comma DQUOTE)
    by done.
  by rewrite (app_comm_cons B), (removeTrailingCommas_free (DQUOTE :: B)).
Qed.

Lemma removeTrailingCommas_items (items : list ActionItem) (rest : jstring) :
  Forall (fun a => commaFree (task a)) items →
  removeTrailingCommas (join (js ",") (map stringifyItem items) ++ rest)
  = join (js ",") (map stringifyItem items) ++ removeTrailingCommas rest.
Proof.
  induction 1 as [|a items Ha Hitems IH]; [done|].
  rewrite !join_item, removeTrailingCommas_item by done. f_equal.
  destruct items as [|b items]; [done|].
  rewrite <- IH. rewrite join_item, stringifyItem_text.
  by rewrite removeTrailingCommas_comma.
Qed.

Lemma removeTrailingCommas_stringify (b : DailyBrief) :
  commaFree (executiveSummary b) →
  Forall (fun a => commaFree (task a)) (actionItems b) →
  removeTrailingCommas (stringify b) = stringify b.
Proof.
  intros Hsummary Htasks. rewrite stringify_text.
  set (A := 123%N :: DQUOTE :: flat_map escapeChar (js "executiveSummary")
            ++ DQUOTE :: 58%N
            :: DQUOTE :: flat_map escapeChar (executiveSummary b) ++ [DQUOTE]).
  set (B := flat_map escapeChar (js "actionItems") ++ [DQUOTE; 58%N; 91%N]).
  assert (commaFree A) as HA by (subst A; comma_free; by apply quoted_free).
  assert (commaFree (DQUOTE :: B)) as HB by (subst B; comma_free).
  assert (123%N :: DQUOTE :: flat_map escapeChar (js "executiveSummary")
          ++ DQUOTE :: 58%N
          :: (DQUOTE :: flat_map escapeChar (executiveSummary b) ++ [DQUOTE]) ++ 44%N
          :: DQUOTE :: flat_map escapeChar (js "actionItems") ++ DQUOTE :: 58%N
          :: (91%N :: join (js ",") (map stringifyItem (actionItems b)) ++ [93%N])
          ++ 125%N :: []
          = A ++ 44%N :: DQUOTE :: B
            ++ join (js ",") (map stringifyItem (actionItems b)) ++ [93%N; 125%N])
    as ->.
  { subst A B. repeat first [rewrite <- app_assoc | progress cbn [app]]. reflexivity. }
  rewrite (removeTrailingCommas_free A), (removeTrailingCommas_comma DQUOTE) by done.
  rewrite (app_comm_cons B), (removeTrailingCommas_free (DQUOTE :: B)) by done.
  by rewrite removeTrailingCommas_items.
Qed.

Lemma carries_itemValue (items : list ActionItem) :
  Forall2 (carries (engine := V8.engine)) (map itemValue items) items.
Proof.
  induction items as [|a items IH]; constructor; [|done].
  exists [(js "task", JString (task a));
          (js "priority", JString (priorityName (priority a)))].
  by repeat split.
Qed.

Lemma stringify_whole (b : DailyBrief) :
  extractJson (stringify b) = Some (stringify b).
Proof.
  assert (stringify b
          = js "{"
            ++ (jq "'executiveSummary':" ++ quote (executiveSummary b)
                ++ jq ",'actionItems':[" ++
                join (js ",") (map stringifyItem (actionItems b)) ++ js "]")
            ++ js "}") as ->; [|apply extractJson_whole].
  unfold stringify.
  change (jq "{'executiveSummary':") with (js "{" ++ jq "'executiveSummary':").
  change (js "]}") with (js "]" ++ js "}").
  by rewrite <- !app_assoc.
Qed.

(** The round trip on the compact text of a brief. *)
Lemma parseResponse_stringify (b : DailyBrief) :
  executiveSummary b ≠ [] → commaFree (executiveSummary b) →
  Forall (fun a => task a ≠ [] ∧ commaFree (task a)) (actionItems b) →
  parseResponse (engine := V8.engine) (stringify b)
  = {| console := []; result := Returns b |}.
Proof.
  intros Hne Hfree Htasks. apply Forall_and in Htasks as [Htasks Hfrees].
  destruct b as [summary items]. simpl in *.
  apply (round_trip (engine := V8.engine) _
           [(js "executiveSummary", JString summary);
            (js "actionItems", JArray (map itemValue items))]
           summary (map itemValue items) items);
    try done.
  - apply stringify_whole.
  - by apply removeTrailingCommas_stringify.
  - apply (parse_stringify {| executiveSummary := summary; actionItems := items |}).
  - apply carries_itemValue.
Qed.

End Recoverer.

(** * The time window *)

Module TimestampFacts.

Import TimestampStore.

Local Open Scope Z_scope.

(** X1: whenever [getCutoffDate] returns, the cutoff is a valid date and
    is never earlier than twenty-four hours before now, however long ago
    the last run was and whatever the file holds for it. *)
Theorem getCutoffDate_at_most_a_day (minus24Hours : Z → Z) (f : File) (now : Z)
    (cutoff : Date) :
  getCutoffDate minus24Hours f now = inr cutoff →
  ∃ t, cutoff = Time t ∧ minus24Hours now ≤ t.
Proof.
  unfold getCutoffDate.
  destruct f as [|message|[lastRun|]]; simpl; try discriminate.
  - intros [= <-]. eexists. split; [done | lia].
  - destruct (minus24Hours now <? minus24Hours lastRun) eqn:Hlater;
      intros [= <-]; eexists; (split; [done|]).
    + apply Z.ltb_lt in Hlater. lia.
    + lia.
  - intros [= <-]. eexists. split; [done | lia].
Qed.

Lemma getCutoffDate_at_most_a_day_witness :
  ∃ t, Time 13600000 = Time t ∧ 100000000 - 86400000 ≤ t.
Proof.
  apply (getCutoffDate_at_most_a_day (fun t => t - 86400000)
           (Stored (Time 90000000)) 100000000).
  vm_compute. reflexivity.
Defined.

(** X2: the last run does not move the window.  Where going back a day
    keeps the order of times, a last run that is not in the future (or
    is missing, or is not a date) leaves the cutoff at twenty-four hours
    before now. *)
Theorem getCutoffDate_ignores_last_run (minus24Hours : Z → Z) (f : File)
    (now : Z) :
  (∀ a b, a ≤ b → minus24Hours a ≤ minus24Hours b) →
  match f with
  | Unreadable _ => False
  | Stored (Time lastRun) => lastRun ≤ now
  | _ => True
  end →
  getCutoffDate minus24Hours f now = inr (Time (minus24Hours now)).
Proof.
  intros Hmono Hpast. unfold getCutoffDate.
  destruct f as [|message|[lastRun|]]; simpl; try done.
  pose proof (Hmono _ _ Hpast) as Hle.
  destruct (minus24Hours now <? minus24Hours lastRun) eqn:Hlater; [|done].
  apply Z.ltb_lt in Hlater. lia.
Qed.

Lemma getCutoffDate_ignores_last_run_witness :
  getCutoffDate (fun t => t - 86400000) (Stored (Time 5000)) 100000000
  = inr (Time (100000000 - 86400000)).
Proof.
  apply (getCutoffDate_ignores_last_run (fun t => t - 86400000)
           (Stored (Time 5000)) 100000000).
  - intros a b Hab. lia.
  - simpl. lia.
Defined.

End TimestampFacts.

(** * Saving and finding snapshots *)

Module SnapshotFacts.

Import NoteProcessor NoteSnapshotStore Snapshots Spec.

(** The notes of [notes] that are named [noteName]. *)
Lemma fold_assign_lookup (notes : list NoteSnapshot)
    (m : gmap jstring NoteSnapshot) (noteName : jstring) :
  noteName ≠ js "__proto__" →
  fold_left assign notes m !! noteName
  = match last (List.filter (fun n => bool_decide (name n = noteName)) notes) with
    | Some s => Some s
    | None => m !! noteName
    end.
Proof.
  intros Hproto. revert m. induction notes as [|n notes IH]; intros m; [done|].
  simpl. rewrite IH. unfold assign.
  destruct (bool_decide (name n = noteName)) eqn:Hname.
  - apply bool_decide_eq_true in Hname. subst noteName.
    rewrite bool_decide_eq_false_2 by done. rewrite lookup_insert_eq.
    destruct (List.filter _ notes) as [|x xs]; [done|].
    change (last (n :: x :: xs)) with (last (x :: xs)).
    destruct (last (x :: xs)) eqn:Hlast; [done|]. by apply last_None in Hlast.
  - apply bool_decide_eq_false in Hname.
    destruct (last _); [done|].
    case_bool_decide; [done|]. by rewrite lookup_insert_ne.
Qed.

Lemma fold_assign_proto (notes : list NoteSnapshot) (m : gmap jstring NoteSnapshot) :
  fold_left assign notes m !! js "__proto__" = m !! js "__proto__".
Proof.
  revert m. induction notes as [|n notes IH]; intros m; [done|].
  simpl. rewrite IH. unfold assign. case_bool_decide as Hname; [done|].
  by rewrite lookup_insert_ne.
Qed.

Lemma diffLines_same (body : jstring) : diffLines body body = [].
Proof. by apply DiffEngine.diffLines_nil. Qed.

(** X3: what was saved is found again.  After [saveSnapshots] wrote the
    file, [getNoteSnapshot] returns, for a name other than [__proto__],
    the last of the saved notes that has this name; when no saved note
    has it, the answer is [null], unless the name is one that
    [Object.prototype] defines. *)
Theorem saveSnapshots_getNoteSnapshot (toISOString : Z → jstring)
    (notes : list NoteSnapshot) (timestamp : Z) (file : File) (noteName : jstring) :
  saveSnapshots toISOString Writable notes timestamp = inr file →
  noteName ≠ js "__proto__" →
  getNoteSnapshot file noteName
  = inr match last (List.filter (fun n => bool_decide (name n = noteName)) notes) with
        | Some s => Some (Snapshot s)
        | None =>
            if bool_decide (noteName ∈ objectPrototypeKeys) then Some Builtin
            else None
        end.
Proof.
  intros [= <-] Hproto. unfold getNoteSnapshot, getProperty, indexByName. simpl.
  rewrite (fold_assign_lookup _ _ _ Hproto), lookup_empty.
  destruct (last _); [done|]. by case_bool_decide.
Qed.

Lemma saveSnapshots_getNoteSnapshot_witness :
  getNoteSnapshot
    (Stored [] (indexByName [Examples.snapshotA]))
    (js "A")
  = inr (Some (Snapshot Examples.snapshotA)).
Proof.
  apply (saveSnapshots_getNoteSnapshot (fun _ => []) [Examples.snapshotA] 0).
  - reflexivity.
  - vm_compute. discriminate.
Defined.

(** X4: a note saved and not edited since has nothing new.  When the
    last saved snapshot under the note's name holds the note's present
    body, [extractNewContent] returns the empty string. *)
Theorem saved_note_has_no_new_content (toISOString : Z → jstring)
    (notes : list NoteSnapshot) (timestamp : Z) (file : File)
    (note : Note) (saved : NoteSnapshot) :
  saveSnapshots toISOString Writable notes timestamp = inr file →
  NoteProcessor.name note ≠ js "__proto__" →
  last (List.filter (fun n => bool_decide (name n = NoteProcessor.name note)) notes)
  = Some saved →
  body saved = NoteProcessor.body note →
  extractNewContent file note = inr [].
Proof.
  intros [= <-] Hproto Hlast Hbody.
  rewrite (DiffEngine.extractNewContent_stored _ _ _ saved).
  - by rewrite Hbody, diffLines_same.
  - unfold indexByName. by rewrite (fold_assign_lookup _ _ _ Hproto), Hlast.
Qed.

Lemma saved_note_has_no_new_content_witness :
  extractNewContent
    (Stored [] (indexByName [Examples.snapshotA]))
    {| NoteProcessor.name := js "A";
       NoteProcessor.body := js "line1" ++ [LF] ++ js "line2";
       NoteProcessor.modificationDate := 5 |}
  = inr [].
Proof.
  apply (saved_note_has_no_new_content (fun _ => []) [Examples.snapshotA] 0 _ _
           Examples.snapshotA).
  - reflexivity.
  - vm_compute. discriminate.
  - vm_compute. reflexivity.
  - reflexivity.
Defined.

(** X5: a note titled [__proto__] is never stored: whatever list is
    saved, the file holds no snapshot under that name, the lookup finds
    [Object.prototype] instead, and [extractNewContent] throws a
    TypeError for such a note on every run after the first save. *)
Theorem proto_note_is_never_stored (toISOString : Z → jstring)
    (notes : list NoteSnapshot) (timestamp : Z) (file : File) (note : Note) :
  saveSnapshots toISOString Writable notes timestamp = inr file →
  NoteProcessor.name note = js "__proto__" →
  getNoteSnapshot file (js "__proto__") = inr (Some Builtin)
  ∧ extractNewContent file note = inl TypeError.
Proof.
  intros [= <-] Hname.
  assert (getNoteSnapshot
            (Stored (toISOString timestamp) (indexByName notes)) (js "__proto__")
          = inr (Some Builtin)) as Hget.
  { unfold getNoteSnapshot, getProperty, indexByName. simpl.
    by rewrite fold_assign_proto, lookup_empty. }
  split; [done|]. unfold extractNewContent. by rewrite Hname, Hget.
Qed.

Lemma proto_note_is_never_stored_witness :
  getNoteSnapshot
    (Stored [] (indexByName
       [{| name := js "__proto__"; body := js "b"; modificationDate := [] |}]))
    (js "__proto__")
  = inr (Some Builtin)
  ∧ extractNewContent
      (Stored [] (indexByName
         [{| name := js "__proto__"; body := js "b"; modificationDate := [] |}]))
      {| NoteProcessor.name := js "__proto__"; NoteProcessor.body := js "b";
         NoteProcessor.modificationDate := 0 |}
    = inl TypeError.
Proof.
  apply (proto_note_is_never_stored (fun _ => [])
           [{| name := js "__proto__"; body := js "b"; modificationDate := [] |}] 0).
  - reflexivity.
  - reflexivity.
Defined.

End SnapshotFacts.

(** * The selection of the notes *)

Module PipelineFacts.

Import NoteSnapshotStore NoteProcessor TimestampStore Pipeline Notions Samples.

Local Open Scope Z_scope.

Lemma insertNote_perm (note : Note) (sorted : list Note) :
  insertNote note sorted ≡ₚ note :: sorted.
Proof.
  induction sorted as [|n rest IH]; simpl; [done|].
  destruct (modificationDate note <? modificationDate n); [|done].
  rewrite IH. apply perm_swap.
Qed.

Lemma sortNewestFirst_perm (l : list Note) : sortNewestFirst l ≡ₚ l.
Proof.
  induction l as [|n l IH]; simpl; [done|].
  by rewrite insertNote_perm, IH.
Qed.

Lemma insertNote_sorted (note : Note) (sorted : list Note) :
  StronglySorted newerFirst sorted →
  StronglySorted newerFirst (insertNote note sorted).
Proof.
  induction 1 as [|n rest Hsorted IH Hall]; simpl.
  - repeat constructor.
  - destruct (modificationDate note <? modificationDate n) eqn:Hnewer.
    + apply Z.ltb_lt in Hnewer. constructor; [done|].
      rewrite insertNote_perm. constructor; [unfold newerFirst; lia | done].
    + apply Z.ltb_ge in Hnewer. constructor; [by constructor|].
      constructor; [done|].
      eapply Forall_impl; [exact Hall|]. unfold newerFirst. intros; simpl in *; lia.
Qed.

Lemma sortNewestFirst_sorted (l : list Note) :
  StronglySorted newerFirst (sortNewestFirst l).
Proof.
  induction l as [|n l IH]; simpl; [constructor | by apply insertNote_sorted].
Qed.

Lemma insertNote_stable (d : Z) (note : Note) (sorted : list Note) :
  List.filter (fun n => modificationDate n =? d) (insertNote note sorted)
  = List.filter (fun n => modificationDate n =? d) (note :: sorted).
Proof.
  induction sorted as [|n rest IH]; [done|].
  simpl insertNote.
  destruct (modificationDate note <? modificationDate n) eqn:Hnewer; [|done].
  apply Z.ltb_lt in Hnewer.
  change (List.filter ?f (n :: ?l)) with (if f n then n :: List.filter f l else List.filter f l).
  rewrite IH. simpl.
  destruct (modificationDate note =? d) eqn:Hnote; [|done].
  apply Z.eqb_eq in Hnote.
  destruct (modificationDate n =? d) eqn:Hn; [|done].
  apply Z.eqb_eq in Hn. lia.
Qed.

Lemma sortNewestFirst_stable (d : Z) (l : list Note) :
  List.filter (fun n => modificationDate n =? d) (sortNewestFirst l)
  = List.filter (fun n => modificationDate n =? d) l.
Proof.
  induction l as [|n l IH]; [done|].
  simpl sortNewestFirst. rewrite insertNote_stable. simpl. by rewrite IH.
Qed.

Section ProcessFacts.

Variable toLocaleString : Z → jstring.

Lemma processNotes_notes (getCutoffDate : TimestampStore.Thrown + Date)
    (snapshots : NoteSnapshotStore.File) (allNotes : list Note)
    (processed : ProcessedNotes) :
  processNotes toLocaleString getCutoffDate snapshots allNotes = inr processed →
  getCutoffDate = inr (cutoffDate processed)
  ∧ notes processed
    = sortNewestFirst (List.filter (modifiedSince (cutoffDate processed)) allNotes)
  ∧ aggregateContent toLocaleString snapshots (notes processed)
    = inr (aggregatedContent processed).
Proof.
  unfold processNotes. destruct getCutoffDate as [e|[cutoff|]]; [done| |done].
  destruct (aggregateContent _ _ _) as [e|content] eqn:Hcontent; [done|].
  by intros [= <-].
Qed.

(** Every section opens with three dashes. *)
Lemma aggregateLoop_sections (f : NoteSnapshotStore.File) (notes : list Note)
    (index : nat) (acc sections : list jstring) :
  aggregateLoop toLocaleString f notes index acc = inr sections →
  Forall (fun s => head s = Some 45%N) acc →
  Forall (fun s => head s = Some 45%N) sections.
Proof.
  revert index acc. induction notes as [|note notes IH]; intros index acc; simpl.
  - by intros [= <-].
  - destruct (extractNewContent f note) as [e|content]; [done|].
    intros Hloop Hacc. eapply IH; [exact Hloop|].
    destruct (0 <? len (trim content)); [|done].
    apply Forall_app. split; [done|]. by repeat constructor.
Qed.

Lemma aggregateContent_not_noNotesModified (f : NoteSnapshotStore.File)
    (note : Note) (notes : list Note) :
  aggregateContent toLocaleString f (note :: notes) ≠ inr noNotesModified.
Proof.
  unfold aggregateContent.
  destruct (aggregateLoop _ _ _ _ _) as [e|sections] eqn:Hloop; [done|].
  apply aggregateLoop_sections in Hloop; [|constructor].
  destruct sections as [|s sections]; [by vm_compute|].
  destruct (DiffEngine.join_head [LF; LF] s sections) as [rest Hjoin].
  intros Hsentinel.
  assert (join [LF; LF] (s :: sections) = noNotesModified) as Heq by congruence.
  clear Hsentinel. rewrite Hjoin in Heq.
  inversion Hloop as [|? ? Hs _]; subst.
  destruct s as [|c s]; [done|]. injection Hs as ->. by vm_compute in Heq.
Qed.

End ProcessFacts.

(** X6: [processNotes] returns the notes modified at or after the cutoff,
    each as often as it is in the input, and no other; they come newest
    first.  A note modified at the very time of the cutoff is among
    them. *)
Theorem processNotes_selects (toLocaleString : Z → jstring)
    (getCutoffDate : TimestampStore.Thrown + Date)
    (snapshots : NoteSnapshotStore.File) (allNotes : list Note)
    (processed : ProcessedNotes) :
  processNotes toLocaleString getCutoffDate snapshots allNotes = inr processed →
  notes processed
  ≡ₚ List.filter (modifiedSince (cutoffDate processed)) allNotes
  ∧ (∀ note, In note (notes processed)
             ↔ In note allNotes
               ∧ ∃ cutoff, cutoffDate processed = Time cutoff
                           ∧ cutoff ≤ modificationDate note)
  ∧ StronglySorted newerFirst (notes processed).
Proof.
  intros Hrun. apply processNotes_notes in Hrun as (_ & -> & _).
  refine (conj _ (conj _ _)).
  - apply sortNewestFirst_perm.
  - intros note. rewrite <- !list_elem_of_In, sortNewestFirst_perm.
    rewrite list_elem_of_In, filter_In, <- list_elem_of_In.
    unfold modifiedSince. destruct (cutoffDate processed) as [cutoff|].
    + rewrite Z.leb_le. naive_solver.
    + naive_solver.
  - apply sortNewestFirst_sorted.
Qed.

Lemma processNotes_selects_witness :
  notes sampleProcessed
  ≡ₚ List.filter (modifiedSince (cutoffDate sampleProcessed)) sampleNotes
  ∧ (∀ note, In note (notes sampleProcessed)
             ↔ In note sampleNotes
               ∧ ∃ cutoff, cutoffDate sampleProcessed = Time cutoff
                           ∧ cutoff ≤ modificationDate note)
  ∧ StronglySorted newerFirst (notes sampleProcessed).
Proof.
  apply (processNotes_selects sampleLocale (inr (Time 10))
           NoteSnapshotStore.Missing sampleNotes sampleProcessed).
  vm_compute. reflexivity.
Defined.

(** X7: the sort keeps ties in place: among the notes [processNotes]
    returns, those with one and the same modification time stand in the
    order they had in the input. *)
Theorem processNotes_keeps_ties (toLocaleString : Z → jstring)
    (getCutoffDate : TimestampStore.Thrown + Date)
    (snapshots : NoteSnapshotStore.File) (allNotes : list Note)
    (processed : ProcessedNotes) (time : Z) :
  processNotes toLocaleString getCutoffDate snapshots allNotes = inr processed →
  List.filter (fun n => modificationDate n =? time) (notes processed)
  = List.filter (fun n => modificationDate n =? time)
      (List.filter (modifiedSince (cutoffDate processed)) allNotes).
Proof.
  intros Hrun. apply processNotes_notes in Hrun as (_ & -> & _).
  apply sortNewestFirst_stable.
Qed.

Lemma processNotes_keeps_ties_witness :
  List.filter (fun n => modificationDate n =? 20) (notes sampleProcessed)
  = List.filter (fun n => modificationDate n =? 20)
      (List.filter (modifiedSince (cutoffDate sampleProcessed)) sampleNotes).
Proof.
  apply (processNotes_keeps_ties sampleLocale (inr (Time 10))
           NoteSnapshotStore.Missing sampleNotes sampleProcessed 20).
  vm_compute. reflexivity.
Defined.

(** X8: [getFilteredNoteCount] counts what [processNotes] returns: when
    both return, on the same cutoff and the same notes, the count is the
    number of notes in the result of [processNotes]. *)
Theorem getFilteredNoteCount_processNotes (toLocaleString : Z → jstring)
    (getCutoffDate : TimestampStore.Thrown + Date)
    (snapshots : NoteSnapshotStore.File) (allNotes : list Note)
    (processed : ProcessedNotes) :
  processNotes toLocaleString getCutoffDate snapshots allNotes = inr processed →
  getFilteredNoteCount getCutoffDate allNotes
  = inr (Z.of_nat (length (notes processed))).
Proof.
  intros Hrun. apply processNotes_notes in Hrun as (-> & -> & _).
  unfold getFilteredNoteCount. by rewrite sortNewestFirst_perm.
Qed.

Lemma getFilteredNoteCount_processNotes_witness :
  getFilteredNoteCount (inr (Time 10)) sampleNotes
  = inr (Z.of_nat (length (notes sampleProcessed))).
Proof.
  apply (getFilteredNoteCount_processNotes sampleLocale (inr (Time 10))
           NoteSnapshotStore.Missing sampleNotes sampleProcessed).
  vm_compute. reflexivity.
Defined.

(** X9: the text for no notes is returned when, and only when, no note
    passed the filter: [processNotes] gives 'No notes were modified in
    the last 24 hours.' exactly when its list of notes is empty. *)
Theorem processNotes_no_notes (toLocaleString : Z → jstring)
    (getCutoffDate : TimestampStore.Thrown + Date)
    (snapshots : NoteSnapshotStore.File) (allNotes : list Note)
    (processed : ProcessedNotes) :
  processNotes toLocaleString getCutoffDate snapshots allNotes = inr processed →
  aggregatedContent processed = noNotesModified ↔ notes processed = [].
Proof.
  intros Hrun. apply processNotes_notes in Hrun as (_ & _ & Hcontent).
  destruct (notes processed) as [|note rest].
  - simpl in Hcontent. injection Hcontent as <-. done.
  - split; [|done]. intros Hsentinel. rewrite Hsentinel in Hcontent.
    by apply aggregateContent_not_noNotesModified in Hcontent.
Qed.

Lemma processNotes_no_notes_witness :
  aggregatedContent sampleProcessed = noNotesModified ↔ notes sampleProcessed = [].
Proof.
  apply (processNotes_no_notes sampleLocale (inr (Time 10))
           NoteSnapshotStore.Missing sampleNotes sampleProcessed).
  vm_compute. reflexivity.
Defined.

End PipelineFacts.

(** * The aggregated document *)

Module AggregationFacts.

Import NoteSnapshotStore NoteProcessor.

Local Open Scope Z_scope.

Lemma join_In (sep part : jstring) (parts : list jstring) :
  In part parts → ∃ pre post, join sep parts = pre ++ part ++ post.
Proof.
  induction parts as [|p parts IH]; [done|].
  intros [->|Hin].
  - destruct (DiffEngine.join_head sep part parts) as [rest Hjoin].
    exists [], rest. by rewrite Hjoin.
  - destruct (IH Hin) as (pre & post & Hjoin).
    destruct parts as [|q parts]; [done|].
    exists (p ++ sep ++ pre), post.
    change (join sep (p :: q :: parts)) with (p ++ sep ++ join sep (q :: parts)).
    rewrite Hjoin. by rewrite <- !app_assoc.
Qed.

Section Document.

Variable toLocaleString : Z → jstring.

Lemma aggregateLoop_keeps (f : File) (notes : list Note) (index : nat)
    (acc sections : list jstring) (s : jstring) :
  aggregateLoop toLocaleString f notes index acc = inr sections →
  In s acc → In s sections.
Proof.
  revert index acc. induction notes as [|note notes IH]; intros index acc; simpl.
  - by intros [= <-].
  - destruct (extractNewContent f note) as [e|content]; [done|].
    intros Hloop Hin. eapply IH; [exact Hloop|].
    destruct (0 <? len (trim content)); [|done].
    apply in_or_app. by left.
Qed.

Lemma aggregateLoop_sections_of (f : File) (notes : list Note) (index : nat)
    (acc sections : list jstring) (i : nat) (note : Note) (content : jstring) :
  aggregateLoop toLocaleString f notes index acc = inr sections →
  notes !! i = Some note →
  extractNewContent f note = inr content →
  trim content ≠ [] →
  In (section toLocaleString (index + i) note content) sections.
Proof.
  revert index acc i. induction notes as [|n notes IH]; intros index acc i; [done|].
  simpl. destruct (extractNewContent f n) as [e|c] eqn:Hn; [done|].
  intros Hloop Hi Hcontent Hblank. destruct i as [|i]; simpl in Hi.
  - injection Hi as ->. rewrite Hcontent in Hn. injection Hn as ->.
    apply DiffEngine.len_pos in Hblank. rewrite Hblank in Hloop.
    eapply aggregateLoop_keeps; [exact Hloop|].
    apply in_or_app. right. left. by rewrite Nat.add_0_r.
  - replace (index + S i)%nat with (S index + i)%nat by lia.
    eapply IH; eauto.
Qed.

Lemma aggregateLoop_throws (f : File) (notes : list Note) (index : nat)
    (acc : list jstring) (note : Note) (e : Thrown) :
  In note notes →
  extractNewContent f note = inl e →
  ∃ first e',
    In first notes ∧ extractNewContent f first = inl e'
    ∧ aggregateLoop toLocaleString f notes index acc = inl e'.
Proof.
  revert index acc. induction notes as [|n notes IH]; intros index acc; [done|].
  intros Hin Hthrows. simpl.
  destruct (extractNewContent f n) as [e'|c] eqn:Hn.
  - exists n, e'. split; [by left | done].
  - destruct Hin as [->|Hin]; [congruence|].
    destruct (IH (S index)
                (if 0 <? len (trim c)
                 then acc ++ [section toLocaleString index n c] else acc)
                Hin Hthrows)
      as (first & e' & Hfirst & Hfails & Hloop).
    exists first, e'. split; [by right | done].
Qed.

End Document.

(** X10: nothing new is left out of the document.  When
    [aggregateContent] returns, every note of the list whose new content
    is not blank has its section in the document: the header with the
    note's position in the list (counted from one), its name and its
    date, then the new content. *)
Theorem aggregateContent_has_every_section (toLocaleString : Z → jstring)
    (f : File) (notes : list Note) (document : jstring)
    (i : nat) (note : Note) (content : jstring) :
  aggregateContent toLocaleString f notes = inr document →
  notes !! i = Some note →
  extractNewContent f note = inr content →
  trim content ≠ [] →
  ∃ pre post,
    document
    = pre
      ++ (js "--- Note " ++ decimal (N.of_nat (i + 1)) ++ js ": " ++ name note
          ++ js " (Modified: " ++ toLocaleString (modificationDate note)
          ++ js ") ---" ++ [LF] ++ content ++ [LF])
      ++ post.
Proof.
  intros Hdoc Hi Hcontent Hblank. unfold aggregateContent in Hdoc.
  destruct notes as [|n notes]; [done|].
  destruct (aggregateLoop _ _ _ _ _) as [e|sections] eqn:Hloop; [done|].
  pose proof (aggregateLoop_sections_of _ _ _ _ _ _ _ _ _ Hloop Hi Hcontent Hblank)
    as Hin.
  destruct sections as [|s sections]; [done|].
  assert (document = join [LF; LF] (s :: sections)) as -> by congruence.
  by apply join_In.
Qed.

Lemma aggregateContent_has_every_section_witness :
  ∃ pre post,
    Pipeline.aggregatedContent Samples.sampleProcessed
    = pre
      ++ (js "--- Note " ++ decimal (N.of_nat (1 + 1)) ++ js ": " ++ js "a"
          ++ js " (Modified: " ++ Samples.sampleLocale 20
          ++ js ") ---" ++ [LF] ++ js "x" ++ [LF])
      ++ post.
Proof.
  apply (aggregateContent_has_every_section Samples.sampleLocale Missing
           (Pipeline.notes Samples.sampleProcessed)
           (Pipeline.aggregatedContent Samples.sampleProcessed) 1
           {| name := js "a"; body := js "x"; modificationDate := 20 |} (js "x")).
  - vm_compute. reflexivity.
  - reflexivity.
  - reflexivity.
  - vm_compute. discriminate.
Defined.

(** X11: one failure fails the whole document.  If [extractNewContent]
    throws for some note of the list, [aggregateContent] throws too (the
    error of the first note that fails) and returns no part of the
    document. *)
Theorem aggregateContent_fails_as_a_whole (toLocaleString : Z → jstring)
    (f : File) (notes : list Note) (note : Note) (e : Thrown) :
  In note notes →
  extractNewContent f note = inl e →
  ∃ first e',
    In first notes ∧ extractNewContent f first = inl e'
    ∧ aggregateContent toLocaleString f notes = inl e'.
Proof.
  intros Hin Hthrows.
  destruct (aggregateLoop_throws toLocaleString f notes 0 [] note e Hin Hthrows)
    as (first & e' & Hfirst & Hfails & Hloop).
  exists first, e'. split; [done|]. split; [done|].
  unfold aggregateContent. destruct notes as [|n notes]; [done|].
  by rewrite Hloop.
Qed.

Lemma aggregateContent_fails_as_a_whole_witness :
  ∃ first e',
    In first
      [ Examples.noteA;
        {| name := js "constructor"; body := js "hello"; modificationDate := 0 |} ]
    ∧ extractNewContent (Stored [] {[ js "A" := Examples.snapshotA ]}) first = inl e'
    ∧ aggregateContent Samples.sampleLocale
        (Stored [] {[ js "A" := Examples.snapshotA ]})
        [ Examples.noteA;
          {| name := js "constructor"; body := js "hello"; modificationDate := 0 |} ]
      = inl e'.
Proof.
  apply (aggregateContent_fails_as_a_whole Samples.sampleLocale
           (Stored [] {[ js "A" := Examples.snapshotA ]})
           [ Examples.noteA;
             {| name := js "constructor"; body := js "hello"; modificationDate := 0 |} ]
           {| name := js "constructor"; body := js "hello"; modificationDate := 0 |}
           TypeError).
  - right. left. reflexivity.
  - vm_compute. reflexivity.
Defined.

End AggregationFacts.

(** * The daily run *)

Module SchedulerFacts.

Import NoteProcessor NoteSnapshotStore AnthropicClient CronScheduler Samples.

Local Open Scope Z_scope.

Lemma processNotes_nothing_modified (toLocaleString : Z → jstring)
    (cutoff : Z) (snapshots : File) (allNotes : list Note) :
  Forall (fun note => Pipeline.modifiedSince (TimestampStore.Time cutoff) note = false)
    allNotes →
  Pipeline.processNotes toLocaleString (inr (TimestampStore.Time cutoff))
    snapshots allNotes
  = inr {| Pipeline.notes := [];
           Pipeline.aggregatedContent := noNotesModified;
           Pipeline.cutoffDate := TimestampStore.Time cutoff |}.
Proof.
  intros Hnone. unfold Pipeline.processNotes.
  replace (List.filter (Pipeline.modifiedSince (TimestampStore.Time cutoff)) allNotes)
    with (@nil Note); [done|].
  symmetry. induction Hnone as [|note notes Hnote _ IH]; [done|].
  simpl in *. by rewrite Hnote.
Qed.

Section RunFacts.

Variable minus24Hours : Z → Z.
Variable toLocaleString : Z → jstring.
Variable toISOString : Z → jstring.

Abbreviation run := (executeDailyBrief minus24Hours toLocaleString toISOString).

Abbreviation processed_by host stores allNotes :=
  (Pipeline.processNotes toLocaleString
     (TimestampStore.getCutoffDate minus24Hours (lastRunFile stores) (cutoffTime host))
     (snapshotFile stores) allNotes).

Ltac unfold_run :=
  unfold executeDailyBrief, try, bind, lift, call, ret, processNotes,
    saveSnapshots, updateLastRun, succeeds,
    Snapshots.saveSnapshots, TimestampStore.updateLastRun.

(** The run, case by case. *)
Lemma run_outcome (config : SchedulerConfig) (host : Host) (stores : Stores) :
  run config host stores
  = match extractNotes host with
    | None => (stores, [], Some tt)
    | Some allNotes =>
        match processed_by host stores allNotes with
        | inl _ => (stores, [], Some tt)
        | inr processed =>
            match Pipeline.notes processed with
            | [] =>
                (match lastRunDisk host with
                 | TimestampStore.Writable =>
                     {| lastRunFile :=
                          TimestampStore.Stored (TimestampStore.Time (lastRunTime host));
                        snapshotFile := snapshotFile stores |}
                 | TimestampStore.Failing _ => stores
                 end, [], Some tt)
            | _ :: _ =>
                let content := Pipeline.aggregatedContent processed in
                match generateBrief host content with
                | None => (stores, [GenerateBrief content], Some tt)
                | Some brief =>
                    let posted :=
                      if slackWriter config then [PostDailyBrief brief] else [] in
                    let noted :=
                      if createAppleNote config && notesWriter config
                      then [CreateDailyBriefNote brief] else [] in
                    if negb (writeDailyBrief host brief)
                    then (stores, [GenerateBrief content; WriteDailyBrief brief], Some tt)
                    else if createAppleNote config && notesWriter config
                            && negb (createDailyBriefNote host brief)
                    then (stores,
                          GenerateBrief content :: WriteDailyBrief brief
                          :: posted ++ noted, Some tt)
                    else
                      (match snapshotDisk host with
                       | Snapshots.Failing _ => stores
                       | Snapshots.Writable =>
                           {| lastRunFile :=
                                match lastRunDisk host with
                                | TimestampStore.Writable =>
                                    TimestampStore.Stored
                                      (TimestampStore.Time (lastRunTime host))
                                | TimestampStore.Failing _ => lastRunFile stores
                                end;
                              snapshotFile :=
                                Stored (toISOString (snapshotTime host))
                                  (Snapshots.indexByName
                                     (snapshotData toISOString allNotes)) |}
                       end,
                       GenerateBrief content :: WriteDailyBrief brief
                       :: posted ++ noted, Some tt)
                end
            end
        end
    end.
Proof.
  unfold_run.
  destruct (extractNotes host) as [allNotes|]; [|done].
  destruct (Pipeline.processNotes _ _ _ _) as [e|processed]; [done|].
  destruct (Pipeline.notes processed) as [|note rest].
  { cbn. by destruct (lastRunDisk host). }
  cbn [length Nat.eqb].
  generalize (Snapshots.indexByName (snapshotData toISOString allNotes)).
  intros saved.
  destruct (generateBrief host _) as [brief|]; [|done].
  destruct (writeDailyBrief host brief); [|done].
  destruct (slackWriter config), (postDailyBrief host brief),
    (createAppleNote config), (notesWriter config),
    (createDailyBriefNote host brief), (snapshotDisk host), (lastRunDisk host),
    stores; reflexivity.
Qed.

(** X12: a run that finds no note modified since the cutoff calls no
    service: the language model is not asked, nothing is written or
    posted, and the snapshot file is not touched, nor even read; only the
    time of the last run is updated (when the disk lets it). *)
Theorem run_without_modified_notes (config : SchedulerConfig) (host : Host)
    (stores : Stores) (allNotes : list Note) (cutoff : Z) :
  extractNotes host = Some allNotes →
  TimestampStore.getCutoffDate minus24Hours (lastRunFile stores) (cutoffTime host)
  = inr (TimestampStore.Time cutoff) →
  Forall (fun note => NoteProcessor.modificationDate note < cutoff) allNotes →
  run config host stores
  = (match lastRunDisk host with
     | TimestampStore.Writable =>
         {| lastRunFile := TimestampStore.Stored (TimestampStore.Time (lastRunTime host));
            snapshotFile := snapshotFile stores |}
     | TimestampStore.Failing _ => stores
     end, [], Some tt).
Proof.
  intros Hnotes Hcutoff Hnone. rewrite run_outcome, Hnotes, Hcutoff.
  rewrite processNotes_nothing_modified; [done|].
  eapply Forall_impl; [exact Hnone|]. intros note Hold. by apply Z.leb_gt.
Qed.

(** X13: when the language model fails, the run stops there and leaves
    both files as they were: no brief is written, posted or noted, no
    snapshot is saved and the time of the last run is not updated. *)
Theorem run_with_failing_model (config : SchedulerConfig) (host : Host)
    (stores : Stores) (allNotes : list Note) (processed : Pipeline.ProcessedNotes) :
  extractNotes host = Some allNotes →
  processed_by host stores allNotes = inr processed →
  Pipeline.notes processed ≠ [] →
  generateBrief host (Pipeline.aggregatedContent processed) = None →
  run config host stores
  = (stores, [GenerateBrief (Pipeline.aggregatedContent processed)], Some tt).
Proof.
  intros Hnotes Hprocessed Hsome Hfails. rewrite run_outcome, Hnotes, Hprocessed.
  destruct (Pipeline.notes processed) as [|note rest]; [done|]. simpl.
  by rewrite Hfails.
Qed.

(** X14: a failure to post to Slack changes nothing else: the run makes
    the same calls and leaves the same files whether [postDailyBrief]
    succeeds or throws. *)
Theorem run_whatever_slack_answers (config : SchedulerConfig) (host : Host)
    (stores : Stores) (answer : DailyBrief → bool) :
  run config (withPostDailyBrief host answer) stores = run config host stores.
Proof.
  by rewrite !run_outcome.
Qed.

(** X15: a failure to create the Apple note stops the run before the
    snapshots: when the note is configured and [createDailyBriefNote]
    throws, the snapshot file stays as it was, although the brief has
    been written to its file by then. *)
Theorem run_with_failing_note (config : SchedulerConfig) (host : Host)
    (stores : Stores) :
  createAppleNote config = true →
  notesWriter config = true →
  (∀ brief, createDailyBriefNote host brief = false) →
  snapshotFile (run config host stores).1.1 = snapshotFile stores.
Proof.
  intros Hcreate Hwriter Hfails. rewrite run_outcome, Hcreate, Hwriter.
  destruct (extractNotes host) as [allNotes|]; [|done].
  destruct (Pipeline.processNotes _ _ _ _) as [e|processed]; [done|].
  destruct (Pipeline.notes processed) as [|note rest].
  { by destruct (lastRunDisk host). }
  cbv zeta. destruct (generateBrief host _) as [brief|]; [|done].
  rewrite Hfails. by destruct (writeDailyBrief host brief).
Qed.

(** X16: snapshots are saved only by a run that got a brief from the
    model and wrote it to its file; and what is saved then is the whole
    list of extracted notes, not only those inside the window. *)
Theorem run_saves_snapshots_last (config : SchedulerConfig) (host : Host)
    (stores stores' : Stores) (calls : list Call) (value : option unit) :
  run config host stores = (stores', calls, value) →
  snapshotFile stores' ≠ snapshotFile stores →
  ∃ allNotes content brief rest,
    extractNotes host = Some allNotes
    ∧ calls = GenerateBrief content :: WriteDailyBrief brief :: rest
    ∧ generateBrief host content = Some brief
    ∧ writeDailyBrief host brief = true
    ∧ snapshotFile stores'
      = Stored (toISOString (snapshotTime host))
               (Snapshots.indexByName (snapshotData toISOString allNotes)).
Proof.
  rewrite run_outcome. intros Hrun Hchanged.
  destruct (extractNotes host) as [allNotes|]; [|by simplify_eq].
  destruct (Pipeline.processNotes _ _ _ _) as [e|processed]; [by simplify_eq|].
  destruct (Pipeline.notes processed) as [|note rest].
  { destruct (lastRunDisk host); by simplify_eq. }
  cbv zeta in Hrun.
  destruct (generateBrief host _) as [brief|] eqn:Hbrief; [|by simplify_eq].
  destruct (writeDailyBrief host brief) eqn:Hwritten;
    simpl in Hrun; [|by simplify_eq].
  destruct (createAppleNote config && notesWriter config
            && negb (createDailyBriefNote host brief)); [by simplify_eq|].
  destruct (snapshotDisk host); [|by simplify_eq].
  injection Hrun as <- <- <-. by eexists _, _, _, _.
Qed.

Lemma snapshotData_none (notes : list Note) (noteName : jstring) :
  noteName ∉ map NoteProcessor.name notes →
  List.filter (fun n => bool_decide (NoteSnapshotStore.name n = noteName))
    (snapshotData toISOString notes)
  = [].
Proof.
  induction notes as [|m notes IH]; [done|].
  cbn [map]. intros Hfresh. apply not_elem_of_cons in Hfresh as [Hne Hrest].
  simpl. rewrite bool_decide_eq_false_2 by done. by apply IH.
Qed.

(** The snapshot saved for a note whose name no other note has. *)
Lemma snapshotData_last (allNotes : list Note) (note : Note) :
  NoDup (map NoteProcessor.name allNotes) →
  In note allNotes →
  last (List.filter
          (fun n => bool_decide (NoteSnapshotStore.name n = NoteProcessor.name note))
          (snapshotData toISOString allNotes))
  = Some {| NoteSnapshotStore.name := NoteProcessor.name note;
            NoteSnapshotStore.body := NoteProcessor.body note;
            NoteSnapshotStore.modificationDate :=
              toISOString (NoteProcessor.modificationDate note) |}.
Proof.
  induction allNotes as [|n notes IH]; [done|].
  cbn [map]. intros Hdup Hin. apply NoDup_cons in Hdup as [Hfresh Hdup].
  destruct Hin as [->|Hin]; simpl.
  - rewrite bool_decide_eq_true_2 by done.
    by rewrite (snapshotData_none _ _ Hfresh).
  - rewrite bool_decide_eq_false_2; [by apply IH|].
    simpl. intros Hname. apply Hfresh. rewrite Hname.
    apply list_elem_of_In, in_map, Hin.
Qed.

(** X17: the text for no new content goes to the language model.  In a
    run that finds the notes as the last completed run saved them
    (distinct names, none of them [__proto__]), with at least one of them
    modified since the cutoff, [generateBrief] is called, and the content
    it is given is 'No new content was added to notes in the last 24
    hours.'. *)
Theorem run_on_unchanged_notes (config : SchedulerConfig) (host : Host)
    (stores : Stores) (allNotes : list Note) (lastRun : jstring) (cutoff : Z) :
  extractNotes host = Some allNotes →
  snapshotFile stores
  = Stored lastRun (Snapshots.indexByName (snapshotData toISOString allNotes)) →
  NoDup (map NoteProcessor.name allNotes) →
  Forall (fun note => NoteProcessor.name note ≠ js "__proto__") allNotes →
  TimestampStore.getCutoffDate minus24Hours (lastRunFile stores) (cutoffTime host)
  = inr (TimestampStore.Time cutoff) →
  Exists (fun note => cutoff ≤ NoteProcessor.modificationDate note) allNotes →
  ∃ rest, (run config host stores).1.2 = GenerateBrief noNewContent :: rest.
Proof.
  intros Hnotes Hsaved Hdup Hproto Hcutoff Hsome.
  set (filtered := Pipeline.sortNewestFirst
                     (List.filter
                        (Pipeline.modifiedSince (TimestampStore.Time cutoff))
                        allNotes)).
  assert (∀ note, In note filtered → In note allNotes) as Hsub.
  { intros note Hin. apply list_elem_of_In in Hin. unfold filtered in Hin.
    rewrite PipelineFacts.sortNewestFirst_perm in Hin.
    by apply list_elem_of_In, filter_In in Hin as [? _]. }
  assert (filtered ≠ []) as Hfiltered.
  { apply Exists_exists in Hsome as (note & Hin & Hnote).
    assert (note ∈ filtered) as Hmem.
    { unfold filtered. rewrite PipelineFacts.sortNewestFirst_perm.
      apply list_elem_of_In, filter_In.
      split; [by apply list_elem_of_In | by apply Z.leb_le]. }
    intros Hnil. rewrite Hnil in Hmem. by apply not_elem_of_nil in Hmem. }
  assert (aggregateContent toLocaleString (snapshotFile stores) filtered
          = inr noNewContent) as Hcontent.
  { destruct filtered as [|note rest] eqn:Hlist; [done|].
    unfold aggregateContent. rewrite DiffEngine.aggregateLoop_blank; [done|].
    intros n Hn. exists []. split; [|done].
    apply Hsub in Hn. rewrite Hsaved.
    rewrite (DiffEngine.extractNewContent_stored _ _ _
               {| NoteSnapshotStore.name := NoteProcessor.name n;
                  NoteSnapshotStore.body := NoteProcessor.body n;
                  NoteSnapshotStore.modificationDate :=
                    toISOString (NoteProcessor.modificationDate n) |}).
    - simpl. by rewrite SnapshotFacts.diffLines_same.
    - unfold Snapshots.indexByName.
      rewrite SnapshotFacts.fold_assign_lookup, snapshotData_last; try done.
      rewrite Forall_forall in Hproto. by apply Hproto, list_elem_of_In. }
  rewrite run_outcome, Hnotes, Hcutoff. unfold Pipeline.processNotes.
  fold filtered. rewrite Hcontent. simpl.
  destruct filtered as [|note rest]; [done|].
  destruct (generateBrief host noNewContent) as [brief|]; [|by eexists].
  destruct (writeDailyBrief host brief); simpl; [|by eexists].
  destruct (createAppleNote config && notesWriter config
            && negb (createDailyBriefNote host brief)); by eexists.
Qed.

End RunFacts.

Lemma run_without_modified_notes_witness :
  executeDailyBrief dayBefore sampleLocale sampleISO allOutputs quietHost firstRun
  = (match lastRunDisk quietHost with
     | TimestampStore.Writable =>
         {| lastRunFile :=
              TimestampStore.Stored (TimestampStore.Time (lastRunTime quietHost));
            snapshotFile := snapshotFile firstRun |}
     | TimestampStore.Failing _ => firstRun
     end, [], Some tt).
Proof.
  apply (run_without_modified_notes dayBefore sampleLocale sampleISO allOutputs
           quietHost firstRun oldNotes 10).
  - reflexivity.
  - reflexivity.
  - repeat constructor.
Defined.

Lemma run_with_failing_model_witness :
  executeDailyBrief dayBefore sampleLocale sampleISO allOutputs modelDownHost firstRun
  = (firstRun, [GenerateBrief (Pipeline.aggregatedContent sampleProcessed)], Some tt).
Proof.
  apply (run_with_failing_model dayBefore sampleLocale sampleISO allOutputs
           modelDownHost firstRun sampleNotes sampleProcessed).
  - reflexivity.
  - vm_compute. reflexivity.
  - discriminate.
  - reflexivity.
Defined.

Lemma run_with_failing_note_witness :
  snapshotFile
    (executeDailyBrief dayBefore sampleLocale sampleISO allOutputs notesDownHost
       firstRun).1.1
  = snapshotFile firstRun.
Proof.
  apply (run_with_failing_note dayBefore sampleLocale sampleISO allOutputs
           notesDownHost firstRun).
  - reflexivity.
  - reflexivity.
  - intros brief. reflexivity.
Defined.

Lemma run_saves_snapshots_last_witness :
  ∃ allNotes content brief rest,
    extractNotes sampleHost = Some allNotes
    ∧ (executeDailyBrief dayBefore sampleLocale sampleISO allOutputs sampleHost
         firstRun).1.2
      = GenerateBrief content :: WriteDailyBrief brief :: rest
    ∧ generateBrief sampleHost content = Some brief
    ∧ writeDailyBrief sampleHost brief = true
    ∧ snapshotFile
        (executeDailyBrief dayBefore sampleLocale sampleISO allOutputs sampleHost
           firstRun).1.1
      = Stored (sampleISO (snapshotTime sampleHost))
               (Snapshots.indexByName (snapshotData sampleISO allNotes)).
Proof.
  apply (run_saves_snapshots_last dayBefore sampleLocale sampleISO allOutputs
           sampleHost firstRun _ _
           (executeDailyBrief dayBefore sampleLocale sampleISO allOutputs sampleHost
              firstRun).2).
  - by destruct (executeDailyBrief _ _ _ _ _ _) as [[] ?].
  - vm_compute. discriminate.
Defined.

Lemma run_on_unchanged_notes_witness :
  ∃ rest,
    (executeDailyBrief dayBefore sampleLocale sampleISO allOutputs sampleHost
       afterFirstRun).1.2
    = GenerateBrief noNewContent :: rest.
Proof.
  apply (run_on_unchanged_notes dayBefore sampleLocale sampleISO allOutputs
           sampleHost afterFirstRun sampleNotes (sampleISO 20) 10).
  - reflexivity.
  - reflexivity.
  - apply (bool_decide_unpack _). vm_compute. exact I.
  - repeat constructor; discriminate.
  - reflexivity.
  - apply Exists_cons_tl, Exists_cons_hd. simpl. lia.
Defined.

End SchedulerFacts.

(** * The prompt, the lenient normalization and the parse errors *)

Module ClientFacts.

Import Json AnthropicClient Prompt.

Local Open Scope Z_scope.

Lemma substring_prefix (s : jstring) (n : Z) :
  0 ≤ n ≤ len s → substring s 0 n = take (Z.to_nat n) s.
Proof.
  intros Hn. unfold substring, clamp.
  replace (Z.min (Z.max 0 0) (len s)) with 0 by lia.
  replace (Z.min (Z.max n 0) (len s)) with n by lia.
  replace (Z.min 0 n) with 0 by lia. replace (Z.max 0 n) with n by lia.
  by rewrite Z.sub_0_r.
Qed.

Lemma len_app (s t : jstring) : len (s ++ t) = len s + len t.
Proof. unfold len. rewrite length_app. lia. Qed.

Lemma len_take (s : jstring) (n : Z) : 0 ≤ n ≤ len s → len (take (Z.to_nat n) s) = n.
Proof. unfold len. intros Hn. rewrite length_take. lia. Qed.

(** X18: the prompt is the fixed instructions followed by the notes, and
    the notes part is bounded: content of at most 200000 code units goes
    in whole; of longer content only the first 200000 code units go in,
    followed by a notice of 35 code units, so that the notes part never
    exceeds 200035 code units. *)
Theorem prompt_is_bounded (content : jstring) :
  ∃ notes,
    prompt content = buildPrompt [] ++ notes
    ∧ len notes ≤ 200035
    ∧ (len content ≤ 200000 → notes = content)
    ∧ (200000 < len content →
       notes = take (Z.to_nat maxChars) content
               ++ [LF; LF] ++ js "[Content truncated due to length]").
Proof.
  exists (truncatedContent content). split.
  { unfold prompt, buildPrompt. by rewrite app_nil_r, <- app_assoc. }
  unfold truncatedContent.
  assert (maxChars = 200000) as Hmax by reflexivity.
  destruct (maxChars <? len content) eqn:Hlong.
  - apply Z.ltb_lt in Hlong.
    rewrite substring_prefix by lia.
    split; [|split; [lia | done]].
    rewrite len_app, len_take by lia.
    change (len ([LF; LF] ++ js "[Content truncated due to length]")) with 35. lia.
  - apply Z.ltb_ge in Hlong. split; [lia|]. split; [done | lia].
Qed.

(** X19: the lenient normalization deletes commas and nothing else.  Both
    passes return the text with some of its commas left out: the other
    code units are all there, in their order. *)
Theorem normalization_deletes_only_commas (s : jstring) :
  (removeTrailingCommas s `sublist_of` s
   ∧ List.filter (fun c => negb (isChar "," c)) (removeTrailingCommas s)
     = List.filter (fun c => negb (isChar "," c)) s)
  ∧ (removeTrailingCommasNewline s `sublist_of` s
     ∧ List.filter (fun c => negb (isChar "," c)) (removeTrailingCommasNewline s)
       = List.filter (fun c => negb (isChar "," c)) s).
Proof.
  split; (split; induction s as [|c rest IH]; simpl; [done | | done |]).
  - destruct (isChar "," c && closes rest);
      [by apply sublist_cons | by apply sublist_skip].
  - destruct (isChar "," c) eqn:Hcomma; simpl.
    + by destruct (closes rest); simpl; rewrite ?Hcomma.
    + by rewrite Hcomma, IH.
  - destruct (isChar "," c && closesAfterNewline rest);
      [by apply sublist_cons | by apply sublist_skip].
  - destruct (isChar "," c) eqn:Hcomma; simpl.
    + by destruct (closesAfterNewline rest); simpl; rewrite ?Hcomma.
    + by rewrite Hcomma, IH.
Qed.

Section Messages.

Context {engine : Engine}.

Lemma validate_throws (parsed : Json.value number) (e : Thrown) :
  validate parsed = Throws e → e = InvalidStructure ∨ e = TypeError.
Proof.
  unfold validate.
  repeat (match goal with
          | |- context [match ?x with _ => _ end] => destruct x
          end); intros [= <-]; auto.
Qed.

End Messages.

(** X20: a parse failure is reported with the message of the first
    parse.  Whenever [parseResponse] throws one of its three parse
    errors, the message it carries is the one [JSON.parse] gave for the
    extracted text after the first removal of commas, also when what
    failed last was the rebuilt text or the second attempt. *)
Theorem parse_errors_carry_first_message (engine : Engine)
    (response message : jstring) :
  result (parseResponse response) = Throws (Unparseable message)
  ∨ result (parseResponse response) = Throws (Truncated message)
  ∨ result (parseResponse response) = Throws (TruncatedNoItems message) →
  ∃ jsonMatch,
    extractJson response = Some jsonMatch
    ∧ JSON_parse (removeTrailingCommas jsonMatch) = inl message.
Proof.
  unfold parseResponse.
  destruct (extractJson response) as [jsonMatch|]; [|simpl; naive_solver].
  intros Hthrown. exists jsonMatch. split; [done|].
  destruct (JSON_parse (removeTrailingCommas jsonMatch)) as [first|parsed].
  - f_equal.
    destruct (truncatedAt _ _) as [errorPos|].
    + unfold repair in Hthrown.
      repeat (match type of Hthrown with
              | context [match ?x with _ => _ end] => destruct x eqn:?
              | context [if ?x then _ else _] => destruct x eqn:?
              end; simpl in Hthrown);
        try naive_solver;
        destruct Hthrown as [H|[H|H]]; apply validate_throws in H; naive_solver.
    + unfold retry in Hthrown.
      destruct (JSON_parse _) as [second|parsed]; simpl in Hthrown;
        [naive_solver|].
      destruct Hthrown as [H|[H|H]]; apply validate_throws in H; naive_solver.
  - simpl in Hthrown.
    destruct Hthrown as [H|[H|H]]; apply validate_throws in H; naive_solver.
Qed.

Lemma parse_errors_carry_first_message_witness :
  ∃ jsonMatch,
    extractJson (jq "{'a' 1}") = Some jsonMatch
    ∧ JSON_parse (Engine := V8.engine) (removeTrailingCommas jsonMatch)
      = inl (js "Expected ':' after property name in JSON at position 5").
Proof.
  apply (parse_errors_carry_first_message V8.engine (jq "{'a' 1}")
           (js "Expected ':' after property name in JSON at position 5")).
  right. left. vm_compute. reflexivity.
Defined.

End ClientFacts.

(** * The writers *)

Module WriterFacts.

Import AnthropicClient Writers Notions.

Local Open Scope Z_scope.

Lemma replaceAll_flat_map (c : N) (replacement : jstring) (f : N → jstring)
    (text : jstring) :
  replaceAll c replacement (flat_map f text)
  = flat_map (fun x => replaceAll c replacement (f x)) text.
Proof.
  unfold replaceAll. induction text as [|x text IH]; [done|].
  simpl. by rewrite flat_map_app, IH.
Qed.

Lemma escapeUnit_chain (c : N) :
  replaceAll CR [BACKSLASH; 114%N]
    (replaceAll LF [BACKSLASH; 110%N]
       (replaceAll DQUOTE [BACKSLASH; DQUOTE]
          (replaceAll BACKSLASH [BACKSLASH; BACKSLASH] [c])))
  = escapeUnit c.
Proof.
  unfold escapeUnit, replaceAll.
  destruct (N.eqb c BACKSLASH) eqn:Hb; simpl; rewrite Hb; [done|].
  destruct (N.eqb c DQUOTE) eqn:Hq; simpl; rewrite Hq; [done|].
  destruct (N.eqb c LF) eqn:Hl; simpl; rewrite Hl; [done|].
  destruct (N.eqb c CR) eqn:Hc; simpl; by rewrite Hc.
Qed.

(** The four replacements amount to one pass. *)
Lemma escapeForAppleScript_units (text : jstring) :
  escapeForAppleScript text = flat_map escapeUnit text.
Proof.
  unfold escapeForAppleScript.
  replace (replaceAll BACKSLASH [BACKSLASH; BACKSLASH] text)
    with (flat_map (fun c => replaceAll BACKSLASH [BACKSLASH; BACKSLASH] [c]) text).
  - rewrite !replaceAll_flat_map. apply flat_map_ext. apply escapeUnit_chain.
  - unfold replaceAll. apply flat_map_ext. intros c. simpl. by rewrite app_nil_r.
Qed.

(** X21: the escaping is read back exactly.  Put between double quotes
    in a script, the escaped text is read by AppleScript as the original
    text, and the literal ends at the closing quote that the script
    supplies, whatever the text holds; and no line feed or carriage
    return is left in the escaped text. *)
Theorem escapeForAppleScript_round_trip (text rest : jstring) :
  readLiteral (escapeForAppleScript text ++ DQUOTE :: rest) = Some (text, rest)
  ∧ Forall (fun c => c ≠ LF ∧ c ≠ CR) (escapeForAppleScript text).
Proof.
  rewrite escapeForAppleScript_units. split.
  - induction text as [|c text IH]; [done|].
    cbn [flat_map]. rewrite <- app_assoc. unfold escapeUnit at 1.
    destruct (N.eqb c BACKSLASH) eqn:Hb.
    { apply N.eqb_eq in Hb. subst c. cbn. cbn in IH. by rewrite IH. }
    destruct (N.eqb c DQUOTE) eqn:Hq.
    { apply N.eqb_eq in Hq. subst c. cbn. cbn in IH. by rewrite IH. }
    destruct (N.eqb c LF) eqn:Hl.
    { apply N.eqb_eq in Hl. subst c. cbn. cbn in IH. by rewrite IH. }
    destruct (N.eqb c CR) eqn:Hc.
    { apply N.eqb_eq in Hc. subst c. cbn. cbn in IH. by rewrite IH. }
    cbn [app readLiteral]. by rewrite Hq, Hb, IH.
  - induction text as [|c text IH]; [constructor|].
    cbn [flat_map]. apply Forall_app. split; [|done].
    unfold escapeUnit.
    destruct (N.eqb c BACKSLASH) eqn:Hb; [by repeat constructor|].
    destruct (N.eqb c DQUOTE) eqn:Hq; [by repeat constructor|].
    destruct (N.eqb c LF) eqn:Hl; [by repeat constructor|].
    destruct (N.eqb c CR) eqn:Hc; [by repeat constructor|].
    apply N.eqb_neq in Hl, Hc. by repeat constructor.
Qed.

Lemma fold_append {A : Type} (f : A → jstring) (items : list A) (acc : jstring) :
  fold_left (fun acc item => acc ++ f item) items acc
  = acc ++ concat (map f items).
Proof.
  revert acc. induction items as [|item items IH]; intros acc; simpl.
  - by rewrite app_nil_r.
  - by rewrite IH, <- app_assoc.
Qed.

Lemma In_escapeForAppleScript (c : N) (text : jstring) :
  c ≠ BACKSLASH → c ≠ DQUOTE → c ≠ LF → c ≠ CR →
  In c text → In c (escapeForAppleScript text).
Proof.
  intros Hb Hq Hl Hc Hin. rewrite escapeForAppleScript_units.
  apply in_flat_map. exists c. split; [done|].
  unfold escapeUnit. apply N.eqb_neq in Hb, Hq, Hl, Hc.
  rewrite Hb, Hq, Hl, Hc. by left.
Qed.

Section DateFacts.

Variable getFullYear : Z → Z.
Variable getMonth : Z → Z.
Variable getDate : Z → Z.
Variable toLocaleDateString : Z → jstring.
Variable toLocaleString : Z → jstring.

Lemma In_formatNoteContent (c : N) (brief : DailyBrief) (date now : Z) :
  In c (executiveSummary brief) →
  In c (formatNoteContent toLocaleDateString toLocaleString brief date now).
Proof.
  intros Hin. unfold formatNoteContent.
  destruct (length (actionItems brief) =? 0)%nat.
  - rewrite !in_app_iff. tauto.
  - cbv zeta.
    destruct (0 <? length (withPriority High (actionItems brief)))%nat,
      (0 <? length (withPriority Medium (actionItems brief)))%nat,
      (0 <? length (withPriority Low (actionItems brief)))%nat;
      rewrite ?fold_append, !in_app_iff; tauto.
Qed.

End DateFacts.

(** X22: an apostrophe in the brief reaches the shell unescaped.  The
    script goes to the shell between apostrophes, and
    [escapeForAppleScript] leaves apostrophes alone: when the summary of
    the brief holds one, so does the script of every command that
    [createDailyBriefNote] runs, and the quoted word ends there. *)
Theorem apostrophe_reaches_the_shell (getFullYear getMonth getDate : Z → Z)
    (toLocaleDateString toLocaleString : Z → jstring)
    (exec : jstring → bool) (brief : DailyBrief) (date now : Z) :
  In APOSTROPHE (executiveSummary brief) →
  Forall (fun command =>
            ∃ script, command = osascript script ∧ In APOSTROPHE script)
    (createDailyBriefNote getFullYear getMonth getDate toLocaleDateString
       toLocaleString exec brief date now).1.
Proof.
  intros Hin.
  assert (In APOSTROPHE
            (escapeForAppleScript
               (formatNoteContent toLocaleDateString toLocaleString brief date now)))
    as Hcontent.
  { apply In_escapeForAppleScript; try done. by apply In_formatNoteContent. }
  unfold createDailyBriefNote. cbv zeta.
  set (content := escapeForAppleScript (formatNoteContent _ _ _ _ _)) in *.
  set (title := escapeForAppleScript _).
  assert (In APOSTROPHE (appleScript title content)) as Hfirst.
  { unfold appleScript. rewrite !in_app_iff. tauto. }
  assert (In APOSTROPHE (fallbackScript title content)) as Hsecond.
  { unfold fallbackScript. rewrite !in_app_iff. tauto. }
  destruct (exec (osascript (appleScript title content))); simpl.
  - repeat constructor. by eexists.
  - destruct (exec (osascript (fallbackScript title content))); simpl;
      repeat constructor; by eexists.
Qed.

Lemma apostrophe_reaches_the_shell_witness :
  Forall (fun command =>
            ∃ script, command = osascript script ∧ In APOSTROPHE script)
    (createDailyBriefNote (fun _ => 2026) (fun _ => 0) (fun _ => 5)
       Samples.sampleLocale Samples.sampleLocale (fun _ => false)
       {| executiveSummary := js "The day's work."; actionItems := [] |} 0 0).1.
Proof.
  apply (apostrophe_reaches_the_shell (fun _ => 2026) (fun _ => 0) (fun _ => 5)
           Samples.sampleLocale Samples.sampleLocale (fun _ => false)
           {| executiveSummary := js "The day's work."; actionItems := [] |} 0 0).
  simpl. tauto.
Defined.

(** The numerals of the years of four digits, and of the months and days,
    checked one by one. *)
Lemma four_digits :
  forallb (fun a =>
    forallb (fun b =>
      forallb (fun c =>
        forallb (fun d =>
          match numberToString (1000 * a + 100 * b + 10 * c + d) with
          | [w; x; y; z] => isDigit w && isDigit x && isDigit y && isDigit z
          | _ => false
          end)
          [0; 1; 2; 3; 4; 5; 6; 7; 8; 9])
        [0; 1; 2; 3; 4; 5; 6; 7; 8; 9])
      [0; 1; 2; 3; 4; 5; 6; 7; 8; 9])
    [1; 2; 3; 4; 5; 6; 7; 8; 9]
  = true.
Proof. vm_compute. reflexivity. Qed.

Lemma two_digits :
  forallb (fun k =>
             let numeral := padStart 2 48 (numberToString (Z.of_nat k)) in
             (length numeral =? 2)%nat && forallb isDigit numeral)
    (seq 0 100)
  = true.
Proof. vm_compute. reflexivity. Qed.

Lemma digit_cases (n : Z) :
  0 ≤ n ≤ 9 → In n [0; 1; 2; 3; 4; 5; 6; 7; 8; 9].
Proof.
  intros Hn.
  assert (n = 0 ∨ n = 1 ∨ n = 2 ∨ n = 3 ∨ n = 4 ∨ n = 5 ∨ n = 6 ∨ n = 7
          ∨ n = 8 ∨ n = 9) as Hcases by lia.
  simpl. intuition auto.
Qed.

Lemma year_numeral (year : Z) :
  1000 ≤ year ≤ 9999 →
  length (numberToString year) = 4%nat
  ∧ Forall (fun c => isDigit c = true) (numberToString year).
Proof.
  intros Hyear.
  assert (1 ≤ year / 1000 ≤ 9) as Ha by (Z.div_mod_to_equations; lia).
  assert (0 ≤ year / 100 mod 10 ≤ 9) as Hb by (Z.div_mod_to_equations; lia).
  assert (0 ≤ year / 10 mod 10 ≤ 9) as Hc by (Z.div_mod_to_equations; lia).
  assert (0 ≤ year mod 10 ≤ 9) as Hd by (Z.div_mod_to_equations; lia).
  assert (1000 * (year / 1000) + 100 * (year / 100 mod 10)
          + 10 * (year / 10 mod 10) + year mod 10 = year) as Hsum
    by (Z.div_mod_to_equations; lia).
  assert (In (year / 1000) [1; 2; 3; 4; 5; 6; 7; 8; 9]) as Hlead.
  { destruct (digit_cases (year / 1000)) as [Hzero|Hin]; [lia | lia | done]. }
  pose proof four_digits as Hall.
  rewrite forallb_forall in Hall. specialize (Hall _ Hlead).
  rewrite forallb_forall in Hall. specialize (Hall _ (digit_cases _ Hb)).
  rewrite forallb_forall in Hall. specialize (Hall _ (digit_cases _ Hc)).
  rewrite forallb_forall in Hall. specialize (Hall _ (digit_cases _ Hd)).
  rewrite Hsum in Hall.
  destruct (numberToString year) as [|w [|x [|y [|z [|? ?]]]]]; try done.
  rewrite !andb_true_iff in Hall. split; [done|].
  repeat constructor; tauto.
Qed.

Lemma padded_numeral (n : Z) :
  0 ≤ n ≤ 99 →
  length (padStart 2 48 (numberToString n)) = 2%nat
  ∧ Forall (fun c => isDigit c = true) (padStart 2 48 (numberToString n)).
Proof.
  intros Hn. pose proof two_digits as Hall.
  rewrite forallb_forall in Hall.
  specialize (Hall (Z.to_nat n)).
  replace (Z.of_nat (Z.to_nat n)) with n in Hall by lia.
  cbv zeta in Hall. rewrite andb_true_iff, Nat.eqb_eq, forallb_forall in Hall.
  destruct Hall as [Hlen Hdigits]; [apply in_seq; lia|].
  split; [done|]. apply Forall_forall. intros c Hc.
  by apply Hdigits, list_elem_of_In.
Qed.

(** X23: [formatDate] writes YYYY-MM-DD.  For a date whose year has four
    digits, the text is ten code units long: four digits, a dash, two
    digits for the month counted from one, a dash, two digits for the
    day, months and days below ten being padded with a zero. *)
Theorem formatDate_shape (getFullYear getMonth getDate : Z → Z) (date : Z) :
  1000 ≤ getFullYear date ≤ 9999 →
  0 ≤ getMonth date ≤ 11 →
  1 ≤ getDate date ≤ 31 →
  ∃ year month day,
    formatDate getFullYear getMonth getDate date
    = year ++ js "-" ++ month ++ js "-" ++ day
    ∧ length year = 4%nat ∧ length month = 2%nat ∧ length day = 2%nat
    ∧ Forall (fun c => isDigit c = true) (year ++ month ++ day)
    ∧ year = numberToString (getFullYear date)
    ∧ (9 ≤ getMonth date → month = numberToString (getMonth date + 1))
    ∧ (getMonth date < 9 → month = js "0" ++ numberToString (getMonth date + 1))
    ∧ (10 ≤ getDate date → day = numberToString (getDate date))
    ∧ (getDate date < 10 → day = js "0" ++ numberToString (getDate date)).
Proof.
  intros Hyear Hmonth Hday.
  destruct (year_numeral _ Hyear) as [Hylen Hydigits].
  destruct (padded_numeral (getMonth date + 1)) as [Hmlen Hmdigits]; [lia|].
  destruct (padded_numeral (getDate date)) as [Hdlen Hddigits]; [lia|].
  eexists _, _, _. split; [reflexivity|].
  split; [done|]. split; [done|]. split; [done|].
  split; [by rewrite !Forall_app|]. split; [done|].
  assert (∀ n, 10 ≤ n ≤ 99 → padStart 2 48 (numberToString n) = numberToString n)
    as Hlong.
  { intros n Hn. pose proof (padded_numeral n) as [Hlen _]; [lia|].
    unfold padStart in *. rewrite length_app, repeat_length in Hlen.
    assert (len (numberToString n) = 2) as Hnum.
    { unfold len.
      assert (forallb (fun k => (length (numberToString (Z.of_nat k)) =? 2)%nat)
                (seq 10 90) = true) as Hall by (vm_compute; reflexivity).
      rewrite forallb_forall in Hall. specialize (Hall (Z.to_nat n)).
      replace (Z.of_nat (Z.to_nat n)) with n in Hall by lia.
      rewrite Nat.eqb_eq in Hall. rewrite Hall; [done | apply in_seq; lia]. }
    by rewrite Hnum. }
  assert (∀ n, 0 ≤ n ≤ 9 →
               padStart 2 48 (numberToString n) = js "0" ++ numberToString n)
    as Hshort.
  { intros n Hn.
    assert (n = 0 ∨ n = 1 ∨ n = 2 ∨ n = 3 ∨ n = 4 ∨ n = 5 ∨ n = 6 ∨ n = 7
            ∨ n = 8 ∨ n = 9) as Hcases by lia.
    repeat destruct Hcases as [->|Hcases]; try reflexivity. by subst n. }
  refine (conj _ (conj _ (conj _ _))); intros; first [apply Hlong | apply Hshort]; lia.
Qed.

Lemma formatDate_shape_witness :
  ∃ year month day,
    formatDate (fun _ => 2026) (fun _ => 0) (fun _ => 5) 0
    = year ++ js "-" ++ month ++ js "-" ++ day
    ∧ length year = 4%nat ∧ length month = 2%nat ∧ length day = 2%nat
    ∧ Forall (fun c => isDigit c = true) (year ++ month ++ day)
    ∧ year = numberToString 2026
    ∧ (9 ≤ 0 → month = numberToString (0 + 1))
    ∧ (0 < 9 → month = js "0" ++ numberToString (0 + 1))
    ∧ (10 ≤ 5 → day = numberToString 5)
    ∧ (5 < 10 → day = js "0" ++ numberToString 5).
Proof.
  apply (formatDate_shape (fun _ => 2026) (fun _ => 0) (fun _ => 5) 0); lia.
Defined.

Lemma occursIn_here (part : jstring) : occursIn part part.
Proof. exists [], []. by rewrite app_nil_r. Qed.

Lemma occursIn_app_l (part whole more : jstring) :
  occursIn part whole → occursIn part (whole ++ more).
Proof.
  intros (pre & post & ->). exists pre, (post ++ more). by rewrite <- !app_assoc.
Qed.

Lemma occursIn_app_r (part whole more : jstring) :
  occursIn part whole → occursIn part (more ++ whole).
Proof.
  intros (pre & post & ->). exists (more ++ pre), post. by rewrite <- !app_assoc.
Qed.

Lemma occursIn_concat (part : jstring) (parts : list jstring) :
  In part parts → occursIn part (concat parts).
Proof.
  induction parts as [|p parts IH]; [done|].
  intros [->|Hin]; simpl.
  - apply occursIn_app_l, occursIn_here.
  - by apply occursIn_app_r, IH.
Qed.

Lemma occursBefore_app (first second left right : jstring) :
  occursIn first left → occursIn second right →
  occursBefore first second (left ++ right).
Proof.
  intros (pre & post & ->) (pre' & post' & ->).
  exists pre, (post ++ pre'), post'. by rewrite <- !app_assoc.
Qed.

Lemma occursBefore_app_l (first second whole more : jstring) :
  occursBefore first second whole → occursBefore first second (whole ++ more).
Proof.
  intros (pre & between & post & ->). exists pre, between, (post ++ more).
  by rewrite <- !app_assoc.
Qed.

Lemma occursBefore_app_r (first second whole more : jstring) :
  occursBefore first second whole → occursBefore first second (more ++ whole).
Proof.
  intros (pre & between & post & ->). exists (more ++ pre), between, post.
  by rewrite <- !app_assoc.
Qed.

Lemma In_withPriority (item : ActionItem) (items : list ActionItem) :
  In item items → In item (withPriority (priority item) items).
Proof.
  intros Hin. apply filter_In. split; [done|]. by destruct (priority item).
Qed.

Lemma withPriority_priority (p : Priority) (item : ActionItem)
    (items : list ActionItem) :
  In item (withPriority p items) → priority item = p.
Proof.
  intros Hin. apply filter_In in Hin as [_ Hp].
  by destruct (priority item), p.
Qed.

Section MarkdownFacts.

Variable toLocaleDateString : Z → jstring.
Variable toLocaleString : Z → jstring.

(** The Markdown as the heading part and one block for each priority. *)
Lemma generateMarkdown_blocks (brief : DailyBrief) (date now : Z) :
  actionItems brief ≠ [] →
  ∃ heading high medium low,
    generateMarkdown toLocaleDateString toLocaleString brief date now
    = heading ++ high ++ medium ++ low
    ∧ (∀ item, In item (actionItems brief) →
         occursIn (checkbox item)
           match priority item with
           | High => high | Medium => medium | Low => low
           end).
Proof.
  intros Hsome. unfold generateMarkdown.
  destruct (actionItems brief) as [|first others] eqn:Hitems; [done|].
  rewrite <- Hitems. replace (length (actionItems brief) =? 0)%nat with false
    by (by rewrite Hitems).
  cbv zeta. rewrite !fold_append.
  match goal with
  | |- context [?h ++ js "## Action Items" ++ [LF; LF]] =>
      set (heading := h ++ js "## Action Items" ++ [LF; LF])
  end.
  set (block := fun (title : jstring) (p : Priority) =>
         if (0 <? length (withPriority p (actionItems brief)))%nat
         then title ++ [LF; LF]
              ++ concat (map checkbox (withPriority p (actionItems brief))) ++ [LF]
         else []).
  exists heading, (block (js "### High Priority") High),
    (block (js "### Medium Priority") Medium), (block (js "### Low Priority") Low).
  split.
  - assert (∀ (title : jstring) p line acc,
              (∀ item, priority item = p → line item = checkbox item) →
              (if (0 <? length (withPriority p (actionItems brief)))%nat
               then ((acc ++ title ++ [LF; LF])
                     ++ concat (map line (withPriority p (actionItems brief))))
                    ++ [LF]
               else acc)
              = acc ++ block title p) as Hblock.
    { intros title p line acc Hline. unfold block.
      destruct (0 <? length _)%nat; [|by rewrite app_nil_r].
      rewrite <- !app_assoc. do 3 f_equal. f_equal. f_equal.
      apply map_ext_in. intros item Hitem. apply Hline.
      by apply withPriority_priority in Hitem. }
    rewrite (Hblock (js "### High Priority") High);
      [|intros item Hp; unfold checkbox; by rewrite Hp].
    rewrite (Hblock (js "### Medium Priority") Medium);
      [|intros item Hp; unfold checkbox; by rewrite Hp].
    rewrite (Hblock (js "### Low Priority") Low);
      [|intros item Hp; unfold checkbox; by rewrite Hp].
    by rewrite <- !app_assoc.
  - intros item Hin. apply In_withPriority in Hin.
    assert (occursIn (checkbox item)
              (block match priority item with
                     | High => js "### High Priority"
                     | Medium => js "### Medium Priority"
                     | Low => js "### Low Priority"
                     end (priority item))) as Hoccurs.
    { unfold block. destruct (withPriority _ _) as [|i rest] eqn:Hgroup; [done|].
      cbn [length Nat.ltb Nat.leb]. rewrite <- Hgroup in Hin |- *.
      apply occursIn_app_r, occursIn_app_r, occursIn_app_l, occursIn_concat.
      by apply in_map. }
    by destruct (priority item).
Qed.

End MarkdownFacts.

(** X24: the Markdown lists every action item: each item of the brief has
    its line in the text, a check box and the task, in bold when the
    priority is high. *)
Theorem generateMarkdown_lists_every_item
    (toLocaleDateString toLocaleString : Z → jstring)
    (brief : DailyBrief) (date now : Z) (item : ActionItem) :
  In item (actionItems brief) →
  occursIn (checkbox item)
    (generateMarkdown toLocaleDateString toLocaleString brief date now).
Proof.
  intros Hin.
  destruct (generateMarkdown_blocks toLocaleDateString toLocaleString brief date now)
    as (heading & high & medium & low & -> & Hblocks).
  { intros Hnil. by rewrite Hnil in Hin. }
  specialize (Hblocks item Hin). destruct (priority item).
  - by apply occursIn_app_r, occursIn_app_l.
  - by apply occursIn_app_r, occursIn_app_r, occursIn_app_l.
  - by apply occursIn_app_r, occursIn_app_r, occursIn_app_r.
Qed.

Lemma generateMarkdown_lists_every_item_witness :
  occursIn (js "- [ ] **Ben: call back**" ++ [LF])
    (generateMarkdown Samples.sampleLocale Samples.sampleLocale Samples.sampleBrief 0 0).
Proof.
  apply (generateMarkdown_lists_every_item Samples.sampleLocale Samples.sampleLocale
           Samples.sampleBrief 0 0 {| task := js "Ben: call back"; priority := High |}).
  left. reflexivity.
Defined.

(** X25: the Markdown goes by priority, not by the order of the brief:
    the line of an item of higher priority stands before the line of any
    item of lower priority, wherever the two are in the list. *)
Theorem generateMarkdown_orders_by_priority
    (toLocaleDateString toLocaleString : Z → jstring)
    (brief : DailyBrief) (date now : Z) (higher lower : ActionItem) :
  In higher (actionItems brief) →
  In lower (actionItems brief) →
  (rank (priority higher) < rank (priority lower))%nat →
  occursBefore (checkbox higher) (checkbox lower)
    (generateMarkdown toLocaleDateString toLocaleString brief date now).
Proof.
  intros Hhigher Hlower Hrank.
  destruct (generateMarkdown_blocks toLocaleDateString toLocaleString brief date now)
    as (heading & high & medium & low & -> & Hblocks).
  { intros Hnil. by rewrite Hnil in Hhigher. }
  pose proof (Hblocks higher Hhigher) as Hfirst.
  pose proof (Hblocks lower Hlower) as Hsecond.
  apply occursBefore_app_r.
  destruct (priority higher), (priority lower); simpl in Hrank; try lia.
  - rewrite app_assoc. by apply occursBefore_app_l, occursBefore_app.
  - apply occursBefore_app; [done|]. by apply occursIn_app_r.
  - by apply occursBefore_app_r, occursBefore_app.
Qed.

Lemma generateMarkdown_orders_by_priority_witness :
  occursBefore (js "- [ ] **urgent**" ++ [LF]) (js "- [ ] later" ++ [LF])
    (generateMarkdown Samples.sampleLocale Samples.sampleLocale
       {| executiveSummary := js "s";
          actionItems := [ {| task := js "later"; priority := Low |};
                           {| task := js "urgent"; priority := High |} ] |} 0 0).
Proof.
  apply (generateMarkdown_orders_by_priority Samples.sampleLocale Samples.sampleLocale
           {| executiveSummary := js "s";
              actionItems := [ {| task := js "later"; priority := Low |};
                               {| task := js "urgent"; priority := High |} ] |} 0 0
           {| task := js "urgent"; priority := High |}
           {| task := js "later"; priority := Low |}).
  - right. left. reflexivity.
  - left. reflexivity.
  - simpl. lia.
Defined.

End WriterFacts.

(** * The extraction service and the run in GitHub Actions *)

Module ServiceFacts.

Import NoteProcessor NoteSnapshotStore AnthropicClient ApiServer.

Local Open Scope Z_scope.

Lemma aggregateContent_not_blank (toLocaleString : Z → jstring)
    (f : NoteSnapshotStore.File) (notes : list Note) (document : jstring) :
  aggregateContent toLocaleString f notes = inr document →
  trim document ≠ [].
Proof.
  unfold aggregateContent. destruct notes as [|note notes].
  { intros [= <-]. by vm_compute. }
  destruct (aggregateLoop _ _ _ _ _) as [e|sections] eqn:Hloop; [done|].
  apply PipelineFacts.aggregateLoop_sections in Hloop; [|constructor].
  destruct sections as [|s sections]; [intros [= <-]; by vm_compute|].
  intros Hdoc.
  assert (document = join [LF; LF] (s :: sections)) as -> by congruence.
  destruct (DiffEngine.join_head [LF; LF] s sections) as [rest ->].
  inversion Hloop as [|? ? Hs _]; subst.
  destruct s as [|c s]; [done|]. injection Hs as ->.
  rewrite DiffEngine.trim_nil. intros Hblank. by inversion Hblank.
Qed.

Section HandlerFacts.

Variable minus24Hours : Z → Z.
Variable toLocaleString : Z → jstring.
Variable toISOString : Z → jstring.

Abbreviation handler := (extractNotesHandler minus24Hours toLocaleString toISOString).

(** The handler when it answers 200. *)
Lemma handler_extracted (configured : jstring) (host : Host)
    (presented : option jstring) (state state' : State)
    (notesCount : Z) (stamp : jstring) :
  handler configured host presented state = (state', Extracted notesCount stamp) →
  ∃ allNotes processed data,
    extractNotes host = Some allNotes
    ∧ Pipeline.processNotes toLocaleString
        (TimestampStore.getCutoffDate minus24Hours (lastRunFile state)
           (cutoffTime host))
        (snapshotFile state) allNotes
      = inr processed
    ∧ notesCount = Z.of_nat (length (Pipeline.notes processed))
    ∧ gist state' = Some data
    ∧ notes data = []
    ∧ aggregatedContent data = Some (Pipeline.aggregatedContent processed)
    ∧ snapshotFile state'
      = Stored (toISOString (snapshotTime host))
               (Snapshots.indexByName (currentSnapshots toISOString allNotes))
    ∧ lastRunFile state'
      = TimestampStore.Stored (TimestampStore.Time (lastRunTime host)).
Proof.
  unfold extractNotesHandler.
  destruct (authenticated configured presented); [|done]. simpl.
  destruct (extractNotes host) as [allNotes|]; [|done].
  destruct (Pipeline.processNotes _ _ _ _) as [e|processed] eqn:Hprocessed; [done|].
  destruct (TimestampStore.getLastRun _) as [e|lastRun]; [done|].
  destruct (toISO toISOString (Pipeline.cutoffDate processed)) as [cutoffISO|];
    [|done].
  destruct (lastRunText toISOString lastRun) as [lastRunISO|]; [|done].
  destruct (saveNotes host); [|done]. simpl.
  destruct (snapshotDisk host); [|done]. simpl.
  destruct (lastRunDisk host); [|done]. simpl.
  intros [= <- <- <-]. eexists allNotes, processed, _.
  split; [done|]. split; [exact Hprocessed|].
  repeat (split; [reflexivity|]). reflexivity.
Qed.

End HandlerFacts.

(** X26: the service does nothing without the key.  A request is turned
    away with 401 exactly when it does not present the configured key, or
    the configured key is empty; and then no note is read and neither
    the files nor the Gist are touched. *)
Theorem handler_requires_the_key (minus24Hours : Z → Z)
    (toLocaleString toISOString : Z → jstring)
    (configured : jstring) (host : Host) (presented : option jstring)
    (state : State) :
  ((extractNotesHandler minus24Hours toLocaleString toISOString
      configured host presented state).2 = Unauthorized
   ↔ ¬ (presented = Some configured ∧ configured ≠ []))
  ∧ ((extractNotesHandler minus24Hours toLocaleString toISOString
        configured host presented state).2 = Unauthorized →
     (extractNotesHandler minus24Hours toLocaleString toISOString
        configured host presented state).1 = state).
Proof.
  assert (authenticated configured presented = true
          ↔ presented = Some configured ∧ configured ≠ []) as Hauth.
  { unfold authenticated. destruct presented as [key|]; [|naive_solver].
    rewrite andb_true_iff, bool_decide_eq_true, DiffEngine.len_pos. naive_solver. }
  unfold extractNotesHandler.
  destruct (authenticated configured presented).
  - assert (∀ answer : State * Response,
              answer.2 ≠ Unauthorized →
              (answer.2 = Unauthorized
               ↔ ¬ (presented = Some configured ∧ configured ≠ []))
              ∧ (answer.2 = Unauthorized → answer.1 = state)) as Hserved.
    { intros answer Hanswer. split; [|done]. split; [done|].
      intros Hnot. exfalso. by apply Hnot, Hauth. }
    simpl. apply Hserved. clear Hserved Hauth.
    destruct (extractNotes host) as [allNotes|]; [|done].
    destruct (Pipeline.processNotes _ _ _ _) as [e|processed]; [done|].
    destruct (TimestampStore.getLastRun _) as [e|lastRun]; [done|].
    destruct (toISO toISOString (Pipeline.cutoffDate processed)); [|done].
    destruct (lastRunText toISOString lastRun); [|done].
    destruct (saveNotes host); [|done]. simpl.
    destruct (snapshotDisk host); [|done]. simpl.
    by destruct (lastRunDisk host).
  - simpl. split; [|done]. split; [|done].
    intros _ Hkey. by apply Hauth in Hkey.
Qed.

(** X27: an answer of 200 means that everything was saved.  When the
    handler answers with success, the Gist holds the aggregated content
    of the notes processed (and no single note), the snapshot file holds
    all the notes extracted, the time of the last run is the time of this
    run, and the count in the answer is the number of notes inside the
    window. *)
Theorem handler_success_saves_everything (minus24Hours : Z → Z)
    (toLocaleString toISOString : Z → jstring)
    (configured : jstring) (host : Host) (presented : option jstring)
    (state state' : State) (notesCount : Z) (stamp : jstring) :
  extractNotesHandler minus24Hours toLocaleString toISOString
    configured host presented state
  = (state', Extracted notesCount stamp) →
  ∃ allNotes processed data,
    extractNotes host = Some allNotes
    ∧ Pipeline.processNotes toLocaleString
        (TimestampStore.getCutoffDate minus24Hours (lastRunFile state)
           (cutoffTime host))
        (snapshotFile state) allNotes
      = inr processed
    ∧ notesCount = Z.of_nat (length (Pipeline.notes processed))
    ∧ gist state' = Some data
    ∧ notes data = []
    ∧ aggregatedContent data = Some (Pipeline.aggregatedContent processed)
    ∧ snapshotFile state'
      = Stored (toISOString (snapshotTime host))
               (Snapshots.indexByName (currentSnapshots toISOString allNotes))
    ∧ lastRunFile state'
      = TimestampStore.Stored (TimestampStore.Time (lastRunTime host)).
Proof. apply handler_extracted. Qed.

Lemma handler_success_saves_everything_witness :
  ∃ allNotes processed data,
    extractNotes Samples.serviceHost = Some allNotes
    ∧ Pipeline.processNotes Samples.sampleLocale
        (TimestampStore.getCutoffDate Samples.dayBefore
           (lastRunFile Samples.freshService) (cutoffTime Samples.serviceHost))
        (snapshotFile Samples.freshService) allNotes
      = inr processed
    ∧ 3 = Z.of_nat (length (Pipeline.notes processed))
    ∧ gist
        (extractNotesHandler Samples.dayBefore Samples.sampleLocale Samples.sampleISO
           (js "key") Samples.serviceHost (Some (js "key")) Samples.freshService).1
      = Some data
    ∧ notes data = []
    ∧ aggregatedContent data = Some (Pipeline.aggregatedContent processed)
    ∧ snapshotFile
        (extractNotesHandler Samples.dayBefore Samples.sampleLocale Samples.sampleISO
           (js "key") Samples.serviceHost (Some (js "key")) Samples.freshService).1
      = Stored (Samples.sampleISO (snapshotTime Samples.serviceHost))
               (Snapshots.indexByName
                  (currentSnapshots Samples.sampleISO allNotes))
    ∧ lastRunFile
        (extractNotesHandler Samples.dayBefore Samples.sampleLocale Samples.sampleISO
           (js "key") Samples.serviceHost (Some (js "key")) Samples.freshService).1
      = TimestampStore.Stored
          (TimestampStore.Time (lastRunTime Samples.serviceHost)).
Proof.
  apply (handler_success_saves_everything Samples.dayBefore Samples.sampleLocale
           Samples.sampleISO (js "key") Samples.serviceHost (Some (js "key"))
           Samples.freshService _ 3 (Samples.sampleISO 0)).
  vm_compute. reflexivity.
Defined.

(** X28: what the service stored always goes to the language model.  The
    run in GitHub Actions skips the model on blank content only, and the
    content the service stores is never blank: when the service has
    answered 200, a run that loads what it stored, with its three
    variables set, calls [generateBrief] with the stored content, which
    is the sentence 'No notes were modified in the last 24 hours.' when
    no note was inside the window. *)
Theorem stored_content_reaches_the_model (minus24Hours : Z → Z)
    (toLocaleString toISOString : Z → jstring)
    (configured : jstring) (host : Host) (presented : option jstring)
    (state state' : State) (notesCount : Z) (stamp : jstring) :
  extractNotesHandler minus24Hours toLocaleString toISOString
    configured host presented state
  = (state', Extracted notesCount stamp) →
  ∃ data content,
    gist state' = Some data
    ∧ aggregatedContent data = Some content
    ∧ (notesCount = 0 → content = noNotesModified)
    ∧ ∀ (toLocaleString' toISOString' : Z → jstring)
        (newDate : jstring → TimestampStore.Date)
        (env : GitHubActions.Env) (runner : GitHubActions.Host),
        GitHubActions.isSet (GitHubActions.GITHUB_TOKEN env) = true →
        GitHubActions.isSet (GitHubActions.GIST_ID env) = true →
        GitHubActions.isSet (GitHubActions.ANTHROPIC_API_KEY env) = true →
        GitHubActions.loadNotes runner = Some (Some data) →
        ∃ rest,
          GitHubActions.calls
            (GitHubActions.main toLocaleString' toISOString' newDate env runner)
          = GitHubActions.GenerateBrief content :: rest.
Proof.
  intros Hhandled.
  apply handler_extracted in Hhandled
    as (allNotes & processed & data & _ & Hprocessed & Hcount & Hgist & _
        & Hcontent & _).
  exists data, (Pipeline.aggregatedContent processed).
  refine (conj Hgist (conj Hcontent (conj _ _))).
  - intros Hnone.
    pose proof (PipelineFacts.processNotes_notes _ _ _ _ _ Hprocessed)
      as (_ & _ & Haggregated).
    destruct (Pipeline.notes processed) as [|note rest]; [|simpl in *; lia].
    simpl in Haggregated. congruence.
  - intros toLocaleString' toISOString' newDate env runner Htoken Hgistid Hkey Hload.
    pose proof (PipelineFacts.processNotes_notes _ _ _ _ _ Hprocessed)
      as (_ & _ & Haggregated).
    apply aggregateContent_not_blank in Haggregated.
    unfold GitHubActions.main, GitHubActions.contentToProcess.
    rewrite Htoken, Hgistid, Hload, Hcontent, Hkey. simpl.
    assert ((0 <? len (Pipeline.aggregatedContent processed)) = true) as ->.
    { apply DiffEngine.len_pos. intros Hnil. by rewrite Hnil in Haggregated. }
    assert ((len (trim (Pipeline.aggregatedContent processed)) =? 0) = false) as ->.
    { apply Z.eqb_neq. intros Hlen. apply Haggregated.
      destruct (trim _); [done | by unfold len in Hlen]. }
    destruct (GitHubActions.generateBrief runner _) as [brief|]; [|by eexists].
    destruct (GitHubActions.SLACK_WEBHOOK_URL env) as [url|]; [|by eexists].
    destruct (0 <? len url); [|by eexists].
    destruct (len (trim url) =? 0); [by eexists|].
    destruct (GitHubActions.postDailyBrief runner brief); by eexists.
Qed.

Lemma stored_content_reaches_the_model_witness :
  ∃ data content,
    gist
      (extractNotesHandler Samples.dayBefore Samples.sampleLocale Samples.sampleISO
         (js "key") Samples.quietServiceHost (Some (js "key")) Samples.freshService).1
    = Some data
    ∧ aggregatedContent data = Some content
    ∧ (0 = 0 → content = noNotesModified)
    ∧ ∀ (toLocaleString' toISOString' : Z → jstring)
        (newDate : jstring → TimestampStore.Date)
        (env : GitHubActions.Env) (runner : GitHubActions.Host),
        GitHubActions.isSet (GitHubActions.GITHUB_TOKEN env) = true →
        GitHubActions.isSet (GitHubActions.GIST_ID env) = true →
        GitHubActions.isSet (GitHubActions.ANTHROPIC_API_KEY env) = true →
        GitHubActions.loadNotes runner = Some (Some data) →
        ∃ rest,
          GitHubActions.calls
            (GitHubActions.main toLocaleString' toISOString' newDate env runner)
          = GitHubActions.GenerateBrief content :: rest.
Proof.
  apply (stored_content_reaches_the_model Samples.dayBefore Samples.sampleLocale
           Samples.sampleISO (js "key") Samples.quietServiceHost (Some (js "key"))
           Samples.freshService _ 0 (Samples.sampleISO 0)).
  vm_compute. reflexivity.
Defined.

End ServiceFacts.
